(** * Parametric curve fitting: model, loss, optimizer and data loader

    A shallow embedding of [src/model.py], [src/loss.py], [src/utils.py],
    [src/data_loader.py], [src/optimizer.py] and the residuals computed in
    [src/plotting.py].

    Numbers.  Python floats are idealised as real numbers ([R]): rounding is
    not modelled.  The two special values the optimizer compares losses
    with, [float('inf')] and NaN, are kept apart in [pyfloat].  Overflow is
    modelled in the module [Float64], which holds [predict] and [l1_loss] a
    second time, on floats that are a real in the range of binary64, an
    infinity or NaN; what is claimed of the value of the loss is proved
    there.

    Libraries.  numpy's element-wise operations are written out on lists.
    pandas' CSV reader, scipy's two minimizers and the sample stream of
    numpy's global random generator are not part of the repository: the
    reader is an argument of [load_data], the others are the fields of
    [libs].

    Effects.  [fit_params] runs in a monad over the state of the global
    generator and a trace of log records and library calls, and may raise. *)

From Stdlib Require Import Ascii String.
From Stdlib Require Import Reals List ZArith Lra Lia Bool DecimalString.
Import ListNotations.
Open Scope R_scope.

(** ** Python values *)

Inductive exn : Type :=
| FileNotFoundError (msg : string)
| ValueError (msg : string)
| KeyError (key : string)
| AttributeError (msg : string)
| LibraryError (name : string).

Inductive result (A : Type) : Type :=
| Ok (a : A)
| Raise (e : exn).
Arguments Ok {A} a.
Arguments Raise {A} e.

Definition rbind {A B : Type} (m : result A) (k : A -> result B) : result B :=
  match m with
  | Ok a => k a
  | Raise e => Raise e
  end.

(** A loss as the optimizer compares it: a real number, [float('inf')] or
    NaN.  The losses are means of distances: negative infinity, which no
    such mean is, has no constructor. *)
Inductive pyfloat : Type :=
| Fin (r : R)
| Inf
| NaN.

(** [a < b] on Python floats: every comparison with NaN is false. *)
Definition pylt (a b : pyfloat) : bool :=
  match a, b with
  | Fin x, Fin y => if Rlt_dec x y then true else false
  | Fin _, Inf => true
  | _, _ => false
  end.

(** ** numpy on one-dimensional arrays *)

Definition array : Type := list R.

(** Binary element-wise operation on two arrays of one shape. *)
Definition np_zip (f : R -> R -> R) (a b : array) : array :=
  map (fun uv => f (fst uv) (snd uv)) (combine a b).

Definition np_abs (a : array) : array := map Rabs a.
Definition np_exp (a : array) : array := map exp a.
Definition np_sin (a : array) : array := map sin a.
Definition np_sqrt (a : array) : array := map sqrt a.
Definition np_square (a : array) : array := map (fun v => v * v) a.

(** [c * a], [a * c], [c + a], [a + c], [a - c] with a scalar [c]. *)
Definition scalar_mul (c : R) (a : array) : array := map (fun v => c * v) a.
Definition mul_scalar (a : array) (c : R) : array := map (fun v => v * c) a.
Definition scalar_add (c : R) (a : array) : array := map (fun v => c + v) a.
Definition add_scalar (a : array) (c : R) : array := map (fun v => v + c) a.
Definition sub_scalar (a : array) (c : R) : array := map (fun v => v - c) a.

Definition zero_size_minimum : string :=
  "zero-size array to reduction operation minimum which has no identity".

(** [np.min]: raises on an empty array. *)
Definition np_min (a : array) : result R :=
  match a with
  | [] => Raise (ValueError zero_size_minimum)
  | d :: ds => Ok (fold_left Rmin ds d)
  end.

(** [np.mean]: the sum over the count; 0/0 = NaN on an empty list. *)
Definition np_mean (a : array) : pyfloat :=
  match a with
  | [] => NaN
  | _ :: _ => Fin (fold_left Rplus a 0 / INR (length a))
  end.

Definition str_of_Z (n : Z) : string :=
  DecimalString.NilZero.string_of_int (Z.to_int n).

Definition msg_samples (n : Z) : string :=
  String.append "Number of samples, "
    (String.append (str_of_Z n) ", must be non-negative.").

(** [np.linspace(start, stop, n)] with the end point included. *)
Definition np_linspace (start stop : R) (n : Z) : result array :=
  if (n <? 0)%Z then Raise (ValueError (msg_samples n))
  else
    let num := Z.to_nat n in
    let step := (stop - start) / INR (num - 1) in
    Ok (map (fun i => if (i =? 0)%nat then start
                      else if (i =? num - 1)%nat then stop
                      else start + INR i * step)
            (seq 0 num)).

(** ** model.py *)

Definition deg_to_rad (degrees : R) : R := degrees * (PI / 180).

Definition rad_to_deg (radians : R) : R := radians * (180 / PI).

Definition predict (t : array) (theta_deg M X : R) : array * array :=
  let theta_rad := deg_to_rad theta_deg in
  let cos_theta := cos theta_rad in
  let sin_theta := sin theta_rad in
  let exp_term := np_exp (scalar_mul M (np_abs t)) in
  let sin_03t := np_sin (scalar_mul (3 / 10) t) in
  let x :=
    add_scalar
      (np_zip Rminus (mul_scalar t cos_theta)
                     (mul_scalar (np_zip Rmult exp_term sin_03t) sin_theta))
      X in
  let y :=
    np_zip Rplus
      (scalar_add 42 (mul_scalar t sin_theta))
      (mul_scalar (np_zip Rmult exp_term sin_03t) cos_theta) in
  (x, y).

(** ** loss.py *)

Definition params : Type := (R * R * R)%type.

(** The body of the [for x_o, y_o in zip(x_obs, y_obs)] loop, with the list
    [min_distances] it appends to. *)
Fixpoint min_distances_loop (x_pred y_pred : array) (min_distances : array)
    (obs : list (R * R)) : result array :=
  match obs with
  | [] => Ok min_distances
  | (x_o, y_o) :: rest =>
      let dists :=
        np_sqrt (np_zip Rplus (np_square (sub_scalar x_pred x_o))
                              (np_square (sub_scalar y_pred y_o))) in
      rbind (np_min dists) (fun m =>
        min_distances_loop x_pred y_pred (min_distances ++ [m]) rest)
  end.

Definition l1_loss (p : params) (t_samples x_obs y_obs : array) : result pyfloat :=
  let '(theta_deg, M, X) := p in
  let '(x_pred, y_pred) := predict t_samples theta_deg M X in
  rbind (min_distances_loop x_pred y_pred [] (combine x_obs y_obs))
        (fun min_distances => Ok (np_mean min_distances)).

Definition str_of_nat (n : nat) : string :=
  DecimalString.NilZero.string_of_uint (Nat.to_uint n).

(** numpy's message for two one-dimensional shapes that do not fit. *)
Definition cannot_broadcast (n m : nat) : string :=
  String.append "operands could not be broadcast together with shapes ("
    (String.append (str_of_nat n)
       (String.append ",) (" (String.append (str_of_nat m) ",) "))).

(** A binary operation on two arrays whose shapes may differ: equal lengths
    go element by element, an array of one element is stretched over the
    other, anything else raises. *)
Definition np_broadcast (f : R -> R -> R) (a b : array) : result array :=
  if (length a =? length b)%nat then Ok (np_zip f a b)
  else
    match a, b with
    | [u], _ => Ok (map (fun v => f u v) b)
    | _, [v] => Ok (map (fun u => f u v) a)
    | _, _ => Raise (ValueError (cannot_broadcast (length a) (length b)))
    end.

Definition compute_residuals (x_pred y_pred x_obs y_obs : array) : result array :=
  rbind (np_broadcast Rminus x_pred x_obs) (fun dx =>
  rbind (np_broadcast Rminus y_pred y_obs) (fun dy =>
  rbind (np_broadcast Rplus (np_square dx) (np_square dy)) (fun s =>
  Ok (np_sqrt s)))).

(** ** pandas data frames *)

(** A frame is its row count and its named columns, in order.  [read_csv]
    never returns two columns of one name, so a name denotes the first
    column that carries it. *)
Record DataFrame (C : Type) : Type := mkDataFrame {
  df_len : nat;
  df_columns : list (string * list C)
}.
Arguments mkDataFrame {C} _ _.
Arguments df_len {C} _.
Arguments df_columns {C} _.

Definition df_names {C : Type} (df : DataFrame C) : list string :=
  map fst (df_columns df).

(** [name in df.columns] *)
Definition df_has {C : Type} (name : string) (df : DataFrame C) : bool :=
  existsb (String.eqb name) (df_names df).

Fixpoint find_column {C : Type} (name : string) (cols : list (string * list C))
  : option (list C) :=
  match cols with
  | [] => None
  | (n, c) :: rest => if String.eqb name n then Some c else find_column name rest
  end.

(** [df[name]] *)
Definition df_get {C : Type} (df : DataFrame C) (name : string) : result (list C) :=
  match find_column name (df_columns df) with
  | Some c => Ok c
  | None => Raise (KeyError name)
  end.

Fixpoint select_columns {C : Type} (names : list string)
    (cols : list (string * list C)) : result (list (string * list C)) :=
  match names with
  | [] => Ok []
  | n :: rest =>
      match find_column n cols with
      | None => Raise (KeyError n)
      | Some c => rbind (select_columns rest cols) (fun cs => Ok ((n, c) :: cs))
      end
  end.

(** [df[[name; ...]]] *)
Definition df_select {C : Type} (df : DataFrame C) (names : list string)
  : result (DataFrame C) :=
  rbind (select_columns names (df_columns df))
        (fun cs => Ok (mkDataFrame (df_len df) cs)).

Inductive cell : Type :=
| Num (r : R)
| Text (s : string)
| Missing.

Definition isna (c : cell) : bool :=
  match c with
  | Missing => true
  | _ => false
  end.

(** [df.isna().any().any()] *)
Definition df_any_isna (df : DataFrame cell) : bool :=
  existsb (fun col => existsb isna (snd col)) (df_columns df).

(** ** data_loader.py *)

Definition msg_not_found (path : string) : string :=
  String.append "Data file not found: " path.

Definition msg_columns : string := "CSV must contain 'x' and 'y' columns".

Definition msg_insufficient (n : nat) : string :=
  String.append "Insufficient data: "
    (String.append (str_of_nat n) " rows (minimum 10 required)").

Definition msg_nan : string := "Data contains NaN values".

(** [read_csv] stands for [pd.read_csv]: it returns a frame or raises. *)
Definition load_data (read_csv : string -> result (DataFrame cell)) (path : string)
  : result (DataFrame cell) :=
  match read_csv path with
  | Raise (FileNotFoundError _) => Raise (FileNotFoundError (msg_not_found path))
  | Raise e => Raise e
  | Ok df =>
      if negb (df_has "x" df) || negb (df_has "y" df) then
        Raise (ValueError msg_columns)
      else if (df_len df <? 10)%nat then
        Raise (ValueError (msg_insufficient (df_len df)))
      else
        rbind (df_select df ["x"; "y"]%string) (fun xy =>
          if df_any_isna xy then Raise (ValueError msg_nan)
          else df_select df ["x"; "y"]%string)
  end.

Definition get_uniform_t_values (n : Z) (t_min t_max : R) : result array :=
  np_linspace t_min t_max n.

(** ** utils.py *)

Definition Rltb (a b : R) : bool := if Rlt_dec a b then true else false.

Definition validate_bounds (theta_deg M X : R) : bool :=
  let theta_valid := Rltb 0 theta_deg && Rltb theta_deg 50 in
  let M_valid := Rltb (- (5 / 100)) M && Rltb M (5 / 100) in
  let X_valid := Rltb 0 X && Rltb X 100 in
  theta_valid && M_valid && X_valid.

(** ** optimizer.py *)

(** What scipy's minimizers return: the point found and its loss. *)
Record OptimizeResult : Type := mkOptimizeResult {
  res_x : params;
  res_fun : pyfloat
}.

Definition objective : Type := params -> result pyfloat.

(** The libraries the optimizer calls.  [minimize] is
    [scipy.optimize.minimize] with the method and options of the source
    (Nelder-Mead, maxiter 10000, xatol and fatol 1e-6);
    [differential_evolution] has maxiter 1000, atol and tol 1e-6, and its own
    generator made from its seed argument; [random_sample seed k] is the
    k-th sample the global numpy generator yields after
    [np.random.seed(seed)]. *)
Record libs : Type := mkLibs {
  minimize : objective -> params -> list (R * R) -> result OptimizeResult;
  differential_evolution : objective -> list (R * R) -> Z -> result OptimizeResult;
  random_sample : Z -> nat -> R
}.

(** numpy's global generator: the stream it was seeded with and the number
    of samples drawn from it so far. *)
Record rng : Type := mkRng {
  rng_stream : nat -> R;
  rng_pos : nat
}.

Inductive message : Type :=
| StartingOptimization (n_restarts : Z)
| RestartNewBest (i : nat) (n_restarts : Z) (best_loss : pyfloat)
| RunningDifferentialEvolution
| DifferentialEvolutionNewBest (best_loss : pyfloat)
| OutsideExpectedBounds
| OptimizationComplete (theta_deg M X : R) (best_loss : pyfloat).

(** What a run leaves behind, in order: log records and library calls. *)
Inductive event : Type :=
| LogInfo (m : message)
| LogWarning (m : message)
| CallMinimize (x0 : params)
| CallDifferentialEvolution (seed : Z).

Record world : Type := mkWorld {
  w_rng : rng;
  w_trace : list event
}.

(** Computations that read and write the world and may raise. *)
Definition M (A : Type) : Type := world -> result A * world.

Definition ret {A : Type} (a : A) : M A := fun w => (Ok a, w).

Definition bind {A B : Type} (m : M A) (k : A -> M B) : M B :=
  fun w =>
    match m w with
    | (Ok a, w') => k a w'
    | (Raise e, w') => (Raise e, w')
    end.

Notation "x <- c1 ;; c2" := (bind c1 (fun x => c2))
  (at level 61, c1 at next level, right associativity).
Notation "c1 ;; c2" := (bind c1 (fun _ => c2))
  (at level 61, right associativity).

Definition lift {A : Type} (r : result A) : M A := fun w => (r, w).

Definition emit (e : event) : M unit :=
  fun w => (Ok tt, mkWorld (w_rng w) (w_trace w ++ [e])).

(** The seeds [np.random.seed] accepts: 0 to 2**32 - 1. *)
Definition seed_in_range (seed : Z) : bool :=
  (0 <=? seed)%Z && (seed <=? 4294967295)%Z.

Definition msg_seed : string := "Seed must be between 0 and 2**32 - 1".

(** [np.random.seed(seed)]: raises on a seed out of range and leaves the
    generator as it was. *)
Definition np_random_seed (L : libs) (seed : Z) : M unit :=
  fun w =>
    if seed_in_range seed
    then (Ok tt, mkWorld (mkRng (random_sample L seed) 0) (w_trace w))
    else (Raise (ValueError msg_seed), w).

(** [np.random.uniform(low, high)]: one sample, scaled. *)
Definition np_random_uniform (bound : R * R) : M R :=
  fun w =>
    let g := w_rng w in
    let '(low, high) := bound in
    (Ok (low + (high - low) * rng_stream g (rng_pos g)),
     mkWorld (mkRng (rng_stream g) (S (rng_pos g))) (w_trace w)).

Fixpoint for_each {A S : Type} (items : list A) (body : A -> S -> M S) (s : S)
  : M S :=
  match items with
  | [] => ret s
  | i :: rest => s' <- body i s ;; for_each rest body s'
  end.

Definition range (n : Z) : list nat := seq 0 (Z.to_nat n).

Record bounds_t : Type := mkBounds {
  b_theta_deg : R * R;
  b_M : R * R;
  b_X : R * R
}.

Definition default_bounds : bounds_t :=
  mkBounds (1 / 10, 499 / 10) (- (49 / 1000), 49 / 1000) (1 / 10, 999 / 10).

Definition default_initial_guess : params := (25, 0, 50).

Record FitResult : Type := mkFitResult {
  fit_theta_deg : R;
  fit_theta_rad : R;
  fit_M : R;
  fit_X : R;
  fit_l1 : pyfloat
}.

(** [best_result] and [best_loss]. *)
Definition best : Type := (option OptimizeResult * pyfloat)%type.

(** One iteration of the restart loop. *)
Definition restart (L : libs) (f : objective) (initial_guess : params)
    (bounds : bounds_t) (scipy_bounds : list (R * R)) (n_restarts : Z)
    (i : nat) (b : best) : M best :=
  x0 <- (if (i =? 0)%nat then ret initial_guess
         else
           u1 <- np_random_uniform (b_theta_deg bounds) ;;
           u2 <- np_random_uniform (b_M bounds) ;;
           u3 <- np_random_uniform (b_X bounds) ;;
           ret (u1, u2, u3)) ;;
  emit (CallMinimize x0) ;;
  r <- lift (minimize L f x0 scipy_bounds) ;;
  if pylt (res_fun r) (snd b) then
    emit (LogInfo (RestartNewBest (i + 1) n_restarts (res_fun r))) ;;
    ret (Some r, res_fun r)
  else ret b.

Definition fit_params (L : libs) (xy_df : DataFrame R)
    (initial_guess : option params) (n_samples : Z) (bounds : option bounds_t)
    (n_restarts : Z) (seed : Z) : M FitResult :=
  np_random_seed L seed ;;
  let bounds := match bounds with None => default_bounds | Some b => b end in
  x_obs <- lift (df_get xy_df "x") ;;
  y_obs <- lift (df_get xy_df "y") ;;
  t_samples <- lift (get_uniform_t_values n_samples 6 60) ;;
  let scipy_bounds := [b_theta_deg bounds; b_M bounds; b_X bounds] in
  let initial_guess :=
    match initial_guess with None => default_initial_guess | Some g => g end in
  let f : objective := fun p => l1_loss p t_samples x_obs y_obs in
  emit (LogInfo (StartingOptimization n_restarts)) ;;
  b <- for_each (range n_restarts)
         (restart L f initial_guess bounds scipy_bounds n_restarts) (None, Inf) ;;
  emit (LogInfo RunningDifferentialEvolution) ;;
  emit (CallDifferentialEvolution seed) ;;
  de_result <- lift (differential_evolution L f scipy_bounds seed) ;;
  b <- (if pylt (res_fun de_result) (snd b) then
          emit (LogInfo (DifferentialEvolutionNewBest (res_fun de_result))) ;;
          ret (Some de_result, res_fun de_result)
        else ret b) ;;
  match fst b with
  | None => lift (Raise (AttributeError "'NoneType' object has no attribute 'x'"))
  | Some best_result =>
      let '(theta_deg, M, X) := res_x best_result in
      (if negb (validate_bounds theta_deg M X)
       then emit (LogWarning OutsideExpectedBounds) else ret tt) ;;
      let theta_rad := deg_to_rad theta_deg in
      emit (LogInfo (OptimizationComplete theta_deg M X (snd b))) ;;
      ret (mkFitResult theta_deg theta_rad M X (snd b))
  end.

(** ** plotting.py *)

(** The residuals [plot_residuals] draws (its lines up to the call of
    [compute_residuals]); the drawing itself belongs to matplotlib.  [fit]
    is the dictionary of fitted parameters. *)
Definition plot_residuals_data (xy_df : DataFrame R) (fit : FitResult)
    (n_samples : Z) : result array :=
  rbind (get_uniform_t_values n_samples 6 60) (fun t_samples =>
  let '(x_pred, y_pred) :=
    predict t_samples (fit_theta_deg fit) (fit_M fit) (fit_X fit) in
  rbind (df_get xy_df "x") (fun x_col =>
  let x_obs := firstn (Z.to_nat n_samples) x_col in
  rbind (df_get xy_df "y") (fun y_col =>
  let y_obs := firstn (Z.to_nat n_samples) y_col in
  compute_residuals (firstn (length x_obs) x_pred) (firstn (length y_obs) y_pred)
                    x_obs y_obs))).

(** ** The specification's words for the curve and the loss *)

(** x(t) = t cos θ − exp(M |t|) sin(0.3 t) sin θ + X. *)
Definition curve_x (theta_deg M X t : R) : R :=
  let theta := theta_deg * PI / 180 in
  t * cos theta - exp (M * Rabs t) * sin (3 / 10 * t) * sin theta + X.

(** y(t) = 42 + t sin θ + exp(M |t|) sin(0.3 t) cos θ. *)
Definition curve_y (theta_deg M X t : R) : R :=
  let theta := theta_deg * PI / 180 in
  42 + t * sin theta + exp (M * Rabs t) * sin (3 / 10 * t) * cos theta.

Definition curve_point (p : params) (t : R) : R * R :=
  let '(theta_deg, M, X) := p in
  (curve_x theta_deg M X t, curve_y theta_deg M X t).

Definition euclid (a b : R * R) : R :=
  sqrt ((fst a - fst b) ^ 2 + (snd a - snd b) ^ 2).

(** [m] is the least element of [l]. *)
Definition is_minimum (m : R) (l : list R) : Prop :=
  In m l /\ forall d, In d l -> m <= d.

Definition sum_list (l : list R) : R := fold_right Rplus 0 l.

Definition arithmetic_mean (l : list R) : R := sum_list l / INR (length l).

(** The least distance from [o] to the curve points at the samples (0 when
    there is no sample). *)
Definition least_distance (p : params) (t_samples : array) (o : R * R) : R :=
  match map (fun t => euclid o (curve_point p t)) t_samples with
  | [] => 0
  | d :: ds => fold_left Rmin ds d
  end.

(** Largest finite binary64 value; a real result is representable as a
    finite float when its magnitude does not exceed it. *)
Definition float64_max : R := (2 - / 2 ^ 52) * 2 ^ 1023.

Definition isfinite (r : R) : Prop := Rabs r <= float64_max.

(** ** model.py and loss.py with the overflow of binary64 *)

(** Above, a float is a real number.  Here the results that leave the range
    of binary64 are kept apart: a result whose magnitude reaches the
    overflow threshold of rounding to nearest becomes an infinity, and the
    infinities and NaN follow IEEE 754.  Rounding inside the range,
    underflow and the sign of zero are not modelled. *)
Module Float64.

Inductive float : Type :=
| fin (r : R)
| pinf
| ninf
| nan.

Definition overflow_threshold : R := 2 ^ 1024 - 2 ^ 970.

Definition round (r : R) : float :=
  if Rle_dec overflow_threshold r then pinf
  else if Rle_dec r (- overflow_threshold) then ninf
  else fin r.

Definition fopp (a : float) : float :=
  match a with
  | fin x => fin (- x)
  | pinf => ninf
  | ninf => pinf
  | nan => nan
  end.

Definition fadd (a b : float) : float :=
  match a, b with
  | nan, _ | _, nan => nan
  | fin x, fin y => round (x + y)
  | pinf, ninf | ninf, pinf => nan
  | pinf, _ | _, pinf => pinf
  | ninf, _ | _, ninf => ninf
  end.

Definition fsub (a b : float) : float := fadd a (fopp b).

(** An infinity times a finite value: the sign of the product, NaN at 0. *)
Definition inf_times (positive : bool) (x : R) : float :=
  if Rlt_dec 0 x then (if positive then pinf else ninf)
  else if Rlt_dec x 0 then (if positive then ninf else pinf)
  else nan.

Definition fmul (a b : float) : float :=
  match a, b with
  | nan, _ | _, nan => nan
  | fin x, fin y => round (x * y)
  | pinf, fin x | fin x, pinf => inf_times true x
  | ninf, fin x | fin x, ninf => inf_times false x
  | pinf, pinf | ninf, ninf => pinf
  | pinf, ninf | ninf, pinf => ninf
  end.

Definition fabs (a : float) : float :=
  match a with
  | fin x => fin (Rabs x)
  | pinf | ninf => pinf
  | nan => nan
  end.

Definition fexp (a : float) : float :=
  match a with
  | fin x => round (exp x)
  | pinf => pinf
  | ninf => fin 0
  | nan => nan
  end.

Definition fsin (a : float) : float :=
  match a with
  | fin x => fin (sin x)
  | _ => nan
  end.

Definition fcos (a : float) : float :=
  match a with
  | fin x => fin (cos x)
  | _ => nan
  end.

Definition fsqrt (a : float) : float :=
  match a with
  | fin x => if Rlt_dec x 0 then nan else fin (sqrt x)
  | pinf => pinf
  | ninf | nan => nan
  end.

(** The minimum of two values as [np.min] takes it: NaN wins. *)
Definition fmin (a b : float) : float :=
  match a, b with
  | nan, _ | _, nan => nan
  | ninf, _ | _, ninf => ninf
  | pinf, c | c, pinf => c
  | fin x, fin y => fin (Rmin x y)
  end.

Definition farray : Type := list float.

Definition np_zip (f : float -> float -> float) (a b : farray) : farray :=
  map (fun uv => f (fst uv) (snd uv)) (combine a b).

Definition np_abs (a : farray) : farray := map fabs a.
Definition np_exp (a : farray) : farray := map fexp a.
Definition np_sin (a : farray) : farray := map fsin a.
Definition np_sqrt (a : farray) : farray := map fsqrt a.
Definition np_square (a : farray) : farray := map (fun v => fmul v v) a.

Definition scalar_mul (c : float) (a : farray) : farray :=
  map (fun v => fmul c v) a.
Definition mul_scalar (a : farray) (c : float) : farray :=
  map (fun v => fmul v c) a.
Definition scalar_add (c : float) (a : farray) : farray :=
  map (fun v => fadd c v) a.
Definition add_scalar (a : farray) (c : float) : farray :=
  map (fun v => fadd v c) a.
Definition sub_scalar (a : farray) (c : float) : farray :=
  map (fun v => fsub v c) a.

Definition np_min (a : farray) : result float :=
  match a with
  | [] => Raise (ValueError zero_size_minimum)
  | d :: ds => Ok (fold_left fmin ds d)
  end.

(** [np.mean]: the sum over the count.  The sum is taken left to right;
    numpy adds pairwise, which makes no difference to whether a sum of
    distances, none of them negative, overflows. *)
Definition np_mean (a : farray) : float :=
  match a with
  | [] => nan
  | _ :: _ =>
      match fold_left fadd a (fin 0) with
      | fin s => round (s / INR (length a))
      | other => other
      end
  end.

Definition deg_to_rad (degrees : float) : float := fmul degrees (fin (PI / 180)).

Definition predict (t : farray) (theta_deg M X : float) : farray * farray :=
  let theta_rad := deg_to_rad theta_deg in
  let cos_theta := fcos theta_rad in
  let sin_theta := fsin theta_rad in
  let exp_term := np_exp (scalar_mul M (np_abs t)) in
  let sin_03t := np_sin (scalar_mul (fin (3 / 10)) t) in
  let x :=
    add_scalar
      (np_zip fsub (mul_scalar t cos_theta)
                   (mul_scalar (np_zip fmul exp_term sin_03t) sin_theta))
      X in
  let y :=
    np_zip fadd
      (scalar_add (fin 42) (mul_scalar t sin_theta))
      (mul_scalar (np_zip fmul exp_term sin_03t) cos_theta) in
  (x, y).

Fixpoint min_distances_loop (x_pred y_pred : farray) (min_distances : farray)
    (obs : list (float * float)) : result farray :=
  match obs with
  | [] => Ok min_distances
  | (x_o, y_o) :: rest =>
      let dists :=
        np_sqrt (np_zip fadd (np_square (sub_scalar x_pred x_o))
                             (np_square (sub_scalar y_pred y_o))) in
      rbind (np_min dists) (fun m =>
        min_distances_loop x_pred y_pred (min_distances ++ [m]) rest)
  end.

Definition l1_loss (p : float * float * float) (t_samples x_obs y_obs : farray)
    : result float :=
  let '(theta_deg, M, X) := p in
  let '(x_pred, y_pred) := predict t_samples theta_deg M X in
  rbind (min_distances_loop x_pred y_pred [] (combine x_obs y_obs))
        (fun min_distances => Ok (np_mean min_distances)).

Definition np_broadcast (f : float -> float -> float) (a b : farray)
    : result farray :=
  if (length a =? length b)%nat then Ok (np_zip f a b)
  else
    match a, b with
    | [u], _ => Ok (map (fun v => f u v) b)
    | _, [v] => Ok (map (fun u => f u v) a)
    | _, _ => Raise (ValueError (cannot_broadcast (length a) (length b)))
    end.

Definition compute_residuals (x_pred y_pred x_obs y_obs : farray)
    : result farray :=
  rbind (np_broadcast fsub x_pred x_obs) (fun dx =>
  rbind (np_broadcast fsub y_pred y_obs) (fun dy =>
  rbind (np_broadcast fadd (np_square dx) (np_square dy)) (fun s =>
  Ok (np_sqrt s)))).

(** The residuals of [plot_residuals], on a frame and fitted parameters
    that hold finite values. *)
Definition plot_residuals_data (xy_df : DataFrame R) (fit : FitResult)
    (n_samples : Z) : result farray :=
  rbind (get_uniform_t_values n_samples 6 60) (fun t_samples =>
  let '(x_pred, y_pred) :=
    predict (map fin t_samples) (fin (fit_theta_deg fit)) (fin (fit_M fit))
            (fin (fit_X fit)) in
  rbind (df_get xy_df "x") (fun x_col =>
  let x_obs := firstn (Z.to_nat n_samples) (map fin x_col) in
  rbind (df_get xy_df "y") (fun y_col =>
  let y_obs := firstn (Z.to_nat n_samples) (map fin y_col) in
  compute_residuals (firstn (length x_obs) x_pred) (firstn (length y_obs) y_pred)
                    x_obs y_obs))).

(** The two curve equations on one sample, the distance the loop takes
    from a predicted point to an observed point, and the floats that are
    not negative: a real that is not negative, or [pinf]. *)
Definition curve_x (theta_deg M X t : float) : float :=
  fadd (fsub (fmul t (fcos (deg_to_rad theta_deg)))
             (fmul (fmul (fexp (fmul M (fabs t))) (fsin (fmul (fin (3 / 10)) t)))
                   (fsin (deg_to_rad theta_deg))))
       X.

Definition curve_y (theta_deg M X t : float) : float :=
  fadd (fadd (fin 42) (fmul t (fsin (deg_to_rad theta_deg))))
       (fmul (fmul (fexp (fmul M (fabs t))) (fsin (fmul (fin (3 / 10)) t)))
             (fcos (deg_to_rad theta_deg))).

Definition distance (q : float * float) (x_o y_o : float) : float :=
  fsqrt (fadd (fmul (fsub (fst q) x_o) (fsub (fst q) x_o))
              (fmul (fsub (snd q) y_o) (fsub (snd q) y_o))).

Definition nonneg (a : float) : Prop :=
  match a with
  | fin v => 0 <= v
  | pinf => True
  | ninf | nan => False
  end.

End Float64.

(** A real array as an array of finite floats, and a loss of the real model
    as a float. *)
Definition finite_array (a : array) : Float64.farray := map Float64.fin a.

Definition finite_params (p : params)
    : Float64.float * Float64.float * Float64.float :=
  let '(theta_deg, M, X) := p in
  (Float64.fin theta_deg, Float64.fin M, Float64.fin X).

Definition float_of_pyfloat (v : pyfloat) : Float64.float :=
  match v with
  | Fin r => Float64.fin r
  | Inf => Float64.pinf
  | NaN => Float64.nan
  end.

(** Inputs on which no intermediate result of [predict] and [l1_loss]
    leaves the range of binary64: a finite angle; offset, samples and
    observed coordinates of magnitude at most 2^400; [M * |t|] of magnitude
    at most 200 (so [exp] stays below 2^400); and at most 2^64 observed
    points, more than an array holds. *)
Definition within_range (p : params) (t_samples x_obs y_obs : array) : Prop :=
  let '(theta_deg, M, X) := p in
  isfinite theta_deg /\ Rabs X <= 2 ^ 400
  /\ Forall (fun t => Rabs t <= 2 ^ 400 /\ Rabs (M * Rabs t) <= 200) t_samples
  /\ Forall (fun v => Rabs v <= 2 ^ 400) x_obs
  /\ Forall (fun v => Rabs v <= 2 ^ 400) y_obs
  /\ INR (length (combine x_obs y_obs)) <= 2 ^ 64.

(** The angle and the samples are finite doubles and no [exp(M * |t|)]
    overflows. *)
Definition exp_within_range (p : params) (t_samples : array) : Prop :=
  let '(theta_deg, M, X) := p in
  isfinite theta_deg
  /\ Forall (fun t => isfinite t /\ exp (M * Rabs t) < Float64.overflow_threshold)
            t_samples.

(** ** The specification's words for loading *)

(** The named column exists and holds a missing value. *)
Definition column_has_missing (name : string) (df : DataFrame cell) : bool :=
  match find_column name (df_columns df) with
  | Some c => existsb isna c
  | None => false
  end.

(** The four conditions, on what the reader did at [path]. *)
Definition file_missing (read_csv : string -> result (DataFrame cell))
    (path : string) : Prop :=
  exists m, read_csv path = Raise (FileNotFoundError m).

Definition lacks_xy (df : DataFrame cell) : Prop :=
  df_has "x" df = false \/ df_has "y" df = false.

Definition too_few_rows (df : DataFrame cell) : Prop := (df_len df < 10)%nat.

Definition xy_has_missing (df : DataFrame cell) : Prop :=
  column_has_missing "x" df = true \/ column_has_missing "y" df = true.

(** ** The specification's words for a fitting run *)

(** A sample [u] of the generator scaled into a bound. *)
Definition scale (bound : R * R) (u : R) : R :=
  let '(low, high) := bound in low + (high - low) * u.

(** The starting vector of restart [i]: the initial guess for restart 0,
    and for [i > 0] the three samples at positions 3(i-1), 3(i-1)+1 and
    3(i-1)+2 of the seeded stream, scaled into the three bounds. *)
Definition start_vector (guess : params) (b : bounds_t) (stream : nat -> R)
    (i : nat) : params :=
  match i with
  | O => guess
  | S j => (scale (b_theta_deg b) (stream (3 * j)%nat),
            scale (b_M b) (stream (3 * j + 1)%nat),
            scale (b_X b) (stream (3 * j + 2)%nat))
  end.

Definition bounds_or_default (bounds : option bounds_t) : bounds_t :=
  match bounds with None => default_bounds | Some b => b end.

Definition guess_or_default (initial_guess : option params) : params :=
  match initial_guess with None => default_initial_guess | Some g => g end.

Definition box (b : bounds_t) : list (R * R) :=
  [b_theta_deg b; b_M b; b_X b].

(** The objective handed to both minimizers. *)
Definition loss_on (t_samples x_obs y_obs : array) : objective :=
  fun p => l1_loss p t_samples x_obs y_obs.

Definition no_best_result : exn :=
  AttributeError "'NoneType' object has no attribute 'x'".

Definition start_vectors (L : libs) (initial_guess : option params)
    (bounds : option bounds_t) (n_restarts seed : Z) : list params :=
  map (start_vector (guess_or_default initial_guess) (bounds_or_default bounds)
                    (random_sample L seed))
      (range n_restarts).

(** Whether the point lies in the box. *)
Definition in_box (b : bounds_t) (p : params) : Prop :=
  let '(theta_deg, M, X) := p in
  fst (b_theta_deg b) <= theta_deg <= snd (b_theta_deg b)
  /\ fst (b_M b) <= M <= snd (b_M b)
  /\ fst (b_X b) <= X <= snd (b_X b).

(** The comparison rule: a candidate replaces the best so far only when
    its loss is strictly smaller. *)
Definition better (b : best) (r : OptimizeResult) : best :=
  if pylt (res_fun r) (snd b) then (Some r, res_fun r) else b.

(** The best of the candidates, taken in the order they were computed. *)
Definition select (candidates : list OptimizeResult) : best :=
  fold_left better candidates (None, Inf).

(** [r], at position [i], is strictly below [float('inf')], the best loss
    a run starts with, and strictly below every earlier candidate whose loss
    is no NaN, and no later candidate is strictly below it. *)
Definition first_strict_minimum (candidates : list OptimizeResult) (i : nat)
    (r : OptimizeResult) : Prop :=
  nth_error candidates i = Some r
  /\ pylt (res_fun r) Inf = true
  /\ (forall j c, (j < i)%nat -> nth_error candidates j = Some c ->
        res_fun c <> NaN -> pylt (res_fun r) (res_fun c) = true)
  /\ (forall j c, (i < j)%nat -> nth_error candidates j = Some c ->
        pylt (res_fun c) (res_fun r) = false).

Definition package (r : OptimizeResult) (l1 : pyfloat) : FitResult :=
  let '(theta_deg, M, X) := res_x r in
  mkFitResult theta_deg (deg_to_rad theta_deg) M X l1.

(** The library calls in a trace, and the starting points of its local
    minimizations. *)
Definition is_call (e : event) : bool :=
  match e with
  | CallMinimize _ | CallDifferentialEvolution _ => true
  | _ => false
  end.

Definition calls (tr : list event) : list event := filter is_call tr.

Definition is_warning (e : event) : bool :=
  match e with
  | LogWarning _ => true
  | _ => false
  end.

(** The events of the restart loop, from restart [k] on, when the local
    minimizations return [rs]. *)
Fixpoint loop_events (guess : params) (b : bounds_t) (stream : nat -> R)
    (n_restarts : Z) (k : nat) (rs : list OptimizeResult) (best_loss : pyfloat)
  : list event :=
  match rs with
  | [] => []
  | r :: rest =>
      CallMinimize (start_vector guess b stream k)
      :: (if pylt (res_fun r) best_loss
          then LogInfo (RestartNewBest (k + 1) n_restarts (res_fun r))
               :: loop_events guess b stream n_restarts (S k) rest (res_fun r)
          else loop_events guess b stream n_restarts (S k) rest best_loss)
  end.

(** The events after the global search returned [d]. *)
Definition final_events (b : best) (d : OptimizeResult) : list event :=
  (if pylt (res_fun d) (snd b)
   then [LogInfo (DifferentialEvolutionNewBest (res_fun d))] else [])
  ++ match fst (better b d) with
     | None => []
     | Some r =>
         let '(theta_deg, M, X) := res_x r in
         (if negb (validate_bounds theta_deg M X)
          then [LogWarning OutsideExpectedBounds] else [])
         ++ [LogInfo (OptimizationComplete theta_deg M X (snd (better b d)))]
     end.

(** What the accumulator [(best_result, best_loss)] knows about the
    candidates [pre] seen so far. *)
Definition best_of (pre : list OptimizeResult) (acc : best) : Prop :=
  match fst acc with
  | None =>
      snd acc = Inf
      /\ forall j c, nth_error pre j = Some c -> pylt (res_fun c) Inf = false
  | Some r => snd acc = res_fun r /\ exists i, first_strict_minimum pre i r
  end.


(** Two worlds whose generators are in one state; a computation whose
    result and final generator state depend on nothing else. *)
Definition same_rng (w1 w2 : world) : Prop := w_rng w1 = w_rng w2.

Definition oblivious {A : Type} (m : M A) : Prop :=
  forall w1 w2, same_rng w1 w2 ->
    fst (m w1) = fst (m w2) /\ same_rng (snd (m w1)) (snd (m w2)).

(** ** Example inputs *)

(** Stand-ins for the libraries: a local minimizer that stops at its
    starting point, a global search that returns the lower corner of the
    box, both reporting the loss 1, and a generator that yields 1/2, 1/3,
    1/4 and so on. *)
Definition example_libs : libs :=
  mkLibs
    (fun _ x0 _ => Ok (mkOptimizeResult x0 (Fin 1)))
    (fun _ bs _ =>
       Ok (mkOptimizeResult
             (fst (nth 0 bs (0, 0)), fst (nth 1 bs (0, 0)), fst (nth 2 bs (0, 0)))
             (Fin 1)))
    (fun _ k => / INR (k + 2)).

Definition example_frame : DataFrame R :=
  mkDataFrame 2 [("x"%string, [60; 70]); ("y"%string, [45; 50])].

Definition example_world : world := mkWorld (mkRng (fun _ => 0) 7) [].



(** A table with an extra column, ten complete rows. *)
Definition example_table : DataFrame cell :=
  mkDataFrame 10
    [("t"%string, map Num [1; 2; 3; 4; 5; 6; 7; 8; 9; 10]);
     ("y"%string, map Num [45; 46; 47; 48; 49; 50; 51; 52; 53; 54]);
     ("x"%string, map Num [60; 61; 62; 63; 64; 65; 66; 67; 68; 69])].

(** A reader that finds [example_table] at one path, a file it cannot parse
    at another, and nothing elsewhere. *)
Definition example_read_csv (path : string) : result (DataFrame cell) :=
  if String.eqb path "data/xy.csv" then Ok example_table
  else if String.eqb path "data/ragged.csv"
       then Raise (LibraryError "pandas.errors.ParserError")
       else Raise (FileNotFoundError "No such file or directory").



(** A frame without a y column, and one without an x column. *)
Definition example_frame_no_y : DataFrame R :=
  mkDataFrame 2 [("x"%string, [60; 70]); ("z"%string, [45; 50])].


(** * Properties *)

(** ** The definitions on a few inputs *)

Ltac decide_Rlt :=
  repeat match goal with
         | |- context [Rlt_dec ?a ?b] => destruct (Rlt_dec a b)
         end;
  try reflexivity; try lra.

Example deg_to_rad_0 : deg_to_rad 0 = 0.
Proof. unfold deg_to_rad; ring. Qed.

Example deg_to_rad_180 : deg_to_rad 180 = PI.
Proof. unfold deg_to_rad; field. Qed.

Example deg_to_rad_90 : deg_to_rad 90 = PI / 2.
Proof. unfold deg_to_rad; field. Qed.

Example rad_to_deg_pi : rad_to_deg PI = 180.
Proof. unfold rad_to_deg; field; apply PI_neq0. Qed.

Example validate_bounds_inside : validate_bounds 25 (1 / 100) 50 = true.
Proof. unfold validate_bounds, Rltb; decide_Rlt. Qed.

Example validate_bounds_on_the_edge : validate_bounds 50 0 50 = false.
Proof. unfold validate_bounds, Rltb; decide_Rlt. Qed.

Example validate_bounds_default_corner :
  validate_bounds (1 / 10) (- (49 / 1000)) (1 / 10) = true.
Proof. unfold validate_bounds, Rltb; decide_Rlt. Qed.

Example linspace_three : get_uniform_t_values 3 6 60 = Ok [6; 33; 60].
Proof.
  unfold get_uniform_t_values, np_linspace.
  change (Z.to_nat 3) with 3%nat; cbn.
  repeat f_equal; lra.
Qed.

Example linspace_none : get_uniform_t_values 0 6 60 = Ok [].
Proof. reflexivity. Qed.

Example linspace_negative :
  exists e, get_uniform_t_values (-1) 6 60 = Raise e.
Proof. eexists; reflexivity. Qed.

Example pylt_inf : pylt (Fin 3) Inf = true /\ pylt Inf Inf = false.
Proof. split; reflexivity. Qed.

Example pylt_nan : forall a, pylt NaN a = false /\ pylt a NaN = false.
Proof. intros [v| |]; split; reflexivity. Qed.

Example np_min_three : np_min [3; 1; 2] = Ok 1.
Proof.
  unfold np_min; cbn [fold_left]; f_equal.
  unfold Rmin; repeat destruct Rle_dec; lra.
Qed.

Example load_example_table :
  load_data example_read_csv "data/xy.csv"
  = Ok (mkDataFrame 10
          [("x"%string, map Num [60; 61; 62; 63; 64; 65; 66; 67; 68; 69]);
           ("y"%string, map Num [45; 46; 47; 48; 49; 50; 51; 52; 53; 54])]).
Proof. reflexivity. Qed.

Example load_short_table :
  load_data (fun _ => Ok (mkDataFrame 2 [("x"%string, [Num 1; Num 2]);
                                         ("y"%string, [Num 3; Missing])]))
            "two.csv"
  = Raise (ValueError "Insufficient data: 2 rows (minimum 10 required)").
Proof. reflexivity. Qed.

(** ** Element-wise operations *)

Lemma np_zip_map (f : R -> R -> R) (g h : R -> R) (t : array) :
  np_zip f (map g t) (map h t) = map (fun v => f (g v) (h v)) t.
Proof.
  unfold np_zip.
  induction t as [|v t IH]; simpl; [reflexivity|].
  now rewrite IH.
Qed.

Lemma combine_map_map {A B C : Type} (g : A -> B) (h : A -> C) (t : list A) :
  combine (map g t) (map h t) = map (fun v => (g v, h v)) t.
Proof.
  induction t as [|v t IH]; simpl; [reflexivity|].
  now rewrite IH.
Qed.

Lemma predict_map (t : array) (theta_deg M X : R) :
  predict t theta_deg M X
  = (map (curve_x theta_deg M X) t, map (curve_y theta_deg M X) t).
Proof.
  unfold predict, add_scalar, scalar_add, mul_scalar, scalar_mul,
    np_exp, np_sin, np_abs.
  rewrite !map_map, !np_zip_map, !map_map, !np_zip_map, !map_map.
  unfold curve_x, curve_y, deg_to_rad.
  replace (theta_deg * (PI / 180)) with (theta_deg * PI / 180)
    by (unfold Rdiv; ring).
  reflexivity.
Qed.

(** ** Reductions *)

Lemma fold_left_Rmin_le (ds : list R) (d : R) : fold_left Rmin ds d <= d.
Proof.
  revert d; induction ds as [|e ds IH]; intros d; simpl.
  - apply Rle_refl.
  - eapply Rle_trans; [apply IH | apply Rmin_l].
Qed.

Lemma fold_left_Rmin_is_minimum (ds : list R) (d : R) :
  is_minimum (fold_left Rmin ds d) (d :: ds).
Proof.
  revert d; induction ds as [|e ds IH]; intros d; simpl.
  - split; [now left | intros x [<-|[]]; apply Rle_refl].
  - destruct (IH (Rmin d e)) as [Hin Hle]; split.
    + destruct Hin as [Heq|Hin]; [|now right; right].
      rewrite <- Heq.
      unfold Rmin; destruct (Rle_dec d e); [now left | now right; left].
    + intros x [<-|[<-|Hx]].
      * eapply Rle_trans; [apply fold_left_Rmin_le | apply Rmin_l].
      * eapply Rle_trans; [apply fold_left_Rmin_le | apply Rmin_r].
      * apply Hle; now right.
Qed.

Lemma np_min_nonempty (a : array) :
  a <> [] -> exists m, np_min a = Ok m /\ is_minimum m a.
Proof.
  destruct a as [|d ds]; [congruence|]; intros _.
  exists (fold_left Rmin ds d); split; [reflexivity|].
  apply fold_left_Rmin_is_minimum.
Qed.

Lemma fold_left_Rplus (l : list R) (acc : R) :
  fold_left Rplus l acc = acc + sum_list l.
Proof.
  revert acc; induction l as [|v l IH]; intros acc; simpl.
  - ring.
  - rewrite IH; ring.
Qed.

Lemma np_mean_nonempty (a : array) :
  a <> [] -> np_mean a = Fin (arithmetic_mean a).
Proof.
  destruct a as [|v a]; [congruence|]; intros _.
  unfold np_mean, arithmetic_mean.
  rewrite fold_left_Rplus.
  do 2 f_equal; ring.
Qed.

(** ** The loss *)

(** The distances computed in one iteration of the loop are the Euclidean
    distances from the observed point to every sampled curve point. *)
Lemma dists_euclid (p : params) (t_samples : array) (o : R * R) :
  let '(theta_deg, M, X) := p in
  np_sqrt (np_zip Rplus
             (np_square (sub_scalar (map (curve_x theta_deg M X) t_samples) (fst o)))
             (np_square (sub_scalar (map (curve_y theta_deg M X) t_samples) (snd o))))
  = map (fun t => euclid o (curve_point p t)) t_samples.
Proof.
  destruct p as [[theta_deg M] X].
  unfold np_sqrt, np_square, sub_scalar.
  rewrite !map_map, np_zip_map, map_map.
  apply map_ext; intros t.
  unfold euclid, curve_point; simpl.
  f_equal; ring.
Qed.

Lemma min_distances_loop_ok (p : params) (t_samples : array) :
  t_samples <> [] ->
  forall (obs : list (R * R)) (acc : array),
  let '(theta_deg, M, X) := p in
  exists mins,
    Forall2 (fun o m =>
               is_minimum m (map (fun t => euclid o (curve_point p t)) t_samples))
            obs mins
    /\ min_distances_loop (map (curve_x theta_deg M X) t_samples)
                          (map (curve_y theta_deg M X) t_samples) acc obs
       = Ok (acc ++ mins).
Proof.
  intros Ht obs.
  destruct p as [[theta_deg M] X].
  induction obs as [|[x_o y_o] rest IH]; intros acc.
  - exists []; split; [constructor | now rewrite app_nil_r].
  - cbn [min_distances_loop].
    pose proof (dists_euclid (theta_deg, M, X) t_samples (x_o, y_o)) as Hd.
    cbn [fst snd] in Hd; rewrite Hd.
    destruct (np_min_nonempty
                (map (fun t => euclid (x_o, y_o) (curve_point (theta_deg, M, X) t))
                     t_samples)) as [m [Hm Hmin]].
    { destruct t_samples; [congruence | discriminate]. }
    rewrite Hm; cbn [rbind].
    destruct (IH (acc ++ [m])) as [mins [Hall Hloop]].
    exists (m :: mins); split; [now constructor|].
    rewrite Hloop, <- app_assoc; reflexivity.
Qed.

(** For non-empty samples and observations the loss is the mean of one
    minimum distance per observed point. *)
Lemma l1_loss_minima (p : params) (t_samples x_obs y_obs : array) :
  t_samples <> [] ->
  combine x_obs y_obs <> [] ->
  exists mins,
    Forall2 (fun o m =>
               is_minimum m (map (fun t => euclid o (curve_point p t)) t_samples))
            (combine x_obs y_obs) mins
    /\ l1_loss p t_samples x_obs y_obs = Ok (Fin (arithmetic_mean mins)).
Proof.
  intros Ht Hobs.
  pose proof (min_distances_loop_ok p t_samples Ht (combine x_obs y_obs) []) as H.
  destruct p as [[theta_deg M] X].
  destruct H as [mins [Hall Hloop]].
  exists mins; split; [exact Hall|].
  unfold l1_loss; rewrite predict_map, Hloop; simpl.
  rewrite np_mean_nonempty; [reflexivity|].
  intros ->; inversion Hall as [Hnil|]; congruence.
Qed.

Lemma euclid_nonneg (a b : R * R) : 0 <= euclid a b.
Proof. apply sqrt_pos. Qed.

Lemma euclid_same (a : R * R) : euclid a a = 0.
Proof.
  unfold euclid.
  replace ((fst a - fst a) ^ 2 + (snd a - snd a) ^ 2) with 0 by ring.
  apply sqrt_0.
Qed.

Lemma float64_max_ge (r : R) : r <= 256 -> r <= float64_max.
Proof.
  intros Hr; unfold float64_max.
  assert (H8 : 2 ^ 8 <= 2 ^ 1023) by (apply Rle_pow; [lra | lia]).
  assert (Hs : 0 < / 2 ^ 52 <= 1).
  { assert (H52 : 1 <= 2 ^ 52) by (apply pow_R1_Rle; lra).
    split; [apply Rinv_0_lt_compat; lra|].
    rewrite <- Rinv_1; apply Rinv_le_contravar; lra. }
  assert (H256 : 2 ^ 8 = 256) by (simpl; ring).
  nra.
Qed.

Lemma isfinite_small (r : R) : Rabs r <= 256 -> isfinite r.
Proof.
  intros H; unfold isfinite.
  apply float64_max_ge; exact H.
Qed.

Lemma exp_3_le_27 : exp 3 <= 27.
Proof.
  replace 3 with (1 + (1 + 1)) at 1 by ring.
  rewrite !exp_plus.
  pose proof exp_le_3 as H3.
  pose proof (exp_pos 1) as H0.
  nra.
Qed.

Lemma exp_term_bound (M t : R) :
  - (5 / 100) < M < 5 / 100 -> 6 <= t <= 60 -> 0 < exp (M * Rabs t) <= 27.
Proof.
  intros HM Ht; split; [apply exp_pos|].
  rewrite Rabs_pos_eq by lra.
  apply Rle_trans with (exp 3); [|apply exp_3_le_27].
  destruct (Rle_lt_or_eq_dec (M * t) 3) as [Hlt|Heq]; [nra | |].
  - left; now apply exp_increasing.
  - rewrite Heq; apply Rle_refl.
Qed.


(** The grid of a fit lies in [6, 60], the range asked of [t] below. *)
Lemma uniform_t_values_range (n : Z) (ts : array) :
  get_uniform_t_values n 6 60 = Ok ts -> Forall (fun v => 6 <= v <= 60) ts.
Proof.
  unfold get_uniform_t_values, np_linspace.
  destruct (n <? 0)%Z; [discriminate|].
  intros H; injection H as <-.
  apply Forall_map, Forall_forall; intros i Hi.
  apply in_seq in Hi.
  destruct (i =? 0)%nat eqn:H0; [lra|].
  destruct (i =? Z.to_nat n - 1)%nat eqn:Hlast; [lra|].
  apply Nat.eqb_neq in H0, Hlast.
  assert (Hi1 : (1 <= i)%nat) by lia.
  assert (Hi2 : (i + 1 <= Z.to_nat n - 1)%nat) by lia.
  apply le_INR in Hi1, Hi2.
  rewrite plus_INR in Hi2; simpl in Hi1, Hi2.
  set (k := INR i) in *; set (m := INR (Z.to_nat n - 1)) in *.
  assert (Hm : 0 < m) by lra.
  assert (Hq : 0 <= k * / m <= 1).
  { split.
    - apply Rmult_le_pos; [lra | left; now apply Rinv_0_lt_compat].
    - apply Rmult_le_reg_r with m; [exact Hm|].
      rewrite Rmult_assoc, Rinv_l by lra; lra. }
  replace (6 + k * ((60 - 6) / m)) with (6 + 54 * (k * / m))
    by (unfold Rdiv; ring).
  lra.
Qed.

(** ** Within the range of binary64 *)

Lemma pow2_le (n m : nat) : (n <= m)%nat -> 2 ^ n <= 2 ^ m.
Proof. intros H; apply Rle_pow; [lra | exact H]. Qed.

Lemma overflow_threshold_ge : 2 ^ 1023 <= Float64.overflow_threshold.
Proof.
  unfold Float64.overflow_threshold.
  change (2 ^ 1024) with (2 * 2 ^ 1023).
  pose proof (pow2_le 970 1023 ltac:(lia)); lra.
Qed.

Lemma Rabs_bound (x b : R) : Rabs x <= b -> - b <= x <= b.
Proof. unfold Rabs; destruct (Rcase_abs x); lra. Qed.

Lemma overflow_threshold_pos : 0 < Float64.overflow_threshold.
Proof.
  pose proof overflow_threshold_ge.
  assert (0 < 2 ^ 1023) by (apply pow_lt; lra); lra.
Qed.

Lemma float64_max_lt_threshold : float64_max < Float64.overflow_threshold.
Proof.
  unfold float64_max, Float64.overflow_threshold.
  assert (H1 : 2 ^ 1023 = 2 ^ 52 * 2 ^ 971) by (rewrite <- pow_add; reflexivity).
  assert (H2 : 2 ^ 971 = 2 * 2 ^ 970) by reflexivity.
  assert (H3 : 2 ^ 1024 = 2 * 2 ^ 1023) by reflexivity.
  assert (H52 : 0 < 2 ^ 52) by (apply pow_lt; lra).
  assert (H970 : 0 < 2 ^ 970) by (apply pow_lt; lra).
  assert (H4 : / 2 ^ 52 * 2 ^ 1023 = 2 ^ 971).
  { rewrite H1, <- Rmult_assoc, Rinv_l by lra; ring. }
  replace ((2 - / 2 ^ 52) * 2 ^ 1023) with (2 * 2 ^ 1023 - / 2 ^ 52 * 2 ^ 1023)
    by ring.
  rewrite H4, H3, H2; lra.
Qed.

Lemma round_in_range (r : R) :
  Rabs r < Float64.overflow_threshold -> Float64.round r = Float64.fin r.
Proof.
  intros Hr; unfold Float64.round.
  assert (H : - Float64.overflow_threshold < r < Float64.overflow_threshold).
  { revert Hr; unfold Rabs; destruct (Rcase_abs r); lra. }
  destruct (Rle_dec Float64.overflow_threshold r); [lra|].
  destruct (Rle_dec r (- Float64.overflow_threshold)); [lra | reflexivity].
Qed.

Lemma round_overflow (r : R) :
  Float64.overflow_threshold <= r -> Float64.round r = Float64.pinf.
Proof.
  intros Hr; unfold Float64.round.
  destruct (Rle_dec Float64.overflow_threshold r); [reflexivity | contradiction].
Qed.

Lemma round_0 : Float64.round 0 = Float64.fin 0.
Proof. apply round_in_range; rewrite Rabs_R0; apply overflow_threshold_pos. Qed.

Lemma round_fin (r : R) : Rabs r <= 2 ^ 1000 -> Float64.round r = Float64.fin r.
Proof.
  intros Hr; apply round_in_range.
  pose proof overflow_threshold_ge as HT.
  assert (Hlt : 2 ^ 1000 < 2 ^ 1023) by (apply Rlt_pow; [lra | lia]).
  lra.
Qed.

Example float_overflow : Float64.round (2 ^ 1024) = Float64.pinf.
Proof.
  apply round_overflow; unfold Float64.overflow_threshold.
  assert (0 < 2 ^ 970) by (apply pow_lt; lra); lra.
Qed.

Example float_inf_times_zero :
  Float64.fmul Float64.pinf (Float64.fin 0) = Float64.nan.
Proof.
  cbn [Float64.fmul]; unfold Float64.inf_times.
  destruct (Rlt_dec 0 0); [lra | reflexivity].
Qed.

Example float_inf_minus_inf :
  Float64.fsub Float64.pinf Float64.pinf = Float64.nan.
Proof. reflexivity. Qed.

Example float_min_nan :
  Float64.np_min [Float64.fin 0; Float64.nan] = Ok Float64.nan.
Proof. reflexivity. Qed.

Lemma exp_nat_le (n : nat) : exp (INR n) <= (2 ^ 2) ^ n.
Proof.
  induction n as [|n IH].
  - simpl; rewrite exp_0; lra.
  - rewrite S_INR, exp_plus.
    change ((2 ^ 2) ^ S n) with (2 ^ 2 * (2 ^ 2) ^ n).
    pose proof exp_le_3 as H3.
    pose proof (exp_pos 1) as H1.
    pose proof (exp_pos (INR n)) as Hn.
    assert (H4 : 2 ^ 2 = 4) by (simpl; ring).
    rewrite H4 in *; nra.
Qed.

Lemma exp_200 : exp 200 <= 2 ^ 400.
Proof.
  replace 200 with (INR 200) by (rewrite INR_IZR_INZ; reflexivity).
  rewrite (pow_mult 2 2 200) at 1 || idtac.
  apply Rle_trans with ((2 ^ 2) ^ 200); [apply exp_nat_le|].
  rewrite <- pow_mult; apply Rle_refl.
Qed.

Lemma exp_nat_ge (n : nat) : 2 ^ n <= exp (INR n).
Proof.
  induction n as [|n IH].
  - simpl; rewrite exp_0; lra.
  - rewrite S_INR, exp_plus.
    change (2 ^ S n) with (2 * 2 ^ n).
    pose proof (exp_ineq1 1 ltac:(lra)) as H1.
    assert (Hp : 0 < 2 ^ n) by (apply pow_lt; lra).
    nra.
Qed.

Lemma exp_2000 : Float64.overflow_threshold <= exp 2000.
Proof.
  replace 2000 with (INR 2000) by (rewrite INR_IZR_INZ; reflexivity).
  apply Rle_trans with (2 ^ 2000); [|apply exp_nat_ge].
  apply Rle_trans with (2 ^ 1024); [|apply pow2_le; lia].
  unfold Float64.overflow_threshold.
  assert (0 < 2 ^ 970) by (apply pow_lt; lra); lra.
Qed.

Lemma float_np_zip_map {A : Type} (f : Float64.float -> Float64.float -> Float64.float)
    (g h : A -> Float64.float) (t : list A) :
  Float64.np_zip f (map g t) (map h t) = map (fun v => f (g v) (h v)) t.
Proof.
  unfold Float64.np_zip; induction t as [|a t IH]; cbn [map combine fst snd];
    [reflexivity | now rewrite IH].
Qed.

Lemma fmul_in_range (x y : R) :
  Rabs (x * y) < Float64.overflow_threshold ->
  Float64.fmul (Float64.fin x) (Float64.fin y) = Float64.fin (x * y).
Proof. intros H; cbn [Float64.fmul]; now apply round_in_range. Qed.

Lemma fmul_fin (x y : R) :
  Rabs (x * y) <= 2 ^ 1000 ->
  Float64.fmul (Float64.fin x) (Float64.fin y) = Float64.fin (x * y).
Proof. intros H; cbn [Float64.fmul]; now apply round_fin. Qed.

Lemma fadd_fin (x y : R) :
  Rabs (x + y) <= 2 ^ 1000 ->
  Float64.fadd (Float64.fin x) (Float64.fin y) = Float64.fin (x + y).
Proof. intros H; cbn [Float64.fadd]; now apply round_fin. Qed.

Lemma fsub_fin (x y : R) :
  Rabs (x - y) <= 2 ^ 1000 ->
  Float64.fsub (Float64.fin x) (Float64.fin y) = Float64.fin (x - y).
Proof.
  intros H; unfold Float64.fsub; cbn [Float64.fopp Float64.fadd].
  now apply round_fin.
Qed.

Lemma fexp_fin (x : R) :
  exp x <= 2 ^ 1000 -> Float64.fexp (Float64.fin x) = Float64.fin (exp x).
Proof.
  intros H; cbn [Float64.fexp]; apply round_fin.
  rewrite Rabs_pos_eq; [exact H | left; apply exp_pos].
Qed.

Lemma pow2_400_facts :
  256 <= 2 ^ 400 /\ 4 * 2 ^ 400 <= 2 ^ 1000
  /\ 32 * (2 ^ 400 * 2 ^ 400) + 1 <= 2 ^ 806
  /\ 2 ^ 64 * 2 ^ 806 <= 2 ^ 1000.
Proof.
  assert (H6 : 2 ^ 8 = 256) by (simpl; ring).
  assert (H2 : 2 ^ 2 = 4) by (simpl; ring).
  assert (H5 : 2 ^ 5 = 32) by (simpl; ring).
  pose proof (pow2_le 8 400 ltac:(lia)) as Ha.
  pose proof (pow2_le 402 1000 ltac:(lia)) as Hb.
  change (2 ^ 402) with (2 * (2 * 2 ^ 400)) in Hb.
  pose proof (pow2_le 0 805 ltac:(lia)) as Hc.
  change (2 ^ 0) with 1 in Hc.
  assert (Hd : 32 * (2 ^ 400 * 2 ^ 400) = 2 ^ 805).
  { rewrite <- H5, <- !pow_add; reflexivity. }
  assert (He : 2 ^ 806 = 2 * 2 ^ 805) by reflexivity.
  assert (Hf : 2 ^ 64 * 2 ^ 806 = 2 ^ 870) by (rewrite <- pow_add; reflexivity).
  pose proof (pow2_le 870 1000 ltac:(lia)) as Hg.
  repeat split; lra.
Qed.

Lemma float_predict_map (t : Float64.farray) (theta_deg M X : Float64.float) :
  Float64.predict t theta_deg M X
  = (map (Float64.curve_x theta_deg M X) t, map (Float64.curve_y theta_deg M X) t).
Proof.
  unfold Float64.predict; cbv zeta.
  unfold Float64.add_scalar, Float64.mul_scalar, Float64.scalar_add,
    Float64.scalar_mul, Float64.np_exp, Float64.np_sin, Float64.np_abs.
  rewrite !map_map, !float_np_zip_map, !map_map, !float_np_zip_map, !map_map.
  reflexivity.
Qed.

(** One curve point, computed without overflow. *)
Lemma curve_point_within_range (theta_deg M X t : R) :
  isfinite theta_deg -> Rabs X <= 2 ^ 400 ->
  Rabs t <= 2 ^ 400 -> Rabs (M * Rabs t) <= 200 ->
  Float64.curve_x (Float64.fin theta_deg) (Float64.fin M) (Float64.fin X)
                  (Float64.fin t)
  = Float64.fin (curve_x theta_deg M X t)
  /\ Float64.curve_y (Float64.fin theta_deg) (Float64.fin M) (Float64.fin X)
                     (Float64.fin t)
     = Float64.fin (curve_y theta_deg M X t)
  /\ Rabs (curve_x theta_deg M X t) <= 3 * 2 ^ 400
  /\ Rabs (curve_y theta_deg M X t) <= 3 * 2 ^ 400.
Proof.
  unfold isfinite; intros Hth HX Ht Hm.
  destruct pow2_400_facts as (H42 & H3B & _).
  pose proof float64_max_lt_threshold as Hmax.
  apply Rabs_bound in Hth, HX, Ht.
  assert (Hrad : theta_deg * (PI / 180) = theta_deg * PI / 180)
    by (unfold Rdiv; ring).
  unfold curve_x, curve_y; cbv zeta; rewrite <- Hrad.
  pose proof (COS_bound (theta_deg * (PI / 180))) as Hc.
  pose proof (SIN_bound (theta_deg * (PI / 180))) as Hs.
  pose proof (SIN_bound (3 / 10 * t)) as Hw.
  assert (He : 0 < exp (M * Rabs t) <= 2 ^ 400).
  { split; [apply exp_pos|].
    apply Rle_trans with (exp 200); [|apply exp_200].
    apply Rabs_bound in Hm.
    destruct (Rle_lt_or_eq_dec (M * Rabs t) 200) as [Hlt|Heq]; [lra | |].
    - left; now apply exp_increasing.
    - rewrite Heq; apply Rle_refl. }
  assert (Hpi : 0 < PI / 180 <= 1).
  { pose proof PI_RGT_0; pose proof PI_4; lra. }
  unfold Float64.curve_x, Float64.curve_y, Float64.deg_to_rad; cbn [Float64.fabs].
  set (B := 2 ^ 400) in *.
  assert (HB : 0 <= B) by lra.
  rewrite (fmul_in_range theta_deg) by (apply Rabs_def1; nra).
  rewrite (fmul_fin M) by (apply Rabs_bound in Hm; apply Rabs_le; lra).
  rewrite (fmul_fin (3 / 10)) by (apply Rabs_le; lra).
  cbn [Float64.fcos Float64.fsin Float64.fabs].
  rewrite fexp_fin by lra.
  set (c := cos (theta_deg * (PI / 180))) in *.
  set (s := sin (theta_deg * (PI / 180))) in *.
  set (e := exp (M * Rabs t)) in *.
  set (w := sin (3 / 10 * t)) in *.
  assert (Hew : - B <= e * w <= B) by nra.
  assert (Hews : - B <= e * w * s <= B) by nra.
  assert (Hewc : - B <= e * w * c <= B) by nra.
  assert (Htc : - B <= t * c <= B) by nra.
  assert (Hts : - B <= t * s <= B) by nra.
  rewrite (fmul_fin t c), (fmul_fin t s), (fmul_fin e w), (fmul_fin (e * w) s),
    (fmul_fin (e * w) c) by (apply Rabs_le; lra).
  rewrite fsub_fin, (fadd_fin 42) by (apply Rabs_le; lra).
  rewrite !fadd_fin by (apply Rabs_le; lra).
  repeat split; try reflexivity; apply Rabs_le; lra.
Qed.

Lemma predict_within_range (t : array) (theta_deg M X : R) :
  isfinite theta_deg -> Rabs X <= 2 ^ 400 ->
  Forall (fun t => Rabs t <= 2 ^ 400 /\ Rabs (M * Rabs t) <= 200) t ->
  Float64.predict (finite_array t)
    (Float64.fin theta_deg) (Float64.fin M) (Float64.fin X)
  = (finite_array (map (curve_x theta_deg M X) t),
     finite_array (map (curve_y theta_deg M X) t)).
Proof.
  intros Hth HX Ht.
  rewrite float_predict_map; unfold finite_array; rewrite !map_map.
  rewrite Forall_forall in Ht.
  apply f_equal2; apply map_ext_in; intros v Hv; destruct (Ht v Hv) as [Hv1 Hv2];
    now destruct (curve_point_within_range theta_deg M X v Hth HX Hv1 Hv2)
      as (Hx & Hy & _).
Qed.

Lemma sqrt_le_succ (v : R) : 0 <= v -> sqrt v <= v + 1.
Proof.
  intros Hv.
  destruct (Rle_lt_dec v 1) as [H1|H1].
  - apply Rle_trans with (sqrt 1); [now apply sqrt_le_1_alt|].
    rewrite sqrt_1; lra.
  - pose proof (sqrt_less v Hv H1); lra.
Qed.

(** One distance, computed without overflow. *)
Lemma distance_within_range (x y xo yo : R) :
  Rabs x <= 3 * 2 ^ 400 -> Rabs y <= 3 * 2 ^ 400 ->
  Rabs xo <= 2 ^ 400 -> Rabs yo <= 2 ^ 400 ->
  let d := sqrt ((x - xo) * (x - xo) + (y - yo) * (y - yo)) in
  Float64.fsqrt
    (Float64.fadd
       (Float64.fmul (Float64.fsub (Float64.fin x) (Float64.fin xo))
                     (Float64.fsub (Float64.fin x) (Float64.fin xo)))
       (Float64.fmul (Float64.fsub (Float64.fin y) (Float64.fin yo))
                     (Float64.fsub (Float64.fin y) (Float64.fin yo))))
  = Float64.fin d
  /\ 0 <= d <= 2 ^ 806.
Proof.
  intros Hx Hy Hxo Hyo; cbv zeta.
  destruct pow2_400_facts as (H256 & H3B & HD & _).
  apply Rabs_bound in Hx, Hy, Hxo, Hyo.
  assert (H1000 : 2 ^ 806 <= 2 ^ 1000) by (apply pow2_le; lia).
  set (B := 2 ^ 400) in *.
  assert (Hdx : - (4 * B) <= x - xo <= 4 * B) by lra.
  assert (Hdy : - (4 * B) <= y - yo <= 4 * B) by lra.
  set (dx := x - xo) in *; set (dy := y - yo) in *.
  assert (Hsx : 0 <= dx * dx <= 16 * (B * B)) by nra.
  assert (Hsy : 0 <= dy * dy <= 16 * (B * B)) by nra.
  rewrite !fsub_fin by (apply Rabs_le; fold dx dy; lra).
  fold dx dy.
  rewrite !fmul_fin by (apply Rabs_le; lra).
  rewrite fadd_fin by (apply Rabs_le; lra).
  cbn [Float64.fsqrt].
  destruct (Rlt_dec (dx * dx + dy * dy) 0) as [Hneg|_]; [lra|].
  split; [reflexivity|].
  split; [apply sqrt_pos|].
  pose proof (sqrt_le_succ (dx * dx + dy * dy) ltac:(lra)); lra.
Qed.

Lemma dists_within_range (xs : array) (xo yo : R) :
  Rabs xo <= 2 ^ 400 -> Rabs yo <= 2 ^ 400 ->
  forall ys : array,
  Forall (fun v => Rabs v <= 3 * 2 ^ 400) xs ->
  Forall (fun v => Rabs v <= 3 * 2 ^ 400) ys ->
  Float64.np_sqrt
    (Float64.np_zip Float64.fadd
       (Float64.np_square (Float64.sub_scalar (finite_array xs) (Float64.fin xo)))
       (Float64.np_square (Float64.sub_scalar (finite_array ys) (Float64.fin yo))))
  = finite_array
      (np_sqrt (np_zip Rplus (np_square (sub_scalar xs xo))
                             (np_square (sub_scalar ys yo))))
  /\ Forall (fun d => 0 <= d <= 2 ^ 806)
       (np_sqrt (np_zip Rplus (np_square (sub_scalar xs xo))
                              (np_square (sub_scalar ys yo)))).
Proof.
  intros Hxo Hyo.
  unfold Float64.np_sqrt, Float64.np_zip, Float64.np_square, Float64.sub_scalar,
    finite_array, np_sqrt, np_zip, np_square, sub_scalar.
  induction xs as [|x xs IH]; intros ys Hxs Hys; [split; [reflexivity | constructor]|].
  destruct ys as [|y ys]; [split; [reflexivity | constructor]|].
  inversion Hxs as [|? ? Hx Hxs']; inversion Hys as [|? ? Hy Hys']; subst.
  destruct (IH ys Hxs' Hys') as [IH1 IH2].
  destruct (distance_within_range x y xo yo Hx Hy Hxo Hyo) as [Hd Hb].
  cbn [map combine fst snd]; split.
  - f_equal; [exact Hd | exact IH1].
  - constructor; [exact Hb | exact IH2].
Qed.

Lemma fold_fmin_fin (ds : array) :
  forall d, fold_left Float64.fmin (finite_array ds) (Float64.fin d)
            = Float64.fin (fold_left Rmin ds d).
Proof.
  induction ds as [|v ds IH]; intros d; [reflexivity|].
  cbn [finite_array map fold_left Float64.fmin]; apply IH.
Qed.

Lemma np_min_finite (a : array) :
  Float64.np_min (finite_array a)
  = match np_min a with
    | Ok m => Ok (Float64.fin m)
    | Raise e => Raise e
    end.
Proof.
  destruct a as [|d ds]; [reflexivity|].
  cbn [finite_array map Float64.np_min np_min]; f_equal; apply fold_fmin_fin.
Qed.

Lemma np_min_In (a : array) (m : R) : np_min a = Ok m -> In m a.
Proof.
  intros H.
  destruct (np_min_nonempty a) as [m' [Hm' [Hin _]]].
  - intros ->; discriminate.
  - rewrite H in Hm'; now injection Hm' as <-.
Qed.

(** The loop, computed without overflow: the same minima as over the
    reals, each between 0 and 2^806. *)
Lemma min_distances_loop_within_range (xs ys : array) :
  Forall (fun v => Rabs v <= 3 * 2 ^ 400) xs ->
  Forall (fun v => Rabs v <= 3 * 2 ^ 400) ys ->
  forall (obs : list (R * R)) (acc : array),
  Forall (fun o => Rabs (fst o) <= 2 ^ 400 /\ Rabs (snd o) <= 2 ^ 400) obs ->
  Forall (fun d => 0 <= d <= 2 ^ 806) acc ->
  Float64.min_distances_loop (finite_array xs) (finite_array ys) (finite_array acc)
    (map (fun o => (Float64.fin (fst o), Float64.fin (snd o))) obs)
  = match min_distances_loop xs ys acc obs with
    | Ok r => Ok (finite_array r)
    | Raise e => Raise e
    end
  /\ forall r, min_distances_loop xs ys acc obs = Ok r ->
       Forall (fun d => 0 <= d <= 2 ^ 806) r
       /\ length r = (length acc + length obs)%nat.
Proof.
  intros Hxs Hys obs; induction obs as [|[xo yo] obs IH]; intros acc Hobs Hacc.
  - cbn [map Float64.min_distances_loop min_distances_loop]; split; [reflexivity|].
    intros r H; injection H as <-; split; [exact Hacc | cbn; lia].
  - inversion Hobs as [|? ? [Hxo Hyo] Hobs']; subst; cbn [fst snd] in *.
    cbn [map Float64.min_distances_loop min_distances_loop fst snd].
    destruct (dists_within_range xs xo yo Hxo Hyo ys Hxs Hys) as [Hd Hb].
    rewrite Hd, np_min_finite.
    destruct (np_min _) as [m|e] eqn:Hm; cbn [rbind];
      [|split; [reflexivity | discriminate]].
    assert (Hacc' : Forall (fun d => 0 <= d <= 2 ^ 806) (acc ++ [m])).
    { apply Forall_app; split; [exact Hacc|].
      constructor; [|constructor].
      rewrite Forall_forall in Hb; apply Hb, np_min_In, Hm. }
    destruct (IH (acc ++ [m]) Hobs' Hacc') as [IH1 IH2].
    split.
    + rewrite <- IH1; unfold finite_array; rewrite map_app; reflexivity.
    + intros r Hr; destruct (IH2 r Hr) as [Hall Hlen]; split; [exact Hall|].
      rewrite Hlen, length_app; cbn [length]; lia.
Qed.

Lemma fold_fadd_within_range (a : array) :
  forall acc,
  0 <= acc ->
  Forall (fun d => 0 <= d <= 2 ^ 806) a ->
  acc + INR (length a) * 2 ^ 806 <= 2 ^ 1000 ->
  fold_left Float64.fadd (finite_array a) (Float64.fin acc)
  = Float64.fin (fold_left Rplus a acc)
  /\ 0 <= fold_left Rplus a acc <= 2 ^ 1000.
Proof.
  induction a as [|d a IH]; intros acc Hacc Ha Hsum.
  - cbn [length INR] in Hsum; cbn [finite_array map fold_left].
    split; [reflexivity | lra].
  - inversion Ha as [|? ? Hd Ha']; subst.
    rewrite length_cons, S_INR in Hsum.
    pose proof (pos_INR (length a)) as Hn.
    assert (HD : 0 < 2 ^ 806) by (apply pow_lt; lra).
    cbn [finite_array map fold_left].
    rewrite fadd_fin by (apply Rabs_le; nra).
    apply IH; [lra | exact Ha' | nra].
Qed.

Lemma np_mean_within_range (a : array) :
  Forall (fun d => 0 <= d <= 2 ^ 806) a ->
  INR (length a) <= 2 ^ 64 ->
  Float64.np_mean (finite_array a) = float_of_pyfloat (np_mean a).
Proof.
  intros Ha Hn.
  destruct a as [|d a]; [reflexivity|].
  destruct pow2_400_facts as (_ & _ & _ & HK).
  assert (HD : 0 < 2 ^ 806) by (apply pow_lt; lra).
  destruct (fold_fadd_within_range (d :: a) 0 ltac:(lra) Ha ltac:(nra)) as [Hs Hb].
  unfold Float64.np_mean, np_mean; cbn [finite_array map] in *.
  rewrite Hs; cbn [float_of_pyfloat length].
  rewrite length_map.
  change (S (length a)) with (length (d :: a)).
  apply round_fin.
  assert (H1 : 1 <= INR (length (d :: a))).
  { rewrite length_cons, S_INR; pose proof (pos_INR (length a)); lra. }
  set (s := fold_left Rplus (d :: a) 0) in *.
  set (n := INR (length (d :: a))) in *.
  assert (Hinv : 0 < / n <= 1).
  { split; [apply Rinv_0_lt_compat; lra|].
    rewrite <- Rinv_1; apply Rinv_le_contravar; lra. }
  unfold Rdiv; apply Rabs_le; nra.
Qed.

Lemma combine_finite (x y : array) :
  combine (finite_array x) (finite_array y)
  = map (fun o => (Float64.fin (fst o), Float64.fin (snd o))) (combine x y).
Proof.
  unfold finite_array; revert y.
  induction x as [|a x IH]; intros [|b y]; cbn [map combine fst snd];
    try reflexivity.
  now rewrite IH.
Qed.

Lemma Forall_combine_bound (B : R) (x : array) :
  forall y : array,
  Forall (fun v => Rabs v <= B) x -> Forall (fun v => Rabs v <= B) y ->
  Forall (fun o => Rabs (fst o) <= B /\ Rabs (snd o) <= B) (combine x y).
Proof.
  induction x as [|a x IH]; intros [|b y] Hx Hy; cbn [combine]; try constructor.
  - inversion Hx; inversion Hy; subst; cbn [fst snd]; split; assumption.
  - inversion Hx; inversion Hy; subst; now apply IH.
Qed.

(** On inputs within range the loss with overflow is the loss over the
    reals. *)
Lemma l1_loss_within_range (p : params) (t_samples x_obs y_obs : array) :
  within_range p t_samples x_obs y_obs ->
  Float64.l1_loss (finite_params p) (finite_array t_samples)
    (finite_array x_obs) (finite_array y_obs)
  = match l1_loss p t_samples x_obs y_obs with
    | Ok v => Ok (float_of_pyfloat v)
    | Raise e => Raise e
    end.
Proof.
  destruct p as [[theta_deg M] X].
  intros (Hth & HX & Ht & Hxo & Hyo & Hn).
  unfold Float64.l1_loss, l1_loss, finite_params.
  rewrite predict_within_range, predict_map by assumption.
  rewrite combine_finite.
  assert (Hxs : Forall (fun v => Rabs v <= 3 * 2 ^ 400)
                       (map (curve_x theta_deg M X) t_samples)
                /\ Forall (fun v => Rabs v <= 3 * 2 ^ 400)
                          (map (curve_y theta_deg M X) t_samples)).
  { split; apply Forall_map; (eapply Forall_impl; [|exact Ht]);
      intros t [Ht1 Ht2];
      now destruct (curve_point_within_range theta_deg M X t Hth HX Ht1 Ht2)
        as (_ & _ & Hbx & Hby). }
  destruct Hxs as [Hxs Hys].
  destruct (min_distances_loop_within_range _ _ Hxs Hys (combine x_obs y_obs) []
              (Forall_combine_bound _ _ _ Hxo Hyo) (Forall_nil _)) as [Hloop Hb].
  change (@nil Float64.float) with (finite_array []).
  rewrite Hloop.
  destruct (min_distances_loop _ _ [] (combine x_obs y_obs)) as [r|e];
    cbn [rbind]; [|reflexivity].
  destruct (Hb r eq_refl) as [Hall Hlen].
  f_equal; apply np_mean_within_range; [exact Hall|].
  now rewrite Hlen.
Qed.

(** ** Floats that are no NaN and not negative *)

Lemma round_not_nan (r : R) : Float64.round r <> Float64.nan.
Proof.
  unfold Float64.round.
  destruct (Rle_dec _ _); [discriminate|].
  destruct (Rle_dec _ _); discriminate.
Qed.

Lemma round_nonneg (r : R) : 0 <= r -> Float64.nonneg (Float64.round r).
Proof.
  intros Hr; unfold Float64.round.
  pose proof overflow_threshold_pos.
  destruct (Rle_dec _ _); [exact I|].
  destruct (Rle_dec _ _); [lra | exact Hr].
Qed.

Lemma fadd_fin_not_nan (a : Float64.float) (c : R) :
  a <> Float64.nan -> Float64.fadd a (Float64.fin c) <> Float64.nan.
Proof.
  destruct a; cbn [Float64.fadd]; intros H; try discriminate;
    [apply round_not_nan | contradiction].
Qed.

Lemma fsub_fin_not_nan (a : Float64.float) (c : R) :
  a <> Float64.nan -> Float64.fsub a (Float64.fin c) <> Float64.nan.
Proof. intros H; unfold Float64.fsub; cbn [Float64.fopp]; now apply fadd_fin_not_nan. Qed.

Lemma fmul_self_nonneg (a : Float64.float) :
  a <> Float64.nan -> Float64.nonneg (Float64.fmul a a).
Proof.
  destruct a; cbn [Float64.fmul]; intros H; try exact I; [|contradiction].
  apply round_nonneg; nra.
Qed.

Lemma fadd_nonneg (a b : Float64.float) :
  Float64.nonneg a -> Float64.nonneg b -> Float64.nonneg (Float64.fadd a b).
Proof.
  destruct a, b; cbn [Float64.nonneg Float64.fadd]; intros Ha Hb; try contradiction;
    try exact I.
  apply round_nonneg; lra.
Qed.

Lemma fsqrt_nonneg (a : Float64.float) :
  Float64.nonneg a -> Float64.nonneg (Float64.fsqrt a).
Proof.
  destruct a; cbn [Float64.nonneg Float64.fsqrt]; intros Ha; try contradiction;
    try exact I.
  destruct (Rlt_dec r 0); [lra | apply sqrt_pos].
Qed.

Lemma fmin_nonneg (a b : Float64.float) :
  Float64.nonneg a -> Float64.nonneg b -> Float64.nonneg (Float64.fmin a b).
Proof.
  destruct a, b; cbn [Float64.nonneg Float64.fmin]; intros Ha Hb; try contradiction;
    try exact I; try assumption.
  unfold Rmin; destruct (Rle_dec r r0); assumption.
Qed.

Lemma fmin_zero_l (b : Float64.float) :
  Float64.nonneg b -> Float64.fmin (Float64.fin 0) b = Float64.fin 0.
Proof.
  destruct b; cbn [Float64.nonneg Float64.fmin]; intros Hb; try contradiction;
    try reflexivity.
  f_equal; unfold Rmin; destruct (Rle_dec 0 r); lra.
Qed.

Lemma fmin_zero_r (a : Float64.float) :
  Float64.nonneg a -> Float64.fmin a (Float64.fin 0) = Float64.fin 0.
Proof.
  destruct a; cbn [Float64.nonneg Float64.fmin]; intros Ha; try contradiction;
    try reflexivity.
  f_equal; unfold Rmin; destruct (Rle_dec r 0); lra.
Qed.

Lemma fold_fmin_nonneg (ds : Float64.farray) :
  forall d, Float64.nonneg d -> Forall Float64.nonneg ds ->
  Float64.nonneg (fold_left Float64.fmin ds d).
Proof.
  induction ds as [|v ds IH]; intros d Hd Hds; [exact Hd|].
  inversion Hds; subst; cbn [fold_left]; apply IH; [now apply fmin_nonneg | assumption].
Qed.

Lemma fold_fmin_zero (ds : Float64.farray) :
  forall d, Float64.nonneg d -> Forall Float64.nonneg ds ->
  d = Float64.fin 0 \/ In (Float64.fin 0) ds ->
  fold_left Float64.fmin ds d = Float64.fin 0.
Proof.
  induction ds as [|v ds IH]; intros d Hd Hds Hz.
  - destruct Hz as [Hz|[]]; exact Hz.
  - inversion Hds as [|? ? Hv Hds']; subst; cbn [fold_left].
    apply IH; [now apply fmin_nonneg | exact Hds'|].
    destruct Hz as [->|[Hv0|Hin]].
    + left; now apply fmin_zero_l.
    + subst v; left; now apply fmin_zero_r.
    + now right.
Qed.

Lemma fold_fadd_nonneg (a : Float64.farray) :
  forall acc, Float64.nonneg acc -> Forall Float64.nonneg a ->
  Float64.nonneg (fold_left Float64.fadd a acc).
Proof.
  induction a as [|d a IH]; intros acc Hacc Ha; [exact Hacc|].
  inversion Ha; subst; cbn [fold_left]; apply IH; [now apply fadd_nonneg | assumption].
Qed.

Lemma np_mean_nonneg (a : Float64.farray) :
  a <> [] -> Forall Float64.nonneg a -> Float64.nonneg (Float64.np_mean a).
Proof.
  intros Hne Ha.
  pose proof (fold_fadd_nonneg a (Float64.fin 0) (Rle_refl 0) Ha) as Hs.
  destruct a as [|d a]; [congruence|].
  unfold Float64.np_mean.
  destruct (fold_left Float64.fadd (d :: a) (Float64.fin 0)) as [s| | |];
    cbn [Float64.nonneg] in Hs; try contradiction; [|exact I].
  apply round_nonneg.
  apply Rmult_le_pos; [exact Hs|].
  left; apply Rinv_0_lt_compat, lt_0_INR; cbn [length]; lia.
Qed.

Lemma fold_fadd_zero (a : Float64.farray) :
  Forall (fun d => d = Float64.fin 0) a ->
  fold_left Float64.fadd a (Float64.fin 0) = Float64.fin 0.
Proof.
  induction 1 as [|d a -> _ IH]; [reflexivity|].
  cbn [fold_left Float64.fadd].
  rewrite Rplus_0_l, round_in_range; [exact IH|].
  rewrite Rabs_R0; apply overflow_threshold_pos.
Qed.

Lemma np_mean_zero (a : Float64.farray) :
  a <> [] -> Forall (fun d => d = Float64.fin 0) a ->
  Float64.np_mean a = Float64.fin 0.
Proof.
  intros Hne Ha.
  destruct a as [|d a]; [congruence|].
  unfold Float64.np_mean; rewrite (fold_fadd_zero _ Ha).
  unfold Rdiv; rewrite Rmult_0_l.
  apply round_in_range; rewrite Rabs_R0; apply overflow_threshold_pos.
Qed.

(** The exponential of a sample, when it does not overflow. *)
Lemma fexp_in_range (M t : R) :
  exp (M * Rabs t) < Float64.overflow_threshold ->
  exists e,
    Float64.fexp (Float64.fmul (Float64.fin M) (Float64.fin (Rabs t)))
    = Float64.fin e
    /\ 0 <= e < Float64.overflow_threshold.
Proof.
  intros He.
  pose proof overflow_threshold_pos as HT.
  cbn [Float64.fmul]; unfold Float64.round.
  destruct (Rle_dec Float64.overflow_threshold (M * Rabs t)) as [Hbig|_].
  { pose proof (exp_ineq1 (M * Rabs t) ltac:(lra)); lra. }
  destruct (Rle_dec (M * Rabs t) (- Float64.overflow_threshold)) as [_|_].
  - exists 0; split; [reflexivity | lra].
  - exists (exp (M * Rabs t)); cbn [Float64.fexp].
    pose proof (exp_pos (M * Rabs t)) as Hp.
    split; [|lra].
    apply round_in_range; rewrite Rabs_pos_eq; lra.
Qed.

(** A curve point is no NaN when the angle and the sample are finite and
    the exponential does not overflow. *)
Lemma curve_point_not_nan (theta_deg M X t : R) :
  isfinite theta_deg -> isfinite t ->
  exp (M * Rabs t) < Float64.overflow_threshold ->
  Float64.curve_x (Float64.fin theta_deg) (Float64.fin M) (Float64.fin X)
                  (Float64.fin t) <> Float64.nan
  /\ Float64.curve_y (Float64.fin theta_deg) (Float64.fin M) (Float64.fin X)
                     (Float64.fin t) <> Float64.nan.
Proof.
  unfold isfinite; intros Hth Ht He.
  pose proof float64_max_lt_threshold as Hmax.
  apply Rabs_bound in Hth, Ht.
  assert (Hpi : 0 < PI / 180 <= 1).
  { pose proof PI_RGT_0; pose proof PI_4; lra. }
  destruct (fexp_in_range M t He) as (e & Hfe & He0).
  unfold Float64.curve_x, Float64.curve_y, Float64.deg_to_rad.
  cbn [Float64.fabs]; rewrite Hfe.
  rewrite (fmul_in_range theta_deg) by (apply Rabs_def1; nra).
  rewrite (fmul_in_range (3 / 10)) by (apply Rabs_def1; lra).
  cbn [Float64.fcos Float64.fsin].
  pose proof (COS_bound (theta_deg * (PI / 180))) as Hc.
  pose proof (SIN_bound (theta_deg * (PI / 180))) as Hs.
  pose proof (SIN_bound (3 / 10 * t)) as Hw.
  set (c := cos (theta_deg * (PI / 180))) in *.
  set (s := sin (theta_deg * (PI / 180))) in *.
  set (w := sin (3 / 10 * t)) in *.
  assert (Hew : - e <= e * w <= e) by nra.
  assert (Hews : - e <= e * w * s <= e) by nra.
  assert (Hewc : - e <= e * w * c <= e) by nra.
  assert (Htc : - float64_max <= t * c <= float64_max) by nra.
  assert (Hts : - float64_max <= t * s <= float64_max) by nra.
  rewrite (fmul_in_range t c), (fmul_in_range t s), (fmul_in_range e w),
    (fmul_in_range (e * w) s), (fmul_in_range (e * w) c)
    by (apply Rabs_def1; lra).
  split; apply fadd_fin_not_nan.
  - apply fsub_fin_not_nan; discriminate.
  - cbn [Float64.fadd]; apply round_not_nan.
Qed.

Lemma float_dists_map (xp : Float64.farray) (x_o y_o : Float64.float) :
  forall yp : Float64.farray,
  Float64.np_sqrt
    (Float64.np_zip Float64.fadd
       (Float64.np_square (Float64.sub_scalar xp x_o))
       (Float64.np_square (Float64.sub_scalar yp y_o)))
  = map (fun q => Float64.distance q x_o y_o) (combine xp yp).
Proof.
  unfold Float64.np_sqrt, Float64.np_zip, Float64.np_square, Float64.sub_scalar.
  induction xp as [|x xp IH]; intros [|y yp]; cbn [map combine fst snd];
    try reflexivity.
  now rewrite IH.
Qed.

Lemma distance_nonneg (q : Float64.float * Float64.float) (x_o y_o : R) :
  fst q <> Float64.nan -> snd q <> Float64.nan ->
  Float64.nonneg (Float64.distance q (Float64.fin x_o) (Float64.fin y_o)).
Proof.
  intros Hx Hy; unfold Float64.distance.
  apply fsqrt_nonneg, fadd_nonneg; apply fmul_self_nonneg;
    now apply fsub_fin_not_nan.
Qed.

Lemma distance_same (x_o y_o : R) :
  Float64.distance (Float64.fin x_o, Float64.fin y_o)
                   (Float64.fin x_o) (Float64.fin y_o)
  = Float64.fin 0.
Proof.
  unfold Float64.distance, Float64.fsub.
  cbn [fst snd Float64.fopp Float64.fadd].
  rewrite !Rplus_opp_r, round_0.
  cbn [Float64.fmul]; rewrite Rmult_0_l, round_0.
  cbn [Float64.fadd]; rewrite Rplus_0_l, round_0.
  cbn [Float64.fsqrt].
  destruct (Rlt_dec 0 0); [lra | now rewrite sqrt_0].
Qed.

(** The loop on predicted points that are no NaN: one minimum per observed
    point, none negative, and 0 for an observed point that is one of the
    predicted points. *)
Lemma float_loop_nonneg (xp yp : Float64.farray) :
  combine xp yp <> [] ->
  Forall (fun q => fst q <> Float64.nan /\ snd q <> Float64.nan) (combine xp yp) ->
  forall (obs : list (R * R)) (acc : Float64.farray),
  exists mins,
    Float64.min_distances_loop xp yp acc
      (map (fun o => (Float64.fin (fst o), Float64.fin (snd o))) obs)
    = Ok (acc ++ mins)
    /\ length mins = length obs
    /\ Forall Float64.nonneg mins
    /\ ((forall o, In o obs ->
           In (Float64.fin (fst o), Float64.fin (snd o)) (combine xp yp)) ->
        Forall (fun m => m = Float64.fin 0) mins).
Proof.
  intros Hne Hq obs; induction obs as [|[x_o y_o] obs IH]; intros acc.
  - exists []; cbn [map Float64.min_distances_loop]; rewrite app_nil_r.
    repeat split; constructor.
  - cbn [map Float64.min_distances_loop fst snd].
    rewrite float_dists_map.
    assert (Hd : Forall Float64.nonneg
                   (map (fun q => Float64.distance q (Float64.fin x_o)
                                                     (Float64.fin y_o))
                        (combine xp yp))).
    { apply Forall_map; eapply Forall_impl; [|exact Hq].
      intros q [H1 H2]; now apply distance_nonneg. }
    destruct (combine xp yp) as [|q0 qs] eqn:Hc; [congruence|].
    cbn [map Float64.np_min rbind] in *.
    inversion Hd as [|? ? Hd0 Hds]; subst.
    destruct (IH (acc ++ [fold_left Float64.fmin
                            (map (fun q => Float64.distance q (Float64.fin x_o)
                                                              (Float64.fin y_o)) qs)
                            (Float64.distance q0 (Float64.fin x_o)
                                              (Float64.fin y_o))]))
      as (mins & Hloop & Hlen & Hall & Hzero).
    eexists (_ :: mins); split; [|split; [|split]].
    + rewrite Hloop, <- app_assoc; reflexivity.
    + cbn [length]; now rewrite Hlen.
    + constructor; [now apply fold_fmin_nonneg | exact Hall].
    + intros Hon; constructor.
      * apply fold_fmin_zero; [exact Hd0 | exact Hds|].
        specialize (Hon (x_o, y_o) (or_introl eq_refl)); cbn [fst snd] in Hon.
        destruct Hon as [->|Hin].
        -- left; apply distance_same.
        -- right; apply in_map_iff.
           exists (Float64.fin x_o, Float64.fin y_o); split;
             [apply distance_same | exact Hin].
      * apply Hzero; intros o Ho; apply Hon; now right.
Qed.

(** ** Overflow on three inputs *)

Lemma curve_point_at_0 (M : R) : curve_point (0, M, 0) 0 = (0, 42).
Proof.
  unfold curve_point, curve_x, curve_y; cbv zeta.
  replace (0 * PI / 180) with 0 by (unfold Rdiv; ring).
  rewrite Rmult_0_r, cos_0, sin_0; f_equal; ring.
Qed.

Lemma float_curve_point_at_0 (M : R) :
  Float64.curve_x (Float64.fin 0) (Float64.fin M) (Float64.fin 0) (Float64.fin 0)
  = Float64.fin 0
  /\ Float64.curve_y (Float64.fin 0) (Float64.fin M) (Float64.fin 0) (Float64.fin 0)
     = Float64.fin 42.
Proof.
  assert (H0 : Rabs 0 <= 2 ^ 400).
  { rewrite Rabs_R0; apply pow_le; lra. }
  assert (Hfin : isfinite 0) by (apply isfinite_small; rewrite Rabs_R0; lra).
  destruct (curve_point_within_range 0 M 0 0 Hfin H0 H0) as (Hx & Hy & _).
  { rewrite Rabs_R0, Rmult_0_r, Rabs_R0; lra. }
  pose proof (curve_point_at_0 M) as Hp; unfold curve_point in Hp.
  injection Hp as Hx0 Hy0.
  now rewrite Hx, Hy, Hx0, Hy0.
Qed.

Lemma sin_03_pos : 0 < sin (3 / 10).
Proof.
  apply sin_gt_0; [lra|].
  pose proof PI2_3_2; lra.
Qed.

(** With M = 2000 the exponential overflows at t = 1: the product of the
    infinity with sin(0) = 0 is NaN. *)
Lemma float_curve_point_overflow :
  Float64.curve_x (Float64.fin 0) (Float64.fin 2000) (Float64.fin 0) (Float64.fin 1)
  = Float64.nan
  /\ Float64.curve_y (Float64.fin 0) (Float64.fin 2000) (Float64.fin 0)
                     (Float64.fin 1)
     = Float64.pinf.
Proof.
  pose proof overflow_threshold_ge as HT.
  assert (H1 : 2 ^ 11 < 2 ^ 1023) by (apply Rlt_pow; [lra | lia]).
  assert (H2 : 2 ^ 11 = 2048) by (simpl; ring).
  pose proof sin_03_pos as Hw.
  unfold Float64.curve_x, Float64.curve_y, Float64.deg_to_rad.
  cbn [Float64.fabs Float64.fmul].
  rewrite Rmult_0_l, Rabs_R1, !Rmult_1_r, round_0.
  rewrite (round_in_range 2000), (round_in_range (3 / 10))
    by (rewrite Rabs_pos_eq; lra).
  cbn [Float64.fcos Float64.fsin Float64.fexp].
  rewrite cos_0, sin_0, (round_overflow (exp 2000)) by apply exp_2000.
  cbn [Float64.fmul]; unfold Float64.inf_times.
  destruct (Rlt_dec 0 (sin (3 / 10))) as [_|Hn]; [|contradiction].
  cbn [Float64.fmul]; unfold Float64.inf_times.
  destruct (Rlt_dec 0 0) as [H|_]; [lra|].
  destruct (Rlt_dec 0 1) as [_|H]; [|lra].
  rewrite !Rmult_1_r, Rmult_0_r, round_0.
  rewrite (round_in_range 1) by (rewrite Rabs_R1; lra).
  unfold Float64.fsub; cbn [Float64.fopp Float64.fadd].
  rewrite Rplus_0_r, (round_in_range 42) by (rewrite Rabs_pos_eq; lra).
  split; reflexivity.
Qed.

Lemma l1_loss_overflow_run :
  Float64.l1_loss (Float64.fin 0, Float64.fin 2000, Float64.fin 0)
    [Float64.fin 0; Float64.fin 1] [Float64.fin 0] [Float64.fin 42]
  = Ok Float64.nan.
Proof.
  destruct (float_curve_point_at_0 2000) as [Hx0 Hy0].
  destruct float_curve_point_overflow as [Hx1 Hy1].
  unfold Float64.l1_loss; rewrite float_predict_map; cbn [map].
  rewrite Hx0, Hy0, Hx1, Hy1.
  cbn [combine Float64.min_distances_loop]; rewrite float_dists_map.
  cbn [combine map]; rewrite distance_same.
  reflexivity.
Qed.

Lemma l1_loss_nan_sample_run :
  Float64.l1_loss (Float64.fin 0, Float64.fin 0, Float64.fin 0)
    [Float64.nan] [Float64.fin 0] [Float64.fin 42]
  = Ok Float64.nan.
Proof. reflexivity. Qed.

Lemma pow2_600_square : 2 ^ 600 * 2 ^ 600 = 2 ^ 1200.
Proof. rewrite <- pow_add; reflexivity. Qed.

(** A squared difference of 2^1200 overflows. *)
Lemma l1_loss_square_overflow_run :
  Float64.l1_loss (Float64.fin 0, Float64.fin 0, Float64.fin 0)
    [Float64.fin 0] [Float64.fin (2 ^ 600)] [Float64.fin 42]
  = Ok Float64.pinf.
Proof.
  destruct (float_curve_point_at_0 0) as [Hx0 Hy0].
  pose proof overflow_threshold_ge as HT.
  assert (H600 : 0 < 2 ^ 600) by (apply pow_lt; lra).
  assert (H1 : 2 ^ 600 < 2 ^ 1023) by (apply Rlt_pow; [lra | lia]).
  assert (H2 : Float64.overflow_threshold <= 2 ^ 1200).
  { apply Rle_trans with (2 ^ 1024); [|apply pow2_le; lia].
    unfold Float64.overflow_threshold.
    assert (0 < 2 ^ 970) by (apply pow_lt; lra); lra. }
  unfold Float64.l1_loss; rewrite float_predict_map; cbn [map].
  rewrite Hx0, Hy0.
  cbn [combine Float64.min_distances_loop]; rewrite float_dists_map.
  cbn [combine map Float64.np_min fold_left rbind app].
  unfold Float64.distance, Float64.fsub.
  cbn [fst snd Float64.fopp Float64.fadd].
  rewrite Rplus_0_l, Rplus_opp_r, round_0.
  rewrite (round_in_range (- 2 ^ 600)) by (rewrite Rabs_Ropp, Rabs_pos_eq; lra).
  cbn [Float64.fmul].
  rewrite Rmult_opp_opp, pow2_600_square, Rmult_0_l, round_0.
  rewrite (round_overflow _ H2).
  reflexivity.
Qed.

Lemma euclid_horizontal (a : R) : 0 <= a -> euclid (a, 42) (0, 42) = a.
Proof.
  intros Ha; unfold euclid; cbn [fst snd].
  replace ((a - 0) ^ 2 + (42 - 42) ^ 2) with (a ^ 2) by ring.
  now apply sqrt_pow2.
Qed.

Lemma small_le_pow2 (r : R) (n : nat) :
  (8 <= n)%nat -> Rabs r <= 256 -> Rabs r <= 2 ^ n.
Proof.
  intros Hn Hr.
  apply Rle_trans with (2 ^ 8); [simpl; lra | now apply pow2_le].
Qed.

(** Parameters in the validation bounds and samples in [6, 60] are within
    range. *)
Lemma validated_exp_within_range (theta_deg M X : R) (t_samples : array) :
  isfinite theta_deg ->
  - (5 / 100) < M < 5 / 100 ->
  Forall (fun t => 6 <= t <= 60) t_samples ->
  exp_within_range (theta_deg, M, X) t_samples.
Proof.
  intros Hth HM Hts; split; [exact Hth|].
  eapply Forall_impl; [|exact Hts].
  intros t Ht; split.
  - apply isfinite_small; rewrite Rabs_pos_eq; lra.
  - pose proof (exp_term_bound M t HM Ht) as He.
    pose proof overflow_threshold_ge as HT.
    assert (H5 : 2 ^ 5 <= 2 ^ 1023) by (apply pow2_le; lia).
    assert (H32 : 2 ^ 5 = 32) by (simpl; ring).
    lra.
Qed.

Lemma validated_within_range (theta_deg M X : R) (t_samples x_obs y_obs : array) :
  isfinite theta_deg ->
  - (5 / 100) < M < 5 / 100 ->
  0 < X < 100 ->
  Forall (fun t => 6 <= t <= 60) t_samples ->
  Forall (fun v => Rabs v <= 2 ^ 400) x_obs ->
  Forall (fun v => Rabs v <= 2 ^ 400) y_obs ->
  INR (length (combine x_obs y_obs)) <= 2 ^ 64 ->
  within_range (theta_deg, M, X) t_samples x_obs y_obs.
Proof.
  intros Hth HM HX Hts Hx Hy Hn.
  assert (H8 : (8 <= 400)%nat) by lia.
  repeat split; try assumption.
  - apply small_le_pow2; [exact H8 | rewrite Rabs_pos_eq; lra].
  - eapply Forall_impl; [|exact Hts].
    intros t Ht; split.
    + apply small_le_pow2; [exact H8 | rewrite Rabs_pos_eq; lra].
    + rewrite (Rabs_pos_eq t) by lra.
      apply Rabs_le; nra.
Qed.

Ltac forall_list tac :=
  repeat first [apply Forall_nil | apply Forall_cons; [tac|]].

Lemma example_observations :
  Forall (fun v => Rabs v <= 2 ^ 400) [60; 70]
  /\ Forall (fun v => Rabs v <= 2 ^ 400) [45; 50]
  /\ INR (length (combine [60; 70] [45; 50])) <= 2 ^ 64.
Proof.
  assert (H8 : (8 <= 400)%nat) by lia.
  split; [|split].
  - forall_list ltac:(apply small_le_pow2; [exact H8 | rewrite Rabs_pos_eq; lra]).
  - forall_list ltac:(apply small_le_pow2; [exact H8 | rewrite Rabs_pos_eq; lra]).
  - cbn [combine length INR].
    apply Rle_trans with (2 ^ 1); [simpl; lra | apply pow2_le; lia].
Qed.

Lemma example_within_range (t_samples : array) :
  Forall (fun t => 6 <= t <= 60) t_samples ->
  within_range (25, 1 / 100, 50) t_samples [60; 70] [45; 50].
Proof.
  intros Hts.
  destruct example_observations as (Hx & Hy & Hn).
  apply validated_within_range; try assumption; try lra.
  apply isfinite_small; rewrite Rabs_pos_eq; lra.
Qed.

(** The loss on curve points that are no NaN: not negative, and 0 when
    every observed point is a predicted point. *)
Lemma l1_loss_not_negative (p : params) (t_samples x_obs y_obs : array) :
  exp_within_range p t_samples ->
  t_samples <> [] ->
  combine x_obs y_obs <> [] ->
  let loss :=
    Float64.l1_loss (finite_params p) (finite_array t_samples)
      (finite_array x_obs) (finite_array y_obs) in
  (exists v, loss = Ok v /\ Float64.nonneg v)
  /\ ((forall o, In o (combine (finite_array x_obs) (finite_array y_obs)) ->
         let '(theta_deg, M, X) := finite_params p in
         In o (combine
                 (fst (Float64.predict (finite_array t_samples) theta_deg M X))
                 (snd (Float64.predict (finite_array t_samples) theta_deg M X)))) ->
      loss = Ok (Float64.fin 0)).
Proof.
  destruct p as [[theta_deg M] X].
  intros [Hth Hts] Ht Hobs; cbv zeta.
  unfold Float64.l1_loss, finite_params.
  rewrite float_predict_map, combine_finite; cbn [fst snd].
  set (xp := map (Float64.curve_x (Float64.fin theta_deg) (Float64.fin M)
                                  (Float64.fin X)) (finite_array t_samples)).
  set (yp := map (Float64.curve_y (Float64.fin theta_deg) (Float64.fin M)
                                  (Float64.fin X)) (finite_array t_samples)).
  assert (Hc : combine xp yp
               = map (fun t => (Float64.curve_x (Float64.fin theta_deg)
                                  (Float64.fin M) (Float64.fin X) (Float64.fin t),
                                Float64.curve_y (Float64.fin theta_deg)
                                  (Float64.fin M) (Float64.fin X) (Float64.fin t)))
                     t_samples).
  { unfold xp, yp, finite_array; rewrite !map_map.
    apply (combine_map_map
             (fun t => Float64.curve_x _ _ _ (Float64.fin t))
             (fun t => Float64.curve_y _ _ _ (Float64.fin t))). }
  assert (Hne : combine xp yp <> []).
  { rewrite Hc; destruct t_samples; [congruence | discriminate]. }
  assert (Hq : Forall (fun q => fst q <> Float64.nan /\ snd q <> Float64.nan)
                      (combine xp yp)).
  { rewrite Hc; apply Forall_map; eapply Forall_impl; [|exact Hts].
    intros t [Hfin He]; cbn [fst snd]; now apply curve_point_not_nan. }
  destruct (float_loop_nonneg xp yp Hne Hq (combine x_obs y_obs) [])
    as (mins & Hloop & Hlen & Hall & Hzero).
  rewrite Hloop; cbn [app rbind].
  assert (Hmins : mins <> []).
  { intros ->; cbn in Hlen; destruct (combine x_obs y_obs); [congruence | discriminate]. }
  split.
  - eexists; split; [reflexivity | now apply np_mean_nonneg].
  - intros Hon; f_equal; apply np_mean_zero; [exact Hmins|].
    apply Hzero; intros o Ho; apply Hon, in_map_iff; now exists o.
Qed.

(** ** Claims about the curve model and the loss *)



(** C1, as the code has it: on finite inputs within range (offset, samples
    and observed coordinates of magnitude at most 2^400, [M * |t|] of
    magnitude at most 200, at most 2^64 observed points), so that no
    intermediate result overflows, for non-empty samples and a non-empty set
    of observed points the loss is the arithmetic mean, over the observed
    points, of the least Euclidean distance from the point to the curve
    points at the samples. *)
Theorem l1_loss_mean_of_min_distances (p : params) (t_samples x_obs y_obs : array) :
  within_range p t_samples x_obs y_obs ->
  t_samples <> [] ->
  combine x_obs y_obs <> [] ->
  exists mins,
    Forall2 (fun o m =>
               is_minimum m (map (fun t => euclid o (curve_point p t)) t_samples))
            (combine x_obs y_obs) mins
    /\ Float64.l1_loss (finite_params p) (finite_array t_samples)
         (finite_array x_obs) (finite_array y_obs)
       = Ok (Float64.fin (arithmetic_mean mins)).
Proof.
  intros Hr Ht Hobs.
  destruct (l1_loss_minima p t_samples x_obs y_obs Ht Hobs) as [mins [Hall Hl]].
  exists mins; split; [exact Hall|].
  now rewrite l1_loss_within_range, Hl.
Qed.

Lemma l1_loss_mean_of_min_distances_witness :
  exists mins,
    Forall2 (fun o m =>
               is_minimum m (map (fun t => euclid o (curve_point (25, 1 / 100, 50) t))
                                 [6; 60]))
            (combine [60; 70] [45; 50]) mins
    /\ Float64.l1_loss (finite_params (25, 1 / 100, 50)) (finite_array [6; 60])
         (finite_array [60; 70]) (finite_array [45; 50])
       = Ok (Float64.fin (arithmetic_mean mins)).
Proof.
  apply (l1_loss_mean_of_min_distances (25, 1 / 100, 50) [6; 60] [60; 70] [45; 50]).
  - apply example_within_range; forall_list lra.
  - discriminate.
  - cbn; discriminate.
Defined.

(** C1, as stated, fails: with M = 2000 and the samples 0 and 1 the
    exponential overflows and the loss of the observed point (0, 42) is NaN,
    where the least distance is 0; with the observed point (2^600, 42) the
    squared difference overflows and the loss is infinite, where the least
    distance is 2^600; and a sample that is NaN makes the loss NaN. *)
Lemma l1_loss_overflow_is_not_the_mean :
  (Float64.l1_loss (Float64.fin 0, Float64.fin 2000, Float64.fin 0)
     [Float64.fin 0; Float64.fin 1] [Float64.fin 0] [Float64.fin 42]
   = Ok Float64.nan
   /\ is_minimum 0 (map (fun t => euclid (0, 42) (curve_point (0, 2000, 0) t))
                        [0; 1]))
  /\ (Float64.l1_loss (Float64.fin 0, Float64.fin 0, Float64.fin 0)
        [Float64.fin 0] [Float64.fin (2 ^ 600)] [Float64.fin 42]
      = Ok Float64.pinf
      /\ is_minimum (2 ^ 600)
           (map (fun t => euclid (2 ^ 600, 42) (curve_point (0, 0, 0) t)) [0]))
  /\ Float64.l1_loss (Float64.fin 0, Float64.fin 0, Float64.fin 0)
       [Float64.nan] [Float64.fin 0] [Float64.fin 42]
     = Ok Float64.nan.
Proof.
  split; [split; [exact l1_loss_overflow_run|]|].
  2: split; [split; [exact l1_loss_square_overflow_run|]
            | exact l1_loss_nan_sample_run].
  - cbn [map]; rewrite curve_point_at_0, euclid_same.
    split; [now left|].
    intros d [<-|[<-|[]]]; [apply Rle_refl | apply euclid_nonneg].
  - cbn [map]; rewrite curve_point_at_0, euclid_horizontal by (apply pow_le; lra).
    split; [now left|].
    intros d [<-|[]]; apply Rle_refl.
Qed.

(** C6, as the code has it: for finite parameters, samples and observed
    points, when no [exp(M * |t|)] overflows, the loss on non-empty samples
    and a non-empty set of observed points is not negative (a real that is
    not negative, or infinity when a later result overflows), and it is
    exactly 0 when every observed point is one of the predicted curve
    points. *)
Theorem l1_loss_nonneg_zero_on_curve (p : params) (t_samples x_obs y_obs : array) :
  exp_within_range p t_samples ->
  t_samples <> [] ->
  combine x_obs y_obs <> [] ->
  let loss :=
    Float64.l1_loss (finite_params p) (finite_array t_samples)
      (finite_array x_obs) (finite_array y_obs) in
  (exists v, loss = Ok v /\ Float64.nonneg v)
  /\ ((forall o, In o (combine (finite_array x_obs) (finite_array y_obs)) ->
         let '(theta_deg, M, X) := finite_params p in
         In o (combine
                 (fst (Float64.predict (finite_array t_samples) theta_deg M X))
                 (snd (Float64.predict (finite_array t_samples) theta_deg M X)))) ->
      loss = Ok (Float64.fin 0)).
Proof. apply l1_loss_not_negative. Qed.

Lemma l1_loss_nonneg_zero_on_curve_witness :
  exists v,
    Float64.l1_loss (finite_params (25, 1 / 100, 50)) (finite_array [6; 60])
      (finite_array [60; 70]) (finite_array [45; 50]) = Ok v
    /\ Float64.nonneg v.
Proof.
  apply (l1_loss_nonneg_zero_on_curve (25, 1 / 100, 50) [6; 60] [60; 70] [45; 50]).
  - apply validated_exp_within_range;
      [apply isfinite_small; rewrite Rabs_pos_eq; lra | lra | forall_list lra].
  - discriminate.
  - cbn; discriminate.
Defined.

(** C6, as stated, fails: with M = 2000 and the samples 0 and 1 the
    observed point (0, 42) is the curve point predicted at the sample 0, and
    the loss is NaN, which is neither 0 nor a value that is not negative;
    and a sample that is NaN makes the loss NaN. *)
Lemma l1_loss_nan_on_the_curve :
  (let xy := Float64.predict [Float64.fin 0; Float64.fin 1]
               (Float64.fin 0) (Float64.fin 2000) (Float64.fin 0) in
   forall o, In o (combine [Float64.fin 0] [Float64.fin 42]) ->
             In o (combine (fst xy) (snd xy)))
  /\ Float64.l1_loss (Float64.fin 0, Float64.fin 2000, Float64.fin 0)
       [Float64.fin 0; Float64.fin 1] [Float64.fin 0] [Float64.fin 42]
     = Ok Float64.nan
  /\ ~ Float64.nonneg Float64.nan
  /\ Float64.l1_loss (Float64.fin 0, Float64.fin 0, Float64.fin 0)
       [Float64.nan] [Float64.fin 0] [Float64.fin 42]
     = Ok Float64.nan.
Proof.
  split; [|split; [exact l1_loss_overflow_run|]].
  2: split; [intros [] | exact l1_loss_nan_sample_run].
  cbv zeta; rewrite float_predict_map; cbn [map fst snd combine].
  destruct (float_curve_point_at_0 2000) as [-> ->].
  intros o [<-|[]]; now left.
Qed.

(** C7, as the code has it: with an empty [t_samples] and at least one
    observed point the loss raises the [ValueError] of [np.min] on a
    zero-size array and returns no value; NaN is what it returns when there
    is no observed point. *)
Theorem l1_loss_empty_samples_raises (p : params) (x_obs y_obs : array) :
  (combine x_obs y_obs <> [] ->
   l1_loss p [] x_obs y_obs = Raise (ValueError zero_size_minimum))
  /\ (combine x_obs y_obs = [] ->
      forall t_samples, l1_loss p t_samples x_obs y_obs = Ok NaN).
Proof.
  destruct p as [[theta_deg M] X]; split.
  - intros Hobs.
    unfold l1_loss; rewrite predict_map; cbn [map].
    destruct (combine x_obs y_obs) as [|[x_o y_o] rest]; [congruence|].
    reflexivity.
  - intros Hobs t_samples.
    unfold l1_loss; rewrite predict_map, Hobs; reflexivity.
Qed.

Lemma l1_loss_empty_samples_raises_witness :
  l1_loss (25, 0, 50) [] [60] [45] = Raise (ValueError zero_size_minimum)
  /\ l1_loss (25, 0, 50) [6; 60] [] [] = Ok NaN.
Proof.
  split.
  - apply (l1_loss_empty_samples_raises (25, 0, 50) [60] [45]).
    simpl; discriminate.
  - apply (l1_loss_empty_samples_raises (25, 0, 50) [] []).
    reflexivity.
Defined.

(** C7, as stated, fails: the call does not return NaN. *)
Lemma l1_loss_empty_samples_not_nan :
  l1_loss (25, 0, 50) [] [60] [45] <> Ok NaN.
Proof.
  unfold l1_loss; rewrite predict_map; cbn.
  discriminate.
Qed.

(** ** The seed *)

Lemma np_random_seed_ok (L : libs) (seed : Z) (w : world) :
  seed_in_range seed = true ->
  np_random_seed L seed w
  = (Ok tt, mkWorld (mkRng (random_sample L seed) 0) (w_trace w)).
Proof. intros H; unfold np_random_seed; now rewrite H. Qed.

(** A seed out of range stops the run before anything else happens. *)
Lemma fit_params_bad_seed (L : libs) (xy_df : DataFrame R)
    (initial_guess : option params) (n_samples : Z) (bounds : option bounds_t)
    (n_restarts seed : Z) (w : world) :
  seed_in_range seed = false ->
  fit_params L xy_df initial_guess n_samples bounds n_restarts seed w
  = (Raise (ValueError msg_seed), w).
Proof.
  intros H; unfold fit_params, bind at 1, np_random_seed; now rewrite H.
Qed.

(** ** The restart loop *)

Lemma np_random_uniform_run (bound : R * R) (stream : nat -> R) (pos : nat)
    (tr : list event) :
  np_random_uniform bound (mkWorld (mkRng stream pos) tr)
  = (Ok (scale bound (stream pos)), mkWorld (mkRng stream (S pos)) tr).
Proof. destruct bound as [low high]; reflexivity. Qed.

(** One restart whose minimization returns [r]. *)
Lemma restart_run (L : libs) (f : objective) (guess : params) (b : bounds_t)
    (n_restarts : Z) (stream : nat -> R) (k : nat) (acc : best)
    (tr : list event) (r : OptimizeResult) :
  minimize L f (start_vector guess b stream k) (box b) = Ok r ->
  restart L f guess b (box b) n_restarts k acc
          (mkWorld (mkRng stream (3 * (k - 1))) tr)
  = (Ok (better acc r),
     mkWorld (mkRng stream (3 * k))
             (tr ++ CallMinimize (start_vector guess b stream k)
                 :: (if pylt (res_fun r) (snd acc)
                     then [LogInfo (RestartNewBest (k + 1) n_restarts (res_fun r))]
                     else []))).
Proof.
  intros Hmin.
  unfold restart, better.
  destruct k as [|j].
  - cbn [Nat.eqb start_vector] in *.
    unfold bind at 1; cbn [ret].
    unfold bind at 1; cbn [emit w_rng w_trace].
    unfold bind at 1; unfold lift at 1; rewrite Hmin.
    destruct (pylt (res_fun r) (snd acc)).
    + unfold bind, emit, ret; cbn [w_rng w_trace].
      rewrite <- app_assoc; reflexivity.
    + reflexivity.
  - cbn [Nat.eqb start_vector] in *.
    replace (3 * (S j - 1))%nat with (3 * j)%nat by lia.
    unfold bind at 1.
    unfold bind at 1; rewrite np_random_uniform_run.
    unfold bind at 1; rewrite np_random_uniform_run.
    unfold bind at 1; rewrite np_random_uniform_run.
    cbn [ret].
    replace (S (3 * j)) with (3 * j + 1)%nat by lia.
    replace (S (3 * j + 1)) with (3 * j + 2)%nat by lia.
    replace (S (3 * j + 2)) with (3 * S j)%nat by lia.
    unfold bind at 1; cbn [emit w_rng w_trace].
    unfold bind at 1; unfold lift at 1; rewrite Hmin.
    destruct (pylt (res_fun r) (snd acc)).
    + unfold bind, emit, ret; cbn [w_rng w_trace].
      rewrite <- app_assoc; reflexivity.
    + reflexivity.
Qed.

(** The loop from restart [k] on, when the minimizations return [rs]. *)
Lemma restart_loop_run (L : libs) (f : objective) (guess : params) (b : bounds_t)
    (n_restarts : Z) (stream : nat -> R) (rs : list OptimizeResult) :
  forall (k : nat) (acc : best) (tr : list event),
  Forall2 (fun i r => minimize L f (start_vector guess b stream i) (box b) = Ok r)
          (seq k (length rs)) rs ->
  for_each (seq k (length rs)) (restart L f guess b (box b) n_restarts) acc
           (mkWorld (mkRng stream (3 * (k - 1))) tr)
  = (Ok (fold_left better rs acc),
     mkWorld (mkRng stream (3 * (k + length rs - 1)))
             (tr ++ loop_events guess b stream n_restarts k rs (snd acc))).
Proof.
  induction rs as [|r rs IH]; intros k acc tr Hall.
  - cbn [length seq for_each ret fold_left loop_events].
    rewrite app_nil_r, Nat.add_0_r; reflexivity.
  - cbn [length seq] in *.
    inversion Hall as [|i r' idx rs' Hmin Hrest]; subst.
    cbn [for_each]; unfold bind at 1.
    rewrite (restart_run L f guess b n_restarts stream k acc tr r Hmin).
    replace (3 * k)%nat with (3 * (S k - 1))%nat by lia.
    rewrite (IH (S k) (better acc r) _ Hrest).
    cbn [fold_left loop_events].
    replace (S k + length rs - 1)%nat with (k + S (length rs) - 1)%nat by lia.
    unfold better.
    destruct (pylt (res_fun r) (snd acc)); cbn [snd];
      rewrite <- app_assoc; reflexivity.
Qed.

Lemma Forall2_map_l {A B C : Type} (P : B -> C -> Prop) (g : A -> B)
    (l : list A) (rs : list C) :
  Forall2 P (map g l) rs -> Forall2 (fun i r => P (g i) r) l rs.
Proof.
  revert rs; induction l as [|a l IH]; intros rs H; inversion H; subst;
    constructor; auto.
Qed.

(** ** A whole run *)

(** Equality of two traces up to the bracketing of [++]. *)
Ltac trace_eq :=
  repeat first [ rewrite <- app_assoc | progress cbn [app] | rewrite app_nil_r ];
  reflexivity.

(** A run on a frame with columns x and y, a sample count that is not
    negative, and local minimizations that return [rs]. *)
Lemma fit_params_run (L : libs) (xy_df : DataFrame R)
    (initial_guess : option params) (n_samples : Z) (bounds : option bounds_t)
    (n_restarts seed : Z) (w : world) (x_obs y_obs t_samples : array)
    (rs : list OptimizeResult) :
  seed_in_range seed = true ->
  df_get xy_df "x" = Ok x_obs ->
  df_get xy_df "y" = Ok y_obs ->
  get_uniform_t_values n_samples 6 60 = Ok t_samples ->
  Forall2 (fun x0 r =>
             minimize L (loss_on t_samples x_obs y_obs) x0
                      (box (bounds_or_default bounds)) = Ok r)
          (start_vectors L initial_guess bounds n_restarts seed) rs ->
  fit_params L xy_df initial_guess n_samples bounds n_restarts seed w
  = let b := bounds_or_default bounds in
    let g := mkRng (random_sample L seed) (3 * (length rs - 1)) in
    let tr :=
      w_trace w
      ++ LogInfo (StartingOptimization n_restarts)
      :: loop_events (guess_or_default initial_guess) b (random_sample L seed)
                     n_restarts 0 rs Inf
      ++ [LogInfo RunningDifferentialEvolution; CallDifferentialEvolution seed] in
    match differential_evolution L (loss_on t_samples x_obs y_obs) (box b) seed with
    | Raise e => (Raise e, mkWorld g tr)
    | Ok d =>
        (match fst (better (select rs) d) with
         | None => Raise no_best_result
         | Some r => Ok (package r (snd (better (select rs) d)))
         end,
         mkWorld g (tr ++ final_events (select rs) d))
    end.
Proof.
  intros Hseed Hx Hy Ht Hall.
  assert (Hlen : Z.to_nat n_restarts = length rs).
  { apply Forall2_length in Hall.
    unfold start_vectors, range in Hall.
    now rewrite length_map, length_seq in Hall. }
  apply Forall2_map_l in Hall.
  unfold range in Hall; rewrite Hlen in Hall.
  unfold fit_params.
  unfold bind at 1; rewrite (np_random_seed_ok L seed w Hseed).
  unfold bind at 1; unfold lift at 1; rewrite Hx.
  unfold bind at 1; unfold lift at 1; rewrite Hy.
  unfold bind at 1; unfold lift at 1; rewrite Ht.
  unfold bind at 1; cbn [emit w_rng w_trace].
  unfold bind at 1.
  unfold range; rewrite Hlen.
  change (match bounds with Some b => b | None => default_bounds end)
    with (bounds_or_default bounds).
  change (match initial_guess with Some g => g | None => default_initial_guess end)
    with (guess_or_default initial_guess).
  change [b_theta_deg (bounds_or_default bounds); b_M (bounds_or_default bounds);
          b_X (bounds_or_default bounds)]
    with (box (bounds_or_default bounds)).
  change (fun p : params => l1_loss p t_samples x_obs y_obs)
    with (loss_on t_samples x_obs y_obs).
  change 0%nat with (3 * (0 - 1))%nat at 1.
  rewrite (restart_loop_run L (loss_on t_samples x_obs y_obs)
             (guess_or_default initial_guess) (bounds_or_default bounds)
             n_restarts (random_sample L seed) rs 0%nat (None, Inf) _ Hall).
  cbn [Nat.add snd].
  unfold bind at 1; cbn [emit w_rng w_trace].
  unfold bind at 1; cbn [emit w_rng w_trace].
  unfold bind at 1; unfold lift at 1.
  cbv zeta; fold (select rs).
  destruct (differential_evolution L (loss_on t_samples x_obs y_obs)
              (box (bounds_or_default bounds)) seed) as [d|e].
  - unfold bind at 1, final_events, better, package.
    destruct (pylt (res_fun d) (snd (select rs))).
    + unfold bind at 1; cbn [emit ret w_rng w_trace fst snd].
      destruct (res_x d) as [[theta_deg M0] X] eqn:Hd.
      unfold bind at 1.
      destruct (validate_bounds theta_deg M0 X); cbn [negb emit ret w_rng w_trace];
        unfold bind, emit, ret; cbn [w_rng w_trace];
        trace_eq.
    + cbn [ret].
      destruct (fst (select rs)) as [r|].
      * destruct (res_x r) as [[theta_deg M0] X] eqn:Hr.
        unfold bind at 1.
        destruct (validate_bounds theta_deg M0 X); cbn [negb emit ret w_rng w_trace];
          unfold bind, emit, ret; cbn [w_rng w_trace];
          trace_eq.
      * unfold lift; trace_eq.
  - trace_eq.
Qed.

(** ** The comparison rule *)

Ltac pylt_cases :=
  unfold pylt in *;
  repeat match goal with
         | H : context [Rlt_dec ?a ?b] |- _ => destruct (Rlt_dec a b)
         | |- context [Rlt_dec ?a ?b] => destruct (Rlt_dec a b)
         end;
  try discriminate; try congruence; try reflexivity; try lra.

Lemma pylt_true_fin (a b : pyfloat) : pylt a b = true -> exists v, a = Fin v.
Proof. destruct a as [v| |]; destruct b; simpl; try discriminate; eauto. Qed.

Lemma pylt_below_inf (a b : pyfloat) : pylt a b = true -> pylt a Inf = true.
Proof. destruct a, b; intros; pylt_cases. Qed.


(** Strictly below [b], and [b] strictly below [c] or [c] not below [b]. *)
Lemma pylt_below_earlier (a b c : pyfloat) :
  pylt a b = true -> pylt b c = true -> pylt a c = true.
Proof. destruct a, b, c; intros; pylt_cases. Qed.

Lemma pylt_below_later (a b c : pyfloat) :
  pylt a b = true -> pylt c b = false -> c <> NaN -> pylt a c = true.
Proof. destruct a, b, c; intros; pylt_cases. Qed.

Lemma pylt_not_fin (a c : pyfloat) :
  pylt a Inf = true -> pylt c Inf = false -> c <> NaN -> pylt a c = true.
Proof. destruct a, c; intros; pylt_cases. Qed.

Lemma nth_error_snoc {A : Type} (pre : list A) (c c' : A) (j : nat) :
  nth_error (pre ++ [c]) j = Some c' ->
  ((j < length pre)%nat /\ nth_error pre j = Some c')
  \/ (j = length pre /\ c' = c).
Proof.
  intros H.
  destruct (Nat.lt_ge_cases j (length pre)) as [Hlt|Hge].
  - left; split; [exact Hlt|].
    now rewrite nth_error_app1 in H.
  - right.
    rewrite nth_error_app2 in H by exact Hge.
    destruct (j - length pre)%nat as [|n] eqn:Hj; simpl in H.
    + split; [lia | congruence].
    + destruct n; discriminate.
Qed.

Lemma best_of_step (pre : list OptimizeResult) (acc : best) (c : OptimizeResult) :
  best_of pre acc -> best_of (pre ++ [c]) (better acc c).
Proof.
  intros Hinv; unfold better.
  destruct (pylt (res_fun c) (snd acc)) eqn:Hlt.
  - unfold best_of; cbn [fst snd]; split; [reflexivity|].
    exists (length pre); unfold first_strict_minimum; repeat split.
    + rewrite nth_error_app2, Nat.sub_diag by lia; reflexivity.
    + eapply pylt_below_inf; exact Hlt.
    + intros j c' Hj Hnth Hnan.
      rewrite nth_error_app1 in Hnth by exact Hj.
      unfold best_of in Hinv.
      destruct (fst acc) as [r|].
      * destruct Hinv as [Hs [i [Hi [_ [Hbefore Hafter]]]]].
        rewrite Hs in Hlt.
        destruct (lt_eq_lt_dec j i) as [[Hji|Hji]|Hji].
        -- eapply pylt_below_earlier; [exact Hlt | now apply (Hbefore j)].
        -- subst j; rewrite Hi in Hnth; injection Hnth as <-; exact Hlt.
        -- eapply pylt_below_later; [exact Hlt | now apply (Hafter j) | exact Hnan].
      * destruct Hinv as [Hs Hall]; rewrite Hs in Hlt.
        eapply pylt_not_fin; [exact Hlt | now apply (Hall j) | exact Hnan].
    + intros j c' Hj Hnth.
      apply nth_error_snoc in Hnth as [[Hlt' _]|[-> _]]; lia.
  - unfold best_of in *.
    destruct (fst acc) as [r|].
    + destruct Hinv as [Hs [i [Hi [Hfin [Hbefore Hafter]]]]].
      split; [exact Hs|]; exists i.
      assert (Hil : (i < length pre)%nat)
        by (apply nth_error_Some; congruence).
      unfold first_strict_minimum; repeat split.
      * now rewrite nth_error_app1.
      * exact Hfin.
      * intros j c' Hj Hnth; apply (Hbefore j c' Hj).
        rewrite nth_error_app1 in Hnth by lia; exact Hnth.
      * intros j c' Hj Hnth.
        apply nth_error_snoc in Hnth as [[_ Hnth]|[_ ->]].
        -- now apply (Hafter j).
        -- now rewrite <- Hs.
    + destruct Hinv as [Hs Hall]; split; [exact Hs|].
      intros j c' Hnth.
      apply nth_error_snoc in Hnth as [[_ Hnth]|[_ ->]].
      * now apply (Hall j).
      * now rewrite <- Hs.
Qed.

Lemma best_of_fold (cands pre : list OptimizeResult) (acc : best) :
  best_of pre acc -> best_of (pre ++ cands) (fold_left better cands acc).
Proof.
  revert pre acc; induction cands as [|c cands IH]; intros pre acc Hinv.
  - now rewrite app_nil_r.
  - cbn [fold_left].
    replace (pre ++ c :: cands) with ((pre ++ [c]) ++ cands)
      by (rewrite <- app_assoc; reflexivity).
    apply IH, best_of_step, Hinv.
Qed.

Lemma best_of_select (cands : list OptimizeResult) : best_of cands (select cands).
Proof.
  apply (best_of_fold cands [] (None, Inf)).
  split; [reflexivity|].
  intros [|j] c H; discriminate.
Qed.

Lemma select_snoc (rs : list OptimizeResult) (d : OptimizeResult) :
  select (rs ++ [d]) = better (select rs) d.
Proof. unfold select; rewrite fold_left_app; reflexivity. Qed.

(** ** Calls in a trace *)

Lemma calls_app (a b : list event) : calls (a ++ b) = calls a ++ calls b.
Proof. apply filter_app. Qed.

Lemma calls_loop_events (guess : params) (b : bounds_t) (stream : nat -> R)
    (n_restarts : Z) (rs : list OptimizeResult) :
  forall (k : nat) (best_loss : pyfloat),
  calls (loop_events guess b stream n_restarts k rs best_loss)
  = map (fun i => CallMinimize (start_vector guess b stream i)) (seq k (length rs)).
Proof.
  induction rs as [|r rs IH]; intros k best_loss; [reflexivity|].
  cbn [loop_events length seq map].
  unfold calls in *; cbn [filter is_call].
  destruct (pylt (res_fun r) best_loss); cbn [filter is_call];
    now rewrite IH.
Qed.

Lemma calls_final_events (b : best) (d : OptimizeResult) :
  calls (final_events b d) = [].
Proof.
  unfold final_events.
  rewrite calls_app.
  destruct (pylt (res_fun d) (snd b)); cbn [calls filter is_call app];
    destruct (fst (better b d)) as [r|]; [|reflexivity| |reflexivity];
    destruct (res_x r) as [[theta_deg M0] X];
    destruct (validate_bounds theta_deg M0 X); reflexivity.
Qed.

(** ** Runs that stop early *)

Lemma fit_params_no_x (L : libs) (xy_df : DataFrame R)
    (initial_guess : option params) (n_samples : Z) (bounds : option bounds_t)
    (n_restarts seed : Z) (w : world) (e : exn) :
  seed_in_range seed = true ->
  df_get xy_df "x" = Raise e ->
  fit_params L xy_df initial_guess n_samples bounds n_restarts seed w
  = (Raise e, mkWorld (mkRng (random_sample L seed) 0) (w_trace w)).
Proof.
  intros Hseed Hx; unfold fit_params.
  unfold bind at 1; rewrite (np_random_seed_ok L seed w Hseed).
  unfold bind at 1; unfold lift at 1; rewrite Hx; reflexivity.
Qed.

Lemma fit_params_no_y (L : libs) (xy_df : DataFrame R)
    (initial_guess : option params) (n_samples : Z) (bounds : option bounds_t)
    (n_restarts seed : Z) (w : world) (x_obs : array) (e : exn) :
  seed_in_range seed = true ->
  df_get xy_df "x" = Ok x_obs ->
  df_get xy_df "y" = Raise e ->
  fit_params L xy_df initial_guess n_samples bounds n_restarts seed w
  = (Raise e, mkWorld (mkRng (random_sample L seed) 0) (w_trace w)).
Proof.
  intros Hseed Hx Hy; unfold fit_params.
  unfold bind at 1; rewrite (np_random_seed_ok L seed w Hseed).
  unfold bind at 1; unfold lift at 1; rewrite Hx.
  unfold bind at 1; unfold lift at 1; rewrite Hy; reflexivity.
Qed.

Lemma fit_params_no_grid (L : libs) (xy_df : DataFrame R)
    (initial_guess : option params) (n_samples : Z) (bounds : option bounds_t)
    (n_restarts seed : Z) (w : world) (x_obs y_obs : array) (e : exn) :
  seed_in_range seed = true ->
  df_get xy_df "x" = Ok x_obs ->
  df_get xy_df "y" = Ok y_obs ->
  get_uniform_t_values n_samples 6 60 = Raise e ->
  fit_params L xy_df initial_guess n_samples bounds n_restarts seed w
  = (Raise e, mkWorld (mkRng (random_sample L seed) 0) (w_trace w)).
Proof.
  intros Hseed Hx Hy Ht; unfold fit_params.
  unfold bind at 1; rewrite (np_random_seed_ok L seed w Hseed).
  unfold bind at 1; unfold lift at 1; rewrite Hx.
  unfold bind at 1; unfold lift at 1; rewrite Hy.
  unfold bind at 1; unfold lift at 1; rewrite Ht; reflexivity.
Qed.

(** One restart whose minimization raises. *)
Lemma restart_raise (L : libs) (f : objective) (guess : params) (b : bounds_t)
    (n_restarts : Z) (stream : nat -> R) (k : nat) (acc : best)
    (tr : list event) (e : exn) :
  minimize L f (start_vector guess b stream k) (box b) = Raise e ->
  restart L f guess b (box b) n_restarts k acc
          (mkWorld (mkRng stream (3 * (k - 1))) tr)
  = (Raise e,
     mkWorld (mkRng stream (3 * k))
             (tr ++ [CallMinimize (start_vector guess b stream k)])).
Proof.
  intros Hmin.
  unfold restart.
  destruct k as [|j].
  - cbn [Nat.eqb start_vector] in *.
    unfold bind at 1; cbn [ret].
    unfold bind at 1; cbn [emit w_rng w_trace].
    unfold bind at 1; unfold lift at 1; rewrite Hmin; reflexivity.
  - cbn [Nat.eqb start_vector] in *.
    replace (3 * (S j - 1))%nat with (3 * j)%nat by lia.
    unfold bind at 1.
    unfold bind at 1; rewrite np_random_uniform_run.
    unfold bind at 1; rewrite np_random_uniform_run.
    unfold bind at 1; rewrite np_random_uniform_run.
    cbn [ret].
    replace (S (3 * j)) with (3 * j + 1)%nat by lia.
    replace (S (3 * j + 1)) with (3 * j + 2)%nat by lia.
    replace (S (3 * j + 2)) with (3 * S j)%nat by lia.
    unfold bind at 1; cbn [emit w_rng w_trace].
    unfold bind at 1; unfold lift at 1; rewrite Hmin; reflexivity.
Qed.

(** The loop from restart [k] on, when the minimizations return [rs] and
    the next one raises. *)
Lemma restart_loop_raise (L : libs) (f : objective) (guess : params)
    (b : bounds_t) (n_restarts : Z) (stream : nat -> R)
    (rs : list OptimizeResult) (e : exn) :
  forall (k m : nat) (acc : best) (tr : list event),
  (length rs < m)%nat ->
  Forall2 (fun i r => minimize L f (start_vector guess b stream i) (box b) = Ok r)
          (seq k (length rs)) rs ->
  minimize L f (start_vector guess b stream (k + length rs)) (box b) = Raise e ->
  for_each (seq k m) (restart L f guess b (box b) n_restarts) acc
           (mkWorld (mkRng stream (3 * (k - 1))) tr)
  = (Raise e,
     mkWorld (mkRng stream (3 * (k + length rs)))
             (tr ++ loop_events guess b stream n_restarts k rs (snd acc)
                 ++ [CallMinimize (start_vector guess b stream (k + length rs))])).
Proof.
  induction rs as [|r rs IH]; intros k m acc tr Hm Hall He.
  - cbn [length] in *.
    destruct m as [|m]; [lia|].
    rewrite Nat.add_0_r in *.
    cbn [seq for_each loop_events app]; unfold bind at 1.
    now rewrite (restart_raise L f guess b n_restarts stream k acc tr e He).
  - cbn [length seq] in *.
    destruct m as [|m]; [lia|].
    inversion Hall as [|i r' idx rs' Hmin Hrest]; subst.
    cbn [seq for_each]; unfold bind at 1.
    rewrite (restart_run L f guess b n_restarts stream k acc tr r Hmin).
    replace (3 * k)%nat with (3 * (S k - 1))%nat by lia.
    replace (k + S (length rs))%nat with (S k + length rs)%nat in * by lia.
    rewrite (IH (S k) m (better acc r) _ ltac:(lia) Hrest He).
    cbn [loop_events].
    unfold better.
    destruct (pylt (res_fun r) (snd acc)); cbn [snd]; f_equal; f_equal; trace_eq.
Qed.

(** Every sequence of local minimizations either returns throughout or has
    a first one that raises. *)
Lemma minimizations_return_or_raise (L : libs) (f : objective) (guess : params)
    (b : bounds_t) (stream : nat -> R) (m : nat) :
  forall k,
  (exists rs,
      Forall2 (fun i r => minimize L f (start_vector guess b stream i) (box b) = Ok r)
              (seq k m) rs)
  \/ (exists rs e,
         (length rs < m)%nat
         /\ Forall2 (fun i r =>
                       minimize L f (start_vector guess b stream i) (box b) = Ok r)
                    (seq k (length rs)) rs
         /\ minimize L f (start_vector guess b stream (k + length rs)) (box b)
            = Raise e).
Proof.
  induction m as [|m IH]; intros k.
  - left; exists []; constructor.
  - destruct (minimize L f (start_vector guess b stream k) (box b)) as [r|e] eqn:Hk.
    + destruct (IH (S k)) as [[rs Hall]|[rs [e [Hlen [Hall He]]]]].
      * left; exists (r :: rs); cbn [seq]; now constructor.
      * right; exists (r :: rs), e; cbn [length seq].
        split; [lia|]; split; [now constructor|].
        now replace (k + S (length rs))%nat with (S k + length rs)%nat by lia.
    + right; exists [], e; cbn [length seq].
      split; [lia|]; split; [constructor|].
      now rewrite Nat.add_0_r.
Qed.

Lemma Forall2_map_l_inv {A B C : Type} (P : B -> C -> Prop) (g : A -> B)
    (l : list A) (rs : list C) :
  Forall2 (fun i r => P (g i) r) l rs -> Forall2 P (map g l) rs.
Proof. induction 1; cbn [map]; constructor; auto. Qed.

(** A run in which the local minimizations return [rs] and the next one
    raises. *)
Lemma fit_params_restart_raises (L : libs) (xy_df : DataFrame R)
    (initial_guess : option params) (n_samples : Z) (bounds : option bounds_t)
    (n_restarts seed : Z) (w : world) (x_obs y_obs t_samples : array)
    (rs : list OptimizeResult) (e : exn) :
  seed_in_range seed = true ->
  df_get xy_df "x" = Ok x_obs ->
  df_get xy_df "y" = Ok y_obs ->
  get_uniform_t_values n_samples 6 60 = Ok t_samples ->
  (length rs < Z.to_nat n_restarts)%nat ->
  Forall2 (fun i r =>
             minimize L (loss_on t_samples x_obs y_obs)
               (start_vector (guess_or_default initial_guess)
                  (bounds_or_default bounds) (random_sample L seed) i)
               (box (bounds_or_default bounds)) = Ok r)
          (seq 0 (length rs)) rs ->
  minimize L (loss_on t_samples x_obs y_obs)
    (start_vector (guess_or_default initial_guess) (bounds_or_default bounds)
       (random_sample L seed) (length rs))
    (box (bounds_or_default bounds)) = Raise e ->
  fit_params L xy_df initial_guess n_samples bounds n_restarts seed w
  = (Raise e,
     mkWorld (mkRng (random_sample L seed) (3 * length rs))
       (w_trace w
        ++ LogInfo (StartingOptimization n_restarts)
        :: loop_events (guess_or_default initial_guess) (bounds_or_default bounds)
             (random_sample L seed) n_restarts 0 rs Inf
        ++ [CallMinimize
              (start_vector (guess_or_default initial_guess)
                 (bounds_or_default bounds) (random_sample L seed) (length rs))])).
Proof.
  intros Hseed Hx Hy Ht Hlen Hall He.
  unfold fit_params.
  unfold bind at 1; rewrite (np_random_seed_ok L seed w Hseed).
  unfold bind at 1; unfold lift at 1; rewrite Hx.
  unfold bind at 1; unfold lift at 1; rewrite Hy.
  unfold bind at 1; unfold lift at 1; rewrite Ht.
  unfold bind at 1; cbn [emit w_rng w_trace].
  unfold bind at 1.
  unfold range.
  change (match bounds with Some b => b | None => default_bounds end)
    with (bounds_or_default bounds).
  change (match initial_guess with Some g => g | None => default_initial_guess end)
    with (guess_or_default initial_guess).
  change [b_theta_deg (bounds_or_default bounds); b_M (bounds_or_default bounds);
          b_X (bounds_or_default bounds)]
    with (box (bounds_or_default bounds)).
  change (fun p : params => l1_loss p t_samples x_obs y_obs)
    with (loss_on t_samples x_obs y_obs).
  change 0%nat with (3 * (0 - 1))%nat at 1.
  rewrite (restart_loop_raise L (loss_on t_samples x_obs y_obs)
             (guess_or_default initial_guess) (bounds_or_default bounds)
             n_restarts (random_sample L seed) rs e 0%nat (Z.to_nat n_restarts)
             (None, Inf) _ Hlen Hall He).
  cbn [Nat.add snd]; f_equal; f_equal; trace_eq.
Qed.

(** What a run that returns a result went through. *)
Lemma fit_params_ok_inv (L : libs) (xy_df : DataFrame R)
    (initial_guess : option params) (n_samples : Z) (bounds : option bounds_t)
    (n_restarts seed : Z) (w w' : world) (fr : FitResult) :
  fit_params L xy_df initial_guess n_samples bounds n_restarts seed w = (Ok fr, w') ->
  exists x_obs y_obs t_samples rs d r,
    seed_in_range seed = true
    /\ df_get xy_df "x" = Ok x_obs
    /\ df_get xy_df "y" = Ok y_obs
    /\ get_uniform_t_values n_samples 6 60 = Ok t_samples
    /\ Forall2 (fun x0 r =>
                  minimize L (loss_on t_samples x_obs y_obs) x0
                           (box (bounds_or_default bounds)) = Ok r)
               (start_vectors L initial_guess bounds n_restarts seed) rs
    /\ differential_evolution L (loss_on t_samples x_obs y_obs)
         (box (bounds_or_default bounds)) seed = Ok d
    /\ fst (select (rs ++ [d])) = Some r
    /\ snd (select (rs ++ [d])) = res_fun r
    /\ fr = package r (res_fun r).
Proof.
  intros Hrun.
  destruct (seed_in_range seed) eqn:Hseed;
    [|rewrite (fit_params_bad_seed _ _ _ _ _ _ _ _ Hseed) in Hrun; discriminate].
  destruct (df_get xy_df "x") as [x_obs|e] eqn:Hx;
    [|rewrite (fit_params_no_x _ _ _ _ _ _ _ _ _ Hseed Hx) in Hrun; discriminate].
  destruct (df_get xy_df "y") as [y_obs|e] eqn:Hy;
    [|rewrite (fit_params_no_y _ _ _ _ _ _ _ _ _ _ Hseed Hx Hy) in Hrun; discriminate].
  destruct (get_uniform_t_values n_samples 6 60) as [t_samples|e] eqn:Ht;
    [|rewrite (fit_params_no_grid _ _ _ _ _ _ _ _ _ _ _ Hseed Hx Hy Ht) in Hrun;
      discriminate].
  destruct (minimizations_return_or_raise L (loss_on t_samples x_obs y_obs)
              (guess_or_default initial_guess) (bounds_or_default bounds)
              (random_sample L seed) (Z.to_nat n_restarts) 0%nat)
    as [[rs Hall]|[rs [e [Hlen [Hall He]]]]].
  - apply (Forall2_map_l_inv
             (fun x0 r => minimize L (loss_on t_samples x_obs y_obs) x0
                            (box (bounds_or_default bounds)) = Ok r)
             (start_vector (guess_or_default initial_guess)
                (bounds_or_default bounds) (random_sample L seed))) in Hall.
    change (map _ (seq 0 (Z.to_nat n_restarts)))
      with (start_vectors L initial_guess bounds n_restarts seed) in Hall.
    rewrite (fit_params_run _ _ _ _ _ _ _ _ _ _ _ _ Hseed Hx Hy Ht Hall) in Hrun.
    cbv zeta in Hrun.
    destruct (differential_evolution L (loss_on t_samples x_obs y_obs)
                (box (bounds_or_default bounds)) seed) as [d|e] eqn:Hde;
      [|discriminate].
    rewrite <- select_snoc in Hrun.
    pose proof (best_of_select (rs ++ [d])) as Hbest; unfold best_of in Hbest.
    destruct (fst (select (rs ++ [d]))) as [r|] eqn:Hsel; [|discriminate].
    destruct Hbest as [Hloss _].
    rewrite Hloss in Hrun; injection Hrun as <- _.
    exists x_obs, y_obs, t_samples, rs, d, r; repeat split; assumption.
  - rewrite (fit_params_restart_raises _ _ _ _ _ _ _ _ _ _ _ _ _
               Hseed Hx Hy Ht Hlen Hall He) in Hrun.
    discriminate.
Qed.

Lemma package_fields (r : OptimizeResult) (l : pyfloat) :
  fit_theta_deg (package r l) = fst (fst (res_x r))
  /\ fit_theta_rad (package r l) = deg_to_rad (fst (fst (res_x r)))
  /\ fit_M (package r l) = snd (fst (res_x r))
  /\ fit_X (package r l) = snd (res_x r)
  /\ fit_l1 (package r l) = l.
Proof.
  unfold package; destruct (res_x r) as [[theta_deg M0] X]; repeat split.
Qed.

(** ** Five runs that stop early *)






(** ** Independence from the world a run starts in *)

Lemma oblivious_ret {A : Type} (a : A) : oblivious (ret a).
Proof. intros w1 w2 H; split; [reflexivity | exact H]. Qed.

Lemma oblivious_lift {A : Type} (r : result A) : oblivious (lift r).
Proof. intros w1 w2 H; split; [reflexivity | exact H]. Qed.

Lemma oblivious_emit (e : event) : oblivious (emit e).
Proof. intros w1 w2 H; split; [reflexivity | exact H]. Qed.

Lemma oblivious_uniform (bound : R * R) : oblivious (np_random_uniform bound).
Proof.
  intros [g1 tr1] [g2 tr2] H; unfold same_rng in *; cbn [w_rng] in H; subst g2.
  unfold np_random_uniform; destruct bound as [low high]; cbn.
  split; reflexivity.
Qed.

Lemma oblivious_bind {A B : Type} (m : M A) (k : A -> M B) :
  oblivious m -> (forall a, oblivious (k a)) -> oblivious (bind m k).
Proof.
  intros Hm Hk w1 w2 H.
  destruct (Hm w1 w2 H) as [Hres Hrng].
  unfold bind.
  destruct (m w1) as [[a1|e1] w1']; destruct (m w2) as [[a2|e2] w2'];
    cbn [fst snd] in *; try discriminate.
  - injection Hres as <-; now apply Hk.
  - injection Hres as <-; split; [reflexivity | exact Hrng].
Qed.

Ltac oblivious_step :=
  first
    [ apply oblivious_ret
    | apply oblivious_lift
    | apply oblivious_emit
    | apply oblivious_uniform
    | apply oblivious_bind; [|intros]
    | match goal with
      | |- oblivious (if ?c then _ else _) => destruct c
      | |- oblivious (match ?x with Some _ => _ | None => _ end) => destruct x
      | |- oblivious (let '(_, _) := ?x in _) => destruct x
      end ].

Lemma oblivious_restart (L : libs) (f : objective) (guess : params)
    (b : bounds_t) (sb : list (R * R)) (n_restarts : Z) (i : nat) (acc : best) :
  oblivious (restart L f guess b sb n_restarts i acc).
Proof. unfold restart; repeat oblivious_step. Qed.

Lemma oblivious_for_each {A S : Type} (items : list A) (body : A -> S -> M S) :
  (forall i s, oblivious (body i s)) -> forall s, oblivious (for_each items body s).
Proof.
  intros Hbody; induction items as [|i items IH]; intros s; cbn [for_each].
  - apply oblivious_ret.
  - apply oblivious_bind; [apply Hbody | exact IH].
Qed.

(** Once the generator is seeded, nothing of the earlier world is left for
    an oblivious computation to see; a seed out of range raises the same
    error in every world. *)
Lemma seeded_run {A : Type} (L : libs) (seed : Z) (k : M A) :
  oblivious k ->
  forall w1 w2,
    fst (bind (np_random_seed L seed) (fun _ => k) w1)
    = fst (bind (np_random_seed L seed) (fun _ => k) w2).
Proof.
  intros Hk w1 w2; unfold bind, np_random_seed.
  destruct (seed_in_range seed); [apply Hk|]; reflexivity.
Qed.

(** ** Claims about the optimizer *)

(** C4: two runs on the same observed points, sample count, bounds, restart
    count and seed return the same result, whatever state the generator and
    the log were in when each run started. *)
Theorem fit_params_deterministic (L : libs) (xy_df : DataFrame R)
    (initial_guess : option params) (n_samples : Z) (bounds : option bounds_t)
    (n_restarts seed : Z) (w1 w2 : world) :
  fst (fit_params L xy_df initial_guess n_samples bounds n_restarts seed w1)
  = fst (fit_params L xy_df initial_guess n_samples bounds n_restarts seed w2).
Proof.
  unfold fit_params.
  apply seeded_run.
  repeat oblivious_step.
  apply oblivious_for_each; intros; apply oblivious_restart.
Qed.

Lemma start_vectors_seq (L : libs) (initial_guess : option params)
    (bounds : option bounds_t) (n_restarts seed : Z) (rs : list OptimizeResult) :
  length (start_vectors L initial_guess bounds n_restarts seed) = length rs ->
  map (fun i => CallMinimize
                  (start_vector (guess_or_default initial_guess)
                                (bounds_or_default bounds) (random_sample L seed) i))
      (seq 0 (length rs))
  = map CallMinimize (start_vectors L initial_guess bounds n_restarts seed).
Proof.
  unfold start_vectors, range; rewrite length_map, length_seq; intros ->.
  now rewrite map_map.
Qed.

(** The library calls of a run, whatever the global search returns. *)
Lemma fit_params_calls (L : libs) (xy_df : DataFrame R)
    (initial_guess : option params) (n_samples : Z) (bounds : option bounds_t)
    (n_restarts seed : Z) (w : world) (x_obs y_obs t_samples : array)
    (rs : list OptimizeResult) :
  seed_in_range seed = true ->
  df_get xy_df "x" = Ok x_obs ->
  df_get xy_df "y" = Ok y_obs ->
  get_uniform_t_values n_samples 6 60 = Ok t_samples ->
  Forall2 (fun x0 r =>
             minimize L (loss_on t_samples x_obs y_obs) x0
                      (box (bounds_or_default bounds)) = Ok r)
          (start_vectors L initial_guess bounds n_restarts seed) rs ->
  calls (w_trace (snd (fit_params L xy_df initial_guess n_samples bounds
                                  n_restarts seed w)))
  = calls (w_trace w)
    ++ map CallMinimize (start_vectors L initial_guess bounds n_restarts seed)
    ++ [CallDifferentialEvolution seed].
Proof.
  intros Hseed Hx Hy Ht Hall.
  rewrite (fit_params_run _ _ _ _ _ _ _ _ _ _ _ _ Hseed Hx Hy Ht Hall); cbv zeta.
  pose proof (start_vectors_seq L initial_guess bounds n_restarts seed rs
                (Forall2_length Hall)) as Hseq.
  destruct (differential_evolution L (loss_on t_samples x_obs y_obs)
              (box (bounds_or_default bounds)) seed) as [d|e];
    cbn [snd w_trace];
    repeat rewrite calls_app; try rewrite calls_final_events;
    change (LogInfo (StartingOptimization n_restarts) :: ?l)
      with ([LogInfo (StartingOptimization n_restarts)] ++ l);
    repeat rewrite calls_app;
    rewrite calls_loop_events, Hseq; cbn [calls filter is_call];
    trace_eq.
Qed.








(** The generator after a run: seeded from [seed], three samples drawn for
    every restart but the first. *)
Lemma fit_params_rng (L : libs) (xy_df : DataFrame R)
    (initial_guess : option params) (n_samples : Z) (bounds : option bounds_t)
    (n_restarts seed : Z) (w : world) (x_obs y_obs t_samples : array)
    (rs : list OptimizeResult) :
  seed_in_range seed = true ->
  df_get xy_df "x" = Ok x_obs ->
  df_get xy_df "y" = Ok y_obs ->
  get_uniform_t_values n_samples 6 60 = Ok t_samples ->
  Forall2 (fun x0 r =>
             minimize L (loss_on t_samples x_obs y_obs) x0
                      (box (bounds_or_default bounds)) = Ok r)
          (start_vectors L initial_guess bounds n_restarts seed) rs ->
  w_rng (snd (fit_params L xy_df initial_guess n_samples bounds n_restarts seed w))
  = mkRng (random_sample L seed) (3 * (Z.to_nat n_restarts - 1)).
Proof.
  intros Hseed Hx Hy Ht Hall.
  rewrite (fit_params_run _ _ _ _ _ _ _ _ _ _ _ _ Hseed Hx Hy Ht Hall); cbv zeta.
  apply Forall2_length in Hall.
  unfold start_vectors, range in Hall; rewrite length_map, length_seq in Hall.
  rewrite Hall.
  now destruct (differential_evolution L (loss_on t_samples x_obs y_obs)
                  (box (bounds_or_default bounds)) seed).
Qed.

(** Every draw moves the generator one sample further. *)
Lemma np_random_uniform_advances (bound : R * R) (w : world) :
  rng_pos (w_rng (snd (np_random_uniform bound w))) = S (rng_pos (w_rng w)).
Proof. destruct bound; reflexivity. Qed.






Lemma warnings_app (a b : list event) :
  filter is_warning (a ++ b) = filter is_warning a ++ filter is_warning b.
Proof. apply filter_app. Qed.

Lemma warnings_loop_events (guess : params) (b : bounds_t) (stream : nat -> R)
    (n_restarts : Z) (rs : list OptimizeResult) :
  forall (k : nat) (best_loss : pyfloat),
  filter is_warning (loop_events guess b stream n_restarts k rs best_loss) = [].
Proof.
  induction rs as [|r rs IH]; intros k best_loss; [reflexivity|].
  cbn [loop_events filter is_warning].
  destruct (pylt (res_fun r) best_loss); cbn [filter is_warning]; apply IH.
Qed.



(** ** The data loader *)

Lemma df_has_find {C : Type} (name : string) (df : DataFrame C) :
  df_has name df = match find_column name (df_columns df) with
                   | Some _ => true
                   | None => false
                   end.
Proof.
  unfold df_has, df_names.
  induction (df_columns df) as [|[n c] cols IH]; [reflexivity|].
  cbn [map fst existsb find_column].
  destruct (String.eqb name n); [reflexivity | exact IH].
Qed.

(** What [load_data] does with a table the reader returned. *)
Lemma load_data_table (read_csv : string -> result (DataFrame cell))
    (path : string) (df : DataFrame cell) :
  read_csv path = Ok df ->
  load_data read_csv path
  = match find_column "x" (df_columns df), find_column "y" (df_columns df) with
    | Some cx, Some cy =>
        if (df_len df <? 10)%nat then
          Raise (ValueError (msg_insufficient (df_len df)))
        else if existsb isna cx || existsb isna cy then
          Raise (ValueError msg_nan)
        else Ok (mkDataFrame (df_len df) [("x"%string, cx); ("y"%string, cy)])
    | _, _ => Raise (ValueError msg_columns)
    end.
Proof.
  intros Hread; unfold load_data; rewrite Hread.
  rewrite !df_has_find.
  unfold df_select; cbn [select_columns].
  destruct (find_column "x" (df_columns df)) as [cx|]; [|reflexivity].
  destruct (find_column "y" (df_columns df)) as [cy|]; [|reflexivity].
  cbn [negb orb rbind].
  destruct (df_len df <? 10)%nat; [reflexivity|].
  unfold df_any_isna; cbn [df_columns existsb snd].
  rewrite orb_false_r.
  destruct (existsb isna cx || existsb isna cy); reflexivity.
Qed.

Lemma msg_insufficient_head (n : nat) :
  exists s, msg_insufficient n = String "I"%char s.
Proof. unfold msg_insufficient; cbn [String.append]; eauto. Qed.

(** C9, as the code has it: [load_data] raises [FileNotFoundError] naming
    the path when the reader reports the file missing; on a table the reader
    returned it raises a [ValueError] with a message of its own when the
    table lacks an x or y column, else when it has fewer than 10 rows, else
    when x or y holds a missing value, and returns the data when none of
    these holds; the four errors differ from one another; every other error
    of the reader is passed on as it is. *)
Theorem load_data_errors (read_csv : string -> result (DataFrame cell))
    (path : string) :
  (file_missing read_csv path ->
   load_data read_csv path = Raise (FileNotFoundError (msg_not_found path)))
  /\ (forall df, read_csv path = Ok df ->
        (lacks_xy df ->
         load_data read_csv path = Raise (ValueError msg_columns))
        /\ (~ lacks_xy df -> too_few_rows df ->
            load_data read_csv path
            = Raise (ValueError (msg_insufficient (df_len df))))
        /\ (~ lacks_xy df -> ~ too_few_rows df -> xy_has_missing df ->
            load_data read_csv path = Raise (ValueError msg_nan))
        /\ (~ lacks_xy df -> ~ too_few_rows df -> ~ xy_has_missing df ->
            exists out, load_data read_csv path = Ok out))
  /\ (forall e, read_csv path = Raise e ->
        (forall m, e <> FileNotFoundError m) ->
        load_data read_csv path = Raise e)
  /\ (forall n m,
        FileNotFoundError (msg_not_found path) <> ValueError m
        /\ msg_columns <> msg_insufficient n
        /\ msg_columns <> msg_nan
        /\ msg_insufficient n <> msg_nan).
Proof.
  split; [|split; [|split]].
  - intros [m Hm]; unfold load_data; now rewrite Hm.
  - intros df Hread.
    rewrite (load_data_table read_csv path df Hread).
    unfold lacks_xy, too_few_rows, xy_has_missing, column_has_missing.
    rewrite !df_has_find.
    destruct (find_column "x" (df_columns df)) as [cx|];
      destruct (find_column "y" (df_columns df)) as [cy|];
      try (repeat split; intros; try reflexivity; exfalso; tauto).
    repeat split.
    + intros [H|H]; discriminate.
    + intros _ Hlen; apply Nat.ltb_lt in Hlen; now rewrite Hlen.
    + intros _ Hlen Hna.
      apply Nat.ltb_nlt in Hlen; rewrite Hlen.
      assert (Hor : existsb isna cx || existsb isna cy = true)
        by (apply orb_true_iff; exact Hna).
      now rewrite Hor.
    + intros _ Hlen Hna.
      apply Nat.ltb_nlt in Hlen; rewrite Hlen.
      assert (Hor : existsb isna cx || existsb isna cy = false).
      { apply not_true_is_false; intros H; apply Hna, orb_true_iff, H. }
      rewrite Hor; eauto.
  - intros e He Hne; unfold load_data; rewrite He.
    destruct e; try reflexivity.
    now destruct (Hne msg).
  - intros n m.
    destruct (msg_insufficient_head n) as [s Hs]; rewrite Hs.
    repeat split; discriminate.
Qed.

Lemma load_data_errors_witness :
  load_data example_read_csv "data/missing.csv"
  = Raise (FileNotFoundError (msg_not_found "data/missing.csv"))
  /\ exists out, load_data example_read_csv "data/xy.csv" = Ok out.
Proof.
  split.
  - destruct (load_data_errors example_read_csv "data/missing.csv")
      as (Hmissing & _).
    apply Hmissing.
    exists "No such file or directory"%string; reflexivity.
  - destruct (load_data_errors example_read_csv "data/xy.csv")
      as (_ & Htable & _).
    specialize (Htable example_table eq_refl).
    destruct Htable as (_ & _ & _ & Hok).
    apply Hok.
    + intros [H|H]; discriminate.
    + unfold too_few_rows; cbn [df_len example_table]; lia.
    + intros [H|H]; discriminate.
Defined.

(** C9, as stated, fails: the file is there, yet the reader cannot parse it;
    none of the four conditions holds and [load_data] raises the reader's
    error instead of returning the data. *)
Lemma load_data_other_reader_error :
  ~ file_missing example_read_csv "data/ragged.csv"
  /\ (forall df, example_read_csv "data/ragged.csv" = Ok df ->
        lacks_xy df \/ too_few_rows df \/ xy_has_missing df -> False)
  /\ load_data example_read_csv "data/ragged.csv"
     = Raise (LibraryError "pandas.errors.ParserError").
Proof.
  repeat split.
  - intros [m Hm]; discriminate.
  - intros df Hdf; discriminate.
Qed.

(** C10: a successful call returns the columns x and y of the table the
    reader returned, in this order and with the cells of every row in the
    source's order, under the source's row count, and no other column. *)
Theorem load_data_keeps_xy_rows (read_csv : string -> result (DataFrame cell))
    (path : string) (out : DataFrame cell) :
  load_data read_csv path = Ok out ->
  exists df cx cy,
    read_csv path = Ok df
    /\ find_column "x" (df_columns df) = Some cx
    /\ find_column "y" (df_columns df) = Some cy
    /\ df_names out = ["x"; "y"]%string
    /\ df_len out = df_len df
    /\ df_columns out = [("x"%string, cx); ("y"%string, cy)].
Proof.
  intros Hload.
  destruct (read_csv path) as [df|e] eqn:Hread.
  - rewrite (load_data_table read_csv path df Hread) in Hload.
    destruct (find_column "x" (df_columns df)) as [cx|] eqn:Hcx; [|discriminate].
    destruct (find_column "y" (df_columns df)) as [cy|] eqn:Hcy; [|discriminate].
    destruct (df_len df <? 10)%nat; [discriminate|].
    destruct (existsb isna cx || existsb isna cy); [discriminate|].
    injection Hload as <-.
    exists df, cx, cy; repeat split; assumption.
  - unfold load_data in Hload; rewrite Hread in Hload.
    destruct e; discriminate.
Qed.

Lemma load_data_keeps_xy_rows_witness :
  exists df cx cy,
    example_read_csv "data/xy.csv" = Ok df
    /\ find_column "x" (df_columns df) = Some cx
    /\ find_column "y" (df_columns df) = Some cy
    /\ df_names (mkDataFrame 10
                   [("x"%string, map Num [60; 61; 62; 63; 64; 65; 66; 67; 68; 69]);
                    ("y"%string, map Num [45; 46; 47; 48; 49; 50; 51; 52; 53; 54])])
       = ["x"; "y"]%string
    /\ df_len (mkDataFrame 10
                 [("x"%string, map Num [60; 61; 62; 63; 64; 65; 66; 67; 68; 69]);
                  ("y"%string, map Num [45; 46; 47; 48; 49; 50; 51; 52; 53; 54])])
       = df_len df
    /\ df_columns
         (mkDataFrame 10
            [("x"%string, map Num [60; 61; 62; 63; 64; 65; 66; 67; 68; 69]);
             ("y"%string, map Num [45; 46; 47; 48; 49; 50; 51; 52; 53; 54])])
       = [("x"%string, cx); ("y"%string, cy)].
Proof.
  apply (load_data_keeps_xy_rows example_read_csv "data/xy.csv").
  reflexivity.
Defined.

(** * Further properties of the optimizer *)

Lemma df_get_missing {C : Type} (df : DataFrame C) (name : string) :
  df_has name df = false -> df_get df name = Raise (KeyError name).
Proof.
  rewrite df_has_find; unfold df_get.
  destruct (find_column name (df_columns df)); [discriminate | reflexivity].
Qed.

Lemma df_get_present {C : Type} (df : DataFrame C) (name : string) :
  df_has name df = true -> exists c, df_get df name = Ok c.
Proof.
  rewrite df_has_find; unfold df_get.
  destruct (find_column name (df_columns df)); [eauto | discriminate].
Qed.

(** [np.random.seed(seed)] is the first statement of [fit_params]: a seed
    outside 0 .. 2^32 - 1 stops the run with [ValueError] and leaves the
    global generator as it was.  With a seed in range, a frame without an x
    or y column, or a negative sample count, stops the run with [KeyError]
    (x is looked up first) or [ValueError], after the generator has been
    re-seeded.  In all four cases nothing is logged and no minimizer is
    called. *)
Theorem fit_params_rejects_before_optimizing (L : libs) (xy_df : DataFrame R)
    (initial_guess : option params) (n_samples : Z) (bounds : option bounds_t)
    (n_restarts seed : Z) (w : world) :
  seed_in_range seed = false \/ df_has "x" xy_df = false
  \/ df_has "y" xy_df = false \/ (n_samples < 0)%Z ->
  let out := fit_params L xy_df initial_guess n_samples bounds n_restarts seed w in
  (exists msg,
     fst out
     = Raise (if negb (seed_in_range seed) then ValueError msg
              else if negb (df_has "x" xy_df) then KeyError "x"
              else if negb (df_has "y" xy_df) then KeyError "y"
              else ValueError msg))
  /\ w_trace (snd out) = w_trace w
  /\ w_rng (snd out)
     = (if seed_in_range seed then mkRng (random_sample L seed) 0 else w_rng w).
Proof.
  intros Hbad; cbv zeta.
  destruct (seed_in_range seed) eqn:Hseed; cbn [negb].
  2:{ rewrite fit_params_bad_seed by exact Hseed.
      split; [exists msg_seed; reflexivity | split; reflexivity]. }
  destruct Hbad as [Hbad|Hbad]; [discriminate|].
  destruct (df_has "x" xy_df) eqn:Hhx; cbn [negb].
  - destruct (df_get_present xy_df "x" Hhx) as [x_obs Hx].
    destruct (df_has "y" xy_df) eqn:Hhy; cbn [negb].
    + destruct (df_get_present xy_df "y" Hhy) as [y_obs Hy].
      destruct Hbad as [Hbad|[Hbad|Hneg]]; try discriminate.
      apply Z.ltb_lt in Hneg.
      rewrite (fit_params_no_grid L xy_df _ _ _ _ _ w x_obs y_obs
                 (ValueError (msg_samples n_samples)) Hseed Hx Hy).
      * split; [exists (msg_samples n_samples); reflexivity | split; reflexivity].
      * unfold get_uniform_t_values, np_linspace; now rewrite Hneg.
    + rewrite (fit_params_no_y L xy_df _ _ _ _ _ w x_obs (KeyError "y") Hseed Hx
                 (df_get_missing xy_df "y" Hhy)).
      split; [exists EmptyString; reflexivity | split; reflexivity].
  - rewrite (fit_params_no_x L xy_df _ _ _ _ _ w (KeyError "x") Hseed
               (df_get_missing xy_df "x" Hhx)).
    split; [exists EmptyString; reflexivity | split; reflexivity].
Qed.

Lemma fit_params_rejects_before_optimizing_witness :
  (exists msg,
     fst (fit_params example_libs example_frame_no_y None 2 None 3 (-1)
                     example_world)
     = Raise (ValueError msg))
  /\ w_trace (snd (fit_params example_libs example_frame_no_y None 2 None 3 (-1)
                              example_world)) = []
  /\ w_rng (snd (fit_params example_libs example_frame_no_y None 2 None 3 (-1)
                            example_world))
     = mkRng (fun _ => 0) 7.
Proof.
  apply (fit_params_rejects_before_optimizing example_libs example_frame_no_y
           None 2 None 3 (-1) example_world).
  left; reflexivity.
Defined.






(** ** Runs that return *)

(** Whatever the libraries do, a run that returns a record was given a
    seed in 0 .. 2^32 - 1 and has made [n_restarts] local minimizations and
    then one global search; the record's [theta_rad] is [deg_to_rad] of its
    [theta_deg], and its [l1] is neither NaN nor [float('inf')]: a loss
    replaces the best so far, which starts at [float('inf')], only when it
    is strictly below it. *)
Theorem fit_params_result_invariants (L : libs) (xy_df : DataFrame R)
    (initial_guess : option params) (n_samples : Z) (bounds : option bounds_t)
    (n_restarts seed : Z) (w w' : world) (fr : FitResult) :
  fit_params L xy_df initial_guess n_samples bounds n_restarts seed w = (Ok fr, w') ->
  seed_in_range seed = true
  /\ fit_theta_rad fr = deg_to_rad (fit_theta_deg fr)
  /\ fit_l1 fr <> NaN
  /\ fit_l1 fr <> Inf
  /\ calls (w_trace w')
     = calls (w_trace w)
       ++ map CallMinimize (start_vectors L initial_guess bounds n_restarts seed)
       ++ [CallDifferentialEvolution seed].
Proof.
  intros Hrun.
  destruct (fit_params_ok_inv _ _ _ _ _ _ _ _ _ _ Hrun)
    as (x_obs & y_obs & t_samples & rs & d & r & Hseed & Hx & Hy & Ht & Hall
        & Hde & Hsel & Hloss & ->).
  destruct (package_fields r (res_fun r)) as (Hdeg & Hrad & _ & _ & Hl1).
  split; [exact Hseed|].
  split; [now rewrite Hrad, Hdeg|].
  assert (Hfin : exists v, res_fun r = Fin v).
  { pose proof (best_of_select (rs ++ [d])) as Hbest; unfold best_of in Hbest.
    rewrite Hsel in Hbest.
    destruct Hbest as [_ [i (_ & Hinf & _)]].
    exact (pylt_true_fin _ _ Hinf). }
  destruct Hfin as [v Hv]; rewrite Hl1, Hv.
  split; [discriminate|]; split; [discriminate|].
  - pose proof (fit_params_calls _ _ _ _ _ _ _ w _ _ _ _ Hseed Hx Hy Ht Hall) as Hc.
    now rewrite Hrun in Hc.
Qed.

(** The example run with one restart returns the initial guess. *)
Lemma example_run :
  fit_params example_libs example_frame None 2 None 1 42 example_world
  = (Ok (mkFitResult 25 (deg_to_rad 25) 0 50 (Fin 1)),
     snd (fit_params example_libs example_frame None 2 None 1 42 example_world)).
Proof.
  rewrite (fit_params_run example_libs example_frame None 2 None 1 42
             example_world [60; 70] [45; 50] [6; 60]
             [mkOptimizeResult (25, 0, 50) (Fin 1)]);
    [| reflexivity | reflexivity | reflexivity | reflexivity
     | repeat constructor].
  cbv zeta; cbn [differential_evolution example_libs].
  unfold select; cbn [fold_left].
  unfold better, pylt; cbn [res_fun snd fst].
  destruct (Rlt_dec 1 1) as [H|H]; [exfalso; lra|].
  cbn [fst snd]; reflexivity.
Qed.

Lemma fit_params_result_invariants_witness :
  seed_in_range 42 = true
  /\ fit_theta_rad (mkFitResult 25 (deg_to_rad 25) 0 50 (Fin 1))
     = deg_to_rad (fit_theta_deg (mkFitResult 25 (deg_to_rad 25) 0 50 (Fin 1)))
  /\ fit_l1 (mkFitResult 25 (deg_to_rad 25) 0 50 (Fin 1)) <> NaN
  /\ fit_l1 (mkFitResult 25 (deg_to_rad 25) 0 50 (Fin 1)) <> Inf
  /\ calls (w_trace (snd (fit_params example_libs example_frame None 2 None 1 42
                                     example_world)))
     = calls (w_trace example_world)
       ++ map CallMinimize (start_vectors example_libs None None 1 42)
       ++ [CallDifferentialEvolution 42].
Proof.
  apply (fit_params_result_invariants example_libs example_frame None 2 None 1 42
           example_world _ _ example_run).
Defined.

Lemma In_nth_error_sig {A : Type} (l : list A) (a : A) :
  In a l -> exists j, nth_error l j = Some a.
Proof. apply In_nth_error. Qed.

(** The record a run returns holds the parameters of one of the candidates
    (the results of the restarts and of the global search), its [l1] is that
    candidate's loss, and no candidate has a smaller loss. *)
Theorem fit_params_returns_least_loss (L : libs) (xy_df : DataFrame R)
    (initial_guess : option params) (n_samples : Z) (bounds : option bounds_t)
    (n_restarts seed : Z) (w w' : world) (fr : FitResult) :
  fit_params L xy_df initial_guess n_samples bounds n_restarts seed w = (Ok fr, w') ->
  exists x_obs y_obs t_samples rs d r v,
    Forall2 (fun x0 r =>
               minimize L (loss_on t_samples x_obs y_obs) x0
                        (box (bounds_or_default bounds)) = Ok r)
            (start_vectors L initial_guess bounds n_restarts seed) rs
    /\ differential_evolution L (loss_on t_samples x_obs y_obs)
         (box (bounds_or_default bounds)) seed = Ok d
    /\ In r (rs ++ [d])
    /\ res_x r = (fit_theta_deg fr, fit_M fr, fit_X fr)
    /\ res_fun r = Fin v
    /\ fit_l1 fr = Fin v
    /\ forall c u, In c (rs ++ [d]) -> res_fun c = Fin u -> v <= u.
Proof.
  intros Hrun.
  destruct (fit_params_ok_inv _ _ _ _ _ _ _ _ _ _ Hrun)
    as (x_obs & y_obs & t_samples & rs & d & r & Hseed & Hx & Hy & Ht & Hall
        & Hde & Hsel & Hloss & ->).
  pose proof (best_of_select (rs ++ [d])) as Hbest; unfold best_of in Hbest.
  rewrite Hsel in Hbest.
  destruct Hbest as [_ [i (Hi & Hinf & Hbefore & Hafter)]].
  destruct (pylt_true_fin _ _ Hinf) as [v Hv].
  destruct (package_fields r (res_fun r)) as (Hdeg & _ & HM & HX & Hl1).
  exists x_obs, y_obs, t_samples, rs, d, r, v.
  split; [exact Hall|]; split; [exact Hde|].
  split; [eapply nth_error_In; exact Hi|].
  split; [rewrite Hdeg, HM, HX; now destruct (res_x r) as [[a b] c]|].
  split; [exact Hv|]; split; [now rewrite Hl1|].
  intros c u Hc Hu.
  apply In_nth_error_sig in Hc as [j Hj].
  destruct (lt_eq_lt_dec j i) as [[Hji|Hji]|Hji].
  - assert (Hlt : pylt (res_fun r) (res_fun c) = true)
      by (apply (Hbefore j c Hji Hj); rewrite Hu; discriminate).
    rewrite Hv, Hu in Hlt; pylt_cases.
  - subst j; rewrite Hi in Hj; injection Hj as <-.
    rewrite Hv in Hu; injection Hu as <-; lra.
  - pose proof (Hafter j c Hji Hj) as Hlt.
    rewrite Hv, Hu in Hlt; pylt_cases.
Qed.

Lemma fit_params_returns_least_loss_witness :
  exists x_obs y_obs t_samples rs d r v,
    Forall2 (fun x0 r =>
               minimize example_libs (loss_on t_samples x_obs y_obs) x0
                        (box (bounds_or_default None)) = Ok r)
            (start_vectors example_libs None None 1 42) rs
    /\ differential_evolution example_libs (loss_on t_samples x_obs y_obs)
         (box (bounds_or_default None)) 42 = Ok d
    /\ In r (rs ++ [d])
    /\ res_x r = (25, 0, 50)
    /\ res_fun r = Fin v
    /\ Fin 1 = Fin v
    /\ forall c u, In c (rs ++ [d]) -> res_fun c = Fin u -> v <= u.
Proof.
  apply (fit_params_returns_least_loss example_libs example_frame None 2 None 1
           42 example_world _ _ example_run).
Defined.




(** With [n_restarts <= 0] there is no local minimization: the global
    search is the only library call, and its result is returned when its
    loss is a number. *)
Theorem fit_params_without_restarts (L : libs) (xy_df : DataFrame R)
    (initial_guess : option params) (n_samples : Z) (bounds : option bounds_t)
    (n_restarts seed : Z) (w : world) (x_obs y_obs t_samples : array)
    (d : OptimizeResult) (v : R) :
  (n_restarts <= 0)%Z ->
  seed_in_range seed = true ->
  df_get xy_df "x" = Ok x_obs ->
  df_get xy_df "y" = Ok y_obs ->
  get_uniform_t_values n_samples 6 60 = Ok t_samples ->
  differential_evolution L (loss_on t_samples x_obs y_obs)
    (box (bounds_or_default bounds)) seed = Ok d ->
  res_fun d = Fin v ->
  let out := fit_params L xy_df initial_guess n_samples bounds n_restarts seed w in
  fst out = Ok (package d (Fin v))
  /\ calls (w_trace (snd out))
     = calls (w_trace w) ++ [CallDifferentialEvolution seed]
  /\ w_rng (snd out) = mkRng (random_sample L seed) 0.
Proof.
  intros Hn Hseed Hx Hy Ht Hde Hv; cbv zeta.
  assert (Hstarts : start_vectors L initial_guess bounds n_restarts seed = []).
  { unfold start_vectors, range.
    replace (Z.to_nat n_restarts) with 0%nat by lia; reflexivity. }
  assert (Hall : Forall2 (fun x0 r =>
             minimize L (loss_on t_samples x_obs y_obs) x0
                      (box (bounds_or_default bounds)) = Ok r)
          (start_vectors L initial_guess bounds n_restarts seed) [])
    by (rewrite Hstarts; constructor).
  pose proof (fit_params_calls _ _ _ _ _ _ _ w _ _ _ _ Hseed Hx Hy Ht Hall) as Hc.
  rewrite Hstarts in Hc; cbn [map app] in Hc.
  split; [|split; [exact Hc|]].
  - rewrite (fit_params_run _ _ _ _ _ _ _ _ _ _ _ _ Hseed Hx Hy Ht Hall); cbv zeta.
    rewrite Hde; cbn [fst].
    unfold select; cbn [fold_left].
    unfold better; cbn [snd]; rewrite Hv; reflexivity.
  - rewrite (fit_params_rng _ _ _ _ _ _ _ w _ _ _ _ Hseed Hx Hy Ht Hall).
    now replace (Z.to_nat n_restarts) with 0%nat by lia.
Qed.

Lemma fit_params_without_restarts_witness :
  fst (fit_params example_libs example_frame None 2 None 0 42 example_world)
  = Ok (package (mkOptimizeResult (1 / 10, - (49 / 1000), 1 / 10) (Fin 1)) (Fin 1)).
Proof.
  apply (fit_params_without_restarts example_libs example_frame None 2 None 0 42
           example_world [60; 70] [45; 50] [6; 60]
           (mkOptimizeResult (1 / 10, - (49 / 1000), 1 / 10) (Fin 1)) 1);
    first [reflexivity | lia].
Defined.

Lemma Rltb_true (a b : R) : a < b -> Rltb a b = true.
Proof. intros H; unfold Rltb; destruct (Rlt_dec a b); [reflexivity | contradiction]. Qed.

Lemma validate_bounds_true_iff (theta_deg M X : R) :
  validate_bounds theta_deg M X = true
  <-> 0 < theta_deg < 50 /\ - (5 / 100) < M < 5 / 100 /\ 0 < X < 100.
Proof.
  unfold validate_bounds, Rltb; cbv zeta.
  repeat match goal with
         | |- context [Rlt_dec ?a ?b] => destruct (Rlt_dec a b)
         end; cbn [andb]; split; intros H; try discriminate; try reflexivity;
    try (repeat split; assumption); exfalso; tauto.
Qed.

(** Every point of the default search box passes [validate_bounds]. *)
Lemma default_box_valid (p : params) :
  in_box default_bounds p ->
  let '(theta_deg, M, X) := p in validate_bounds theta_deg M X = true.
Proof.
  destruct p as [[theta_deg M] X]; unfold in_box, default_bounds.
  cbn [b_theta_deg b_M b_X fst snd]; intros (Ht & HM & HX).
  apply validate_bounds_true_iff; lra.
Qed.

(** With the default bounds and minimizers that stay in the box, a run logs
    no warning, and the parameters it returns pass [validate_bounds]. *)
Theorem fit_params_default_box_validated (L : libs) (xy_df : DataFrame R)
    (initial_guess : option params) (n_samples : Z) (n_restarts seed : Z)
    (w : world) (x_obs y_obs t_samples : array) (rs : list OptimizeResult)
    (d : OptimizeResult) :
  df_get xy_df "x" = Ok x_obs ->
  df_get xy_df "y" = Ok y_obs ->
  get_uniform_t_values n_samples 6 60 = Ok t_samples ->
  Forall2 (fun x0 r =>
             minimize L (loss_on t_samples x_obs y_obs) x0 (box default_bounds)
             = Ok r)
          (start_vectors L initial_guess None n_restarts seed) rs ->
  differential_evolution L (loss_on t_samples x_obs y_obs) (box default_bounds)
    seed = Ok d ->
  Forall (fun c => in_box default_bounds (res_x c)) (rs ++ [d]) ->
  let out := fit_params L xy_df initial_guess n_samples None n_restarts seed w in
  filter is_warning (w_trace (snd out)) = filter is_warning (w_trace w)
  /\ forall fr, fst out = Ok fr ->
       validate_bounds (fit_theta_deg fr) (fit_M fr) (fit_X fr) = true.
Proof.
  intros Hx Hy Ht Hall Hde Hbox; cbv zeta.
  destruct (seed_in_range seed) eqn:Hseed;
    [|rewrite fit_params_bad_seed by exact Hseed;
      split; [reflexivity | discriminate]].
  rewrite (fit_params_run _ _ _ _ None _ _ _ _ _ _ _ Hseed Hx Hy Ht Hall); cbv zeta.
  cbn [bounds_or_default]; rewrite Hde; cbn [fst snd w_trace].
  rewrite <- select_snoc.
  pose proof (best_of_select (rs ++ [d])) as Hbest; unfold best_of in Hbest.
  unfold final_events; rewrite <- select_snoc.
  destruct (fst (select (rs ++ [d]))) as [r|].
  - destruct Hbest as [Hloss [i (Hi & _)]].
    assert (Hr : in_box default_bounds (res_x r)).
    { rewrite Forall_forall in Hbox; apply Hbox.
      eapply nth_error_In; exact Hi. }
    apply default_box_valid in Hr.
    split.
    + destruct (res_x r) as [[theta_deg M0] X]; rewrite Hr; cbn [negb].
      repeat first [rewrite warnings_app | progress cbn [filter is_warning]].
      rewrite warnings_loop_events.
      destruct (pylt (res_fun d) (snd (select rs))); cbn [filter is_warning app];
        now rewrite !app_nil_r.
    + intros fr Hfr; injection Hfr as <-.
      destruct (package_fields r (snd (select (rs ++ [d]))))
        as (Hdeg & _ & HM & HX & _).
      rewrite Hdeg, HM, HX.
      now destruct (res_x r) as [[theta_deg M0] X].
  - split; [|discriminate].
    repeat first [rewrite warnings_app | progress cbn [filter is_warning]].
    rewrite warnings_loop_events.
    destruct (pylt (res_fun d) (snd (select rs))); cbn [filter is_warning app];
      now rewrite !app_nil_r.
Qed.

Lemma fit_params_default_box_validated_witness :
  filter is_warning
    (w_trace (snd (fit_params example_libs example_frame None 2 None 1 42
                              example_world)))
  = filter is_warning (w_trace example_world).
Proof.
  apply (fit_params_default_box_validated example_libs example_frame None 2 1 42
           example_world [60; 70] [45; 50] [6; 60]
           [mkOptimizeResult (25, 0, 50) (Fin 1)]
           (mkOptimizeResult (1 / 10, - (49 / 1000), 1 / 10) (Fin 1)));
    try reflexivity.
  - repeat constructor.
  - repeat constructor; cbn; lra.
Defined.

(** * Further properties of the curve model and the loss *)

Lemma Forall2_map_r {A B : Type} (P : A -> B -> Prop) (g : A -> B) (l : list A) :
  (forall a, P a (g a)) -> Forall2 P l (map g l).
Proof. intros H; induction l; cbn [map]; constructor; auto. Qed.

Lemma combine_map_l {A B C : Type} (g : A -> C) (l : list A) (l' : list B) :
  combine (map g l) l' = map (fun p => (g (fst p), snd p)) (combine l l').
Proof.
  revert l'; induction l as [|a l IH]; intros [|b l']; cbn [map combine];
    try reflexivity.
  now rewrite IH.
Qed.

(** [zip] pairs the observed coordinates: coordinates beyond the shorter of
    the two arrays are ignored. *)
Theorem l1_loss_ignores_unpaired (p : params) (t_samples x_obs y_obs : array) :
  let n := Nat.min (length x_obs) (length y_obs) in
  l1_loss p t_samples x_obs y_obs
  = l1_loss p t_samples (firstn n x_obs) (firstn n y_obs).
Proof.
  cbv zeta; destruct p as [[theta_deg M] X].
  unfold l1_loss.
  rewrite <- combine_firstn, <- length_combine, firstn_all; reflexivity.
Qed.

(** The loop, as a function of the observed points. *)
Lemma min_distances_loop_map (p : params) (t_samples : array) :
  t_samples <> [] ->
  forall (obs : list (R * R)) (acc : array),
  let '(theta_deg, M, X) := p in
  min_distances_loop (map (curve_x theta_deg M X) t_samples)
                     (map (curve_y theta_deg M X) t_samples) acc obs
  = Ok (acc ++ map (least_distance p t_samples) obs).
Proof.
  intros Ht obs.
  destruct p as [[theta_deg M] X].
  induction obs as [|[x_o y_o] rest IH]; intros acc.
  - cbn [min_distances_loop map]; now rewrite app_nil_r.
  - cbn [min_distances_loop].
    pose proof (dists_euclid (theta_deg, M, X) t_samples (x_o, y_o)) as Hd.
    cbn [fst snd] in Hd; rewrite Hd.
    unfold least_distance at 1; cbn [map].
    destruct t_samples as [|t0 ts]; [congruence|].
    cbn [map np_min rbind].
    rewrite IH, <- app_assoc; reflexivity.
Qed.

Lemma l1_loss_value (p : params) (t_samples x_obs y_obs : array) :
  t_samples <> [] ->
  l1_loss p t_samples x_obs y_obs
  = Ok (np_mean (map (least_distance p t_samples) (combine x_obs y_obs))).
Proof.
  intros Ht.
  pose proof (min_distances_loop_map p t_samples Ht (combine x_obs y_obs) []) as H.
  destruct p as [[theta_deg M] X].
  unfold l1_loss; rewrite predict_map, H; reflexivity.
Qed.

Lemma least_distance_is_minimum (p : params) (t_samples : array) (o : R * R) :
  t_samples <> [] ->
  is_minimum (least_distance p t_samples o)
             (map (fun t => euclid o (curve_point p t)) t_samples).
Proof.
  intros Ht; unfold least_distance.
  destruct t_samples as [|t0 ts]; [congruence|]; cbn [map].
  apply fold_left_Rmin_is_minimum.
Qed.

Lemma sum_list_le (a b : list R) :
  Forall2 Rle a b -> sum_list a <= sum_list b.
Proof. induction 1; unfold sum_list in *; simpl; lra. Qed.

Lemma arithmetic_mean_le (a b : list R) :
  a <> [] -> Forall2 Rle a b -> arithmetic_mean a <= arithmetic_mean b.
Proof.
  intros Ha H; unfold arithmetic_mean.
  rewrite <- (Forall2_length H).
  assert (Hn : 0 < INR (length a)).
  { apply lt_0_INR; destruct a; [congruence | cbn; lia]. }
  apply Rmult_le_compat_r; [left; now apply Rinv_0_lt_compat|].
  now apply sum_list_le.
Qed.

Lemma Forall2_map_map {A : Type} (P : R -> R -> Prop) (g h : A -> R) (l : list A) :
  (forall a, In a l -> P (g a) (h a)) -> Forall2 P (map g l) (map h l).
Proof.
  induction l as [|a l IH]; intros H; cbn [map]; constructor.
  - apply H; now left.
  - apply IH; intros b Hb; apply H; now right.
Qed.

(** Over the reals: when every sample of [t_samples] is also in
    [t_samples'], the loss on [t_samples'] is at most the loss on
    [t_samples]. *)
Lemma more_samples_lower_loss (p : params) (t_samples t_samples' x_obs y_obs : array) :
  t_samples <> [] ->
  combine x_obs y_obs <> [] ->
  incl t_samples t_samples' ->
  exists v v',
    l1_loss p t_samples x_obs y_obs = Ok (Fin v)
    /\ l1_loss p t_samples' x_obs y_obs = Ok (Fin v')
    /\ v' <= v.
Proof.
  intros Ht Hobs Hincl.
  assert (Ht' : t_samples' <> []).
  { destruct t_samples as [|t0 ts]; [congruence|].
    intros ->; apply (Hincl t0); now left. }
  assert (Hne : forall q ts, map (least_distance q ts) (combine x_obs y_obs) <> []).
  { intros q ts H; apply map_eq_nil in H; contradiction. }
  exists (arithmetic_mean (map (least_distance p t_samples) (combine x_obs y_obs))),
         (arithmetic_mean (map (least_distance p t_samples') (combine x_obs y_obs))).
  rewrite !l1_loss_value, !np_mean_nonempty by auto.
  split; [reflexivity|]; split; [reflexivity|].
  apply arithmetic_mean_le; [apply Hne|].
  apply Forall2_map_map; intros o _.
  destruct (least_distance_is_minimum p t_samples o Ht) as [Hin _].
  destruct (least_distance_is_minimum p t_samples' o Ht') as [_ Hle].
  apply Hle.
  apply in_map_iff in Hin as [t [Heq Hin]].
  apply in_map_iff; exists t; split; [exact Heq | now apply Hincl].
Qed.

(** Sampling the curve at more points never raises the loss: on inputs
    within range, when every sample of [t_samples] is also in [t_samples'],
    the loss on [t_samples'] is at most the loss on [t_samples]. *)
Theorem l1_loss_more_samples (p : params) (t_samples t_samples' x_obs y_obs : array) :
  within_range p t_samples x_obs y_obs ->
  within_range p t_samples' x_obs y_obs ->
  t_samples <> [] ->
  combine x_obs y_obs <> [] ->
  incl t_samples t_samples' ->
  exists v v',
    Float64.l1_loss (finite_params p) (finite_array t_samples)
      (finite_array x_obs) (finite_array y_obs) = Ok (Float64.fin v)
    /\ Float64.l1_loss (finite_params p) (finite_array t_samples')
         (finite_array x_obs) (finite_array y_obs) = Ok (Float64.fin v')
    /\ v' <= v.
Proof.
  intros Hr Hr' Ht Hobs Hincl.
  destruct (more_samples_lower_loss p t_samples t_samples' x_obs y_obs
              Ht Hobs Hincl) as (v & v' & Hv & Hv' & Hle).
  exists v, v'.
  rewrite !l1_loss_within_range by assumption.
  rewrite Hv, Hv'.
  split; [reflexivity|]; split; [reflexivity | exact Hle].
Qed.

Lemma l1_loss_more_samples_witness :
  exists v v',
    Float64.l1_loss (finite_params (25, 1 / 100, 50)) (finite_array [6; 60])
      (finite_array [60; 70]) (finite_array [45; 50]) = Ok (Float64.fin v)
    /\ Float64.l1_loss (finite_params (25, 1 / 100, 50)) (finite_array [6; 33; 60])
         (finite_array [60; 70]) (finite_array [45; 50]) = Ok (Float64.fin v')
    /\ v' <= v.
Proof.
  apply (l1_loss_more_samples (25, 1 / 100, 50) [6; 60] [6; 33; 60]
           [60; 70] [45; 50]).
  - apply example_within_range; forall_list lra.
  - apply example_within_range; forall_list lra.
  - discriminate.
  - cbn; discriminate.
  - intros t [<-|[<-|[]]]; cbn; auto.
Defined.

(** * Further properties of the sample grid and the data loader *)

Lemma nth_map_seq (g : nat -> R) (num i : nat) :
  (i < num)%nat -> nth i (map g (seq 0 num)) 0 = g i.
Proof.
  intros Hi.
  rewrite (nth_indep _ 0 (g 0%nat)) by (now rewrite length_map, length_seq).
  rewrite map_nth, seq_nth by exact Hi; reflexivity.
Qed.

Lemma linspace_grid (n : Z) (t_min t_max : R) :
  (0 <= n)%Z ->
  exists ts,
    get_uniform_t_values n t_min t_max = Ok ts
    /\ length ts = Z.to_nat n
    /\ (forall i, (i < Z.to_nat n)%nat -> (2 <= n)%Z ->
          nth i ts 0
          = t_min + INR i * ((t_max - t_min) / INR (Z.to_nat n - 1)))
    /\ ((1 <= n)%Z -> nth 0 ts 0 = t_min)
    /\ ((2 <= n)%Z -> nth (Z.to_nat n - 1) ts 0 = t_max)
    /\ (t_min <= t_max -> Forall (fun v => t_min <= v <= t_max) ts).
Proof.
  intros Hn.
  unfold get_uniform_t_values, np_linspace.
  destruct (n <? 0)%Z eqn:Hneg; [apply Z.ltb_lt in Hneg; lia|].
  eexists; split; [reflexivity|].
  split; [now rewrite length_map, length_seq|].
  set (num := Z.to_nat n).
  split; [|split; [|split]].
  - intros i Hi H2.
    rewrite nth_map_seq by exact Hi.
    assert (Hm : 0 < INR (num - 1)) by (apply lt_0_INR; subst num; lia).
    destruct (i =? 0)%nat eqn:H0.
    + apply Nat.eqb_eq in H0; subst i; simpl; ring.
    + destruct (i =? num - 1)%nat eqn:Hlast; [|reflexivity].
      apply Nat.eqb_eq in Hlast; subst i; field; lra.
  - intros H1; rewrite nth_map_seq by (subst num; lia); reflexivity.
  - intros H2; rewrite nth_map_seq by (subst num; lia).
    destruct (num - 1 =? 0)%nat eqn:H0; [apply Nat.eqb_eq in H0; subst num; lia|].
    now rewrite Nat.eqb_refl.
  - intros Hle.
    apply Forall_map, Forall_forall; intros i Hi.
    apply in_seq in Hi.
    destruct (i =? 0)%nat eqn:H0; [lra|].
    destruct (i =? num - 1)%nat eqn:Hlast; [lra|].
    apply Nat.eqb_neq in H0, Hlast.
    assert (Hi1 : (1 <= i)%nat) by lia.
    assert (Hi2 : (i + 1 <= num - 1)%nat) by lia.
    apply le_INR in Hi1, Hi2.
    rewrite plus_INR in Hi2; simpl in Hi1, Hi2.
    set (k := INR i) in *; set (m := INR (num - 1)) in *.
    assert (Hm : 0 < m) by lra.
    assert (Hq : 0 <= k * / m <= 1).
    { split.
      - apply Rmult_le_pos; [lra | left; now apply Rinv_0_lt_compat].
      - apply Rmult_le_reg_r with m; [exact Hm|].
        rewrite Rmult_assoc, Rinv_l by lra; lra. }
    replace (t_min + k * ((t_max - t_min) / m))
      with (t_min + (t_max - t_min) * (k * / m)) by (unfold Rdiv; ring).
    nra.
Qed.



(** With M in the validation bounds no exponential overflows on the grid
    of a fit. *)
Lemma grid_exp_within_range (theta_deg M X : R) (n_samples : Z) (t_samples : array) :
  isfinite theta_deg ->
  - (5 / 100) < M < 5 / 100 ->
  get_uniform_t_values n_samples 6 60 = Ok t_samples ->
  exp_within_range (theta_deg, M, X) t_samples.
Proof.
  intros Hth HM Hts.
  apply validated_exp_within_range; [exact Hth | exact HM|].
  now apply uniform_t_values_range in Hts.
Qed.

(** The objective of a fit is the loss on the grid over [6, 60].  With at
    least one sample and one observed point it returns, at every parameter
    vector with a finite angle and M in the validation bounds, a value that
    is not negative; with no sample it raises at every parameter vector. *)
Theorem fit_objective_on_grid (n_samples : Z) (x_obs y_obs : array) :
  combine x_obs y_obs <> [] ->
  ((1 <= n_samples)%Z ->
   exists t_samples,
     get_uniform_t_values n_samples 6 60 = Ok t_samples
     /\ forall theta_deg M X,
          isfinite theta_deg ->
          - (5 / 100) < M < 5 / 100 ->
          exists v,
            Float64.l1_loss (finite_params (theta_deg, M, X))
              (finite_array t_samples) (finite_array x_obs) (finite_array y_obs)
            = Ok v
            /\ Float64.nonneg v)
  /\ (n_samples = 0%Z ->
      get_uniform_t_values n_samples 6 60 = Ok []
      /\ forall p,
           Float64.l1_loss p (finite_array []) (finite_array x_obs)
             (finite_array y_obs)
           = Raise (ValueError zero_size_minimum)).
Proof.
  intros Hobs; split.
  - intros Hn.
    destruct (linspace_grid n_samples 6 60) as [ts [Hts [Hlen _]]]; [lia|].
    exists ts; split; [exact Hts|].
    assert (Hne : ts <> []) by (intros ->; cbn in Hlen; lia).
    intros theta_deg M X Hth HM.
    apply (l1_loss_not_negative (theta_deg, M, X) ts x_obs y_obs);
      [|exact Hne | exact Hobs].
    now apply (grid_exp_within_range theta_deg M X n_samples).
  - intros ->; split; [reflexivity|].
    intros [[theta_deg M] X]; unfold Float64.l1_loss.
    rewrite float_predict_map, combine_finite; cbn [finite_array map].
    destruct (combine x_obs y_obs) as [|[x_o y_o] rest]; [congruence|].
    reflexivity.
Qed.

Lemma fit_objective_on_grid_witness :
  exists t_samples,
    get_uniform_t_values 2 6 60 = Ok t_samples
    /\ forall theta_deg M X,
         isfinite theta_deg ->
         - (5 / 100) < M < 5 / 100 ->
         exists v,
           Float64.l1_loss (finite_params (theta_deg, M, X))
             (finite_array t_samples) (finite_array [60; 70])
             (finite_array [45; 50])
           = Ok v
           /\ Float64.nonneg v.
Proof.
  apply (fit_objective_on_grid 2 [60; 70] [45; 50]); [cbn; discriminate | lia].
Defined.

(** A frame that [load_data] returns has at least 10 rows, the columns x
    and y and no missing value, and loading a file that holds it returns it
    unchanged. *)
Theorem load_data_result_is_valid (read_csv : string -> result (DataFrame cell))
    (path : string) (out : DataFrame cell) :
  load_data read_csv path = Ok out ->
  (10 <= df_len out)%nat
  /\ df_has "x" out = true
  /\ df_has "y" out = true
  /\ df_any_isna out = false
  /\ forall path', load_data (fun _ => Ok out) path' = Ok out.
Proof.
  intros Hload.
  destruct (read_csv path) as [df|e] eqn:Hread;
    [|unfold load_data in Hload; rewrite Hread in Hload; destruct e; discriminate].
  rewrite (load_data_table read_csv path df Hread) in Hload.
  destruct (find_column "x" (df_columns df)) as [cx|]; [|discriminate].
  destruct (find_column "y" (df_columns df)) as [cy|]; [|discriminate].
  destruct (df_len df <? 10)%nat eqn:Hlen; [discriminate|].
  destruct (existsb isna cx || existsb isna cy) eqn:Hna; [discriminate|].
  injection Hload as <-.
  apply Nat.ltb_ge in Hlen.
  repeat split; try reflexivity.
  - exact Hlen.
  - unfold df_any_isna; cbn [df_columns existsb snd].
    now rewrite orb_false_r.
  - intros path'.
    rewrite (load_data_table (fun _ => Ok (mkDataFrame (df_len df)
                                [("x"%string, cx); ("y"%string, cy)]))
               path' _ eq_refl).
    cbn [df_columns df_len find_column String.eqb Ascii.eqb Bool.eqb].
    apply Nat.ltb_ge in Hlen; rewrite Hlen, Hna; reflexivity.
Qed.

Lemma load_data_result_is_valid_witness :
  Nat.le 10
    (df_len (mkDataFrame 10
               [("x"%string, map Num [60; 61; 62; 63; 64; 65; 66; 67; 68; 69]);
                ("y"%string, map Num [45; 46; 47; 48; 49; 50; 51; 52; 53; 54])])).
Proof.
  apply (load_data_result_is_valid example_read_csv "data/xy.csv").
  reflexivity.
Defined.

(** * Properties of the residuals *)

Lemma euclid_sym (a b : R * R) : euclid a b = euclid b a.
Proof. unfold euclid; f_equal; ring. Qed.

Lemma np_broadcast_same_length (f : R -> R -> R) (a b : array) :
  length a = length b -> np_broadcast f a b = Ok (np_zip f a b).
Proof. intros H; unfold np_broadcast; now rewrite H, Nat.eqb_refl. Qed.

Lemma length_np_zip (f : R -> R -> R) (a b : array) :
  length a = length b -> length (np_zip f a b) = length a.
Proof.
  intros H; unfold np_zip; rewrite length_map, length_combine, H.
  apply Nat.min_id.
Qed.

Lemma residuals_zip (xp : array) :
  forall yp xo yo,
  length xp = length xo -> length yp = length yo -> length xp = length yp ->
  np_sqrt (np_zip Rplus (np_square (np_zip Rminus xp xo))
                        (np_square (np_zip Rminus yp yo)))
  = map (fun q => euclid (fst q) (snd q)) (combine (combine xp yp) (combine xo yo)).
Proof.
  induction xp as [|a xp IH]; intros [|b yp] [|c xo] [|d yo] H1 H2 H3;
    cbn [length] in *; try discriminate; [reflexivity|].
  injection H1 as H1; injection H2 as H2; injection H3 as H3.
  unfold np_sqrt, np_square, np_zip in *; cbn [combine map fst snd].
  rewrite (IH yp xo yo H1 H2 H3).
  f_equal; unfold euclid; cbn [fst snd]; f_equal; ring.
Qed.

Lemma compute_residuals_value (x_pred y_pred x_obs y_obs : array) :
  length x_pred = length x_obs ->
  length y_pred = length y_obs ->
  length x_pred = length y_pred ->
  compute_residuals x_pred y_pred x_obs y_obs
  = Ok (map (fun q => euclid (fst q) (snd q))
            (combine (combine x_pred y_pred) (combine x_obs y_obs))).
Proof.
  intros H1 H2 H3.
  unfold compute_residuals.
  rewrite !np_broadcast_same_length by assumption; cbn [rbind].
  rewrite np_broadcast_same_length; cbn [rbind].
  - now rewrite residuals_zip.
  - unfold np_square; rewrite !length_map, !length_np_zip by assumption.
    exact H3.
Qed.

Lemma float_np_broadcast_same_length (f : Float64.float -> Float64.float -> Float64.float)
    (a b : Float64.farray) :
  length a = length b -> Float64.np_broadcast f a b = Ok (Float64.np_zip f a b).
Proof. intros H; unfold Float64.np_broadcast; now rewrite H, Nat.eqb_refl. Qed.

Lemma float_length_np_zip (f : Float64.float -> Float64.float -> Float64.float)
    (a b : Float64.farray) :
  length a = length b -> length (Float64.np_zip f a b) = length a.
Proof.
  intros H; unfold Float64.np_zip; rewrite length_map, length_combine, H.
  apply Nat.min_id.
Qed.

Lemma float_residuals_zip (xp : Float64.farray) :
  forall yp xo yo,
  length xp = length xo -> length yp = length yo -> length xp = length yp ->
  Float64.np_sqrt
    (Float64.np_zip Float64.fadd
       (Float64.np_square (Float64.np_zip Float64.fsub xp xo))
       (Float64.np_square (Float64.np_zip Float64.fsub yp yo)))
  = map (fun q => Float64.distance (fst q) (fst (snd q)) (snd (snd q)))
        (combine (combine xp yp) (combine xo yo)).
Proof.
  induction xp as [|a xp IH]; intros [|b yp] [|c xo] [|d yo] H1 H2 H3;
    cbn [length] in *; try discriminate; [reflexivity|].
  injection H1 as H1; injection H2 as H2; injection H3 as H3.
  unfold Float64.np_sqrt, Float64.np_square, Float64.np_zip in *;
    cbn [combine map fst snd].
  rewrite (IH yp xo yo H1 H2 H3); reflexivity.
Qed.

Lemma float_compute_residuals_value (x_pred y_pred x_obs y_obs : Float64.farray) :
  length x_pred = length x_obs ->
  length y_pred = length y_obs ->
  length x_pred = length y_pred ->
  Float64.compute_residuals x_pred y_pred x_obs y_obs
  = Ok (map (fun q => Float64.distance (fst q) (fst (snd q)) (snd (snd q)))
            (combine (combine x_pred y_pred) (combine x_obs y_obs))).
Proof.
  intros H1 H2 H3.
  unfold Float64.compute_residuals.
  rewrite !float_np_broadcast_same_length by assumption; cbn [rbind].
  rewrite float_np_broadcast_same_length; cbn [rbind].
  - now rewrite float_residuals_zip.
  - unfold Float64.np_square; rewrite !length_map, !float_length_np_zip by assumption.
    exact H3.
Qed.

(** Two pairs of finite arrays, paired point by point. *)
Lemma combine_finite_points (xp yp xo yo : array) :
  combine (combine (finite_array xp) (finite_array yp))
          (combine (finite_array xo) (finite_array yo))
  = map (fun q => ((Float64.fin (fst (fst q)), Float64.fin (snd (fst q))),
                   (Float64.fin (fst (snd q)), Float64.fin (snd (snd q)))))
        (combine (combine xp yp) (combine xo yo)).
Proof.
  rewrite !combine_finite.
  generalize (combine xp yp) (combine xo yo); intros l.
  induction l as [|a l IH]; intros [|b l']; cbn [map combine fst snd];
    try reflexivity.
  now rewrite IH.
Qed.

Lemma euclid_products (x y xo yo : R) :
  sqrt ((x - xo) * (x - xo) + (y - yo) * (y - yo)) = euclid (x, y) (xo, yo).
Proof. unfold euclid; cbn [fst snd]; f_equal; ring. Qed.

(** On four arrays of one length that hold finite values,
    [compute_residuals] returns one residual per index: a value that is not
    negative, which is 0 where the predicted and the observed point are the
    same, and the Euclidean distance between the two points when their
    coordinates have magnitude at most 2^400, so that no squared difference
    overflows. *)
Theorem compute_residuals_same_length (x_pred y_pred x_obs y_obs : array) :
  length x_pred = length x_obs ->
  length y_pred = length y_obs ->
  length x_pred = length y_pred ->
  exists rs,
    Float64.compute_residuals (finite_array x_pred) (finite_array y_pred)
      (finite_array x_obs) (finite_array y_obs) = Ok rs
    /\ length rs = length x_pred
    /\ Forall2 (fun q r =>
                  Float64.nonneg r
                  /\ (fst q = snd q -> r = Float64.fin 0)
                  /\ (Rabs (fst (fst q)) <= 2 ^ 400 ->
                      Rabs (snd (fst q)) <= 2 ^ 400 ->
                      Rabs (fst (snd q)) <= 2 ^ 400 ->
                      Rabs (snd (snd q)) <= 2 ^ 400 ->
                      r = Float64.fin (euclid (fst q) (snd q))))
               (combine (combine x_pred y_pred) (combine x_obs y_obs)) rs.
Proof.
  intros H1 H2 H3.
  eexists; split; [|split].
  - apply float_compute_residuals_value; unfold finite_array;
      rewrite !length_map; assumption.
  - rewrite length_map, combine_finite_points, length_map, !length_combine,
      <- H1, <- H2, <- H3.
    now rewrite !Nat.min_id.
  - rewrite combine_finite_points, map_map.
    apply Forall2_map_r; intros [[x y] [xo yo]]; cbn [fst snd].
    split; [apply distance_nonneg; discriminate|].
    split.
    + intros H; injection H as -> ->; apply distance_same.
    + intros Hx Hy Hxo Hyo.
      assert (HB : 0 <= 2 ^ 400) by (apply pow_le; lra).
      destruct (distance_within_range x y xo yo) as [Hd _];
        try assumption; try lra.
      unfold Float64.distance; cbn [fst snd].
      rewrite Hd, euclid_products; reflexivity.
Qed.

Lemma compute_residuals_same_length_witness :
  exists rs,
    Float64.compute_residuals (finite_array [1; 2]) (finite_array [3; 4])
      (finite_array [1; 5]) (finite_array [3; 8]) = Ok rs
    /\ length rs = length [1; 2]
    /\ Forall2 (fun q r =>
                  Float64.nonneg r
                  /\ (fst q = snd q -> r = Float64.fin 0)
                  /\ (Rabs (fst (fst q)) <= 2 ^ 400 ->
                      Rabs (snd (fst q)) <= 2 ^ 400 ->
                      Rabs (fst (snd q)) <= 2 ^ 400 ->
                      Rabs (snd (snd q)) <= 2 ^ 400 ->
                      r = Float64.fin (euclid (fst q) (snd q))))
               (combine (combine [1; 2] [3; 4]) (combine [1; 5] [3; 8])) rs.
Proof.
  apply (compute_residuals_same_length [1; 2] [3; 4] [1; 5] [3; 8]);
    reflexivity.
Defined.

(** When the predicted and the observed x arrays differ in length and
    neither has exactly one element, [compute_residuals] raises a
    [ValueError], that of numpy's broadcasting. *)
Theorem compute_residuals_shape_mismatch (x_pred y_pred x_obs y_obs : array) :
  length x_pred <> length x_obs ->
  length x_pred <> 1%nat ->
  length x_obs <> 1%nat ->
  exists msg,
    compute_residuals x_pred y_pred x_obs y_obs = Raise (ValueError msg).
Proof.
  intros Hne Hp Ho.
  exists (cannot_broadcast (length x_pred) (length x_obs)).
  unfold compute_residuals, np_broadcast.
  apply Nat.eqb_neq in Hne; rewrite Hne.
  destruct x_pred as [|u [|u' x_pred]]; destruct x_obs as [|v [|v' x_obs]];
    cbn [length] in *; try congruence; reflexivity.
Qed.

Lemma compute_residuals_shape_mismatch_witness :
  exists msg,
    compute_residuals [1; 2; 3] [1; 2; 3] [1; 2] [1; 2] = Raise (ValueError msg).
Proof.
  apply (compute_residuals_shape_mismatch [1; 2; 3] [1; 2; 3] [1; 2] [1; 2]);
    cbn [length]; lia.
Defined.

Lemma combine_firstn_len_l {A B : Type} (a : list A) :
  forall b : list B, combine (firstn (length b) a) b = combine a b.
Proof.
  induction a as [|x a IH]; intros [|y b]; cbn [length firstn combine];
    try reflexivity.
  now rewrite IH.
Qed.

Lemma combine_firstn_len_r {A B : Type} (a : list A) :
  forall b : list B, combine a (firstn (length a) b) = combine a b.
Proof.
  induction a as [|x a IH]; intros [|y b]; cbn [length firstn combine];
    try reflexivity.
  now rewrite IH.
Qed.

Lemma plot_residuals_data_value (xy_df : DataFrame R) (fit : FitResult)
    (n_samples : Z) (x_col y_col : array) :
  (0 <= n_samples)%Z ->
  df_get xy_df "x" = Ok x_col ->
  df_get xy_df "y" = Ok y_col ->
  length x_col = length y_col ->
  exists t_samples,
    get_uniform_t_values n_samples 6 60 = Ok t_samples
    /\ plot_residuals_data xy_df fit n_samples
       = Ok (map (fun q =>
                    euclid (curve_point (fit_theta_deg fit, fit_M fit, fit_X fit)
                                        (fst q))
                           (snd q))
                 (combine t_samples (combine x_col y_col)))
    /\ length (combine t_samples (combine x_col y_col))
       = Nat.min (Z.to_nat n_samples) (length x_col).
Proof.
  intros Hn Hx Hy Hlen.
  destruct (linspace_grid n_samples 6 60 Hn) as [ts [Hts [Hl _]]].
  exists ts; split; [exact Hts|].
  split.
  - unfold plot_residuals_data; rewrite Hts; cbn [rbind].
    rewrite predict_map, Hx; cbn [rbind]; rewrite Hy; cbn [rbind].
    set (cx := map (curve_x (fit_theta_deg fit) (fit_M fit) (fit_X fit)) ts).
    set (cy := map (curve_y (fit_theta_deg fit) (fit_M fit) (fit_X fit)) ts).
    set (xo := firstn (Z.to_nat n_samples) x_col).
    set (yo := firstn (Z.to_nat n_samples) y_col).
    assert (Hxo : length xo = Nat.min (Z.to_nat n_samples) (length x_col))
      by (subst xo; apply length_firstn).
    assert (Hyo : length yo = length xo)
      by (subst xo yo; rewrite !length_firstn, Hlen; reflexivity).
    assert (Hcx : length cx = Z.to_nat n_samples)
      by (subst cx; now rewrite length_map).
    assert (Hcy : length cy = Z.to_nat n_samples)
      by (subst cy; now rewrite length_map).
    rewrite compute_residuals_value.
    2: rewrite length_firstn, Hcx, Hxo; lia.
    2: rewrite length_firstn, Hcy, Hyo, Hxo; lia.
    2: rewrite !length_firstn, Hcx, Hcy, Hyo; reflexivity.
    + f_equal.
      rewrite Hyo, <- combine_firstn.
      replace (length xo) with (length (combine xo yo))
        by (rewrite length_combine, Hyo; apply Nat.min_id).
      rewrite combine_firstn_len_l.
      subst xo yo; rewrite <- combine_firstn.
      replace (Z.to_nat n_samples) with (length (combine cx cy))
        by (rewrite length_combine, Hcx, Hcy; apply Nat.min_id).
      rewrite combine_firstn_len_r.
      subst cx cy; rewrite combine_map_map, combine_map_l, map_map.
      apply map_ext; intros [t o]; reflexivity.
  - rewrite !length_combine, Hl, <- Hlen, Nat.min_id; reflexivity.
Qed.



Lemma least_le_positional (p : params) (t_all : array) :
  t_all <> [] ->
  forall (obs : list (R * R)) (ts : array),
  incl ts t_all ->
  (length obs <= length ts)%nat ->
  Forall2 Rle (map (least_distance p t_all) obs)
              (map (fun q => euclid (curve_point p (fst q)) (snd q))
                   (combine ts obs)).
Proof.
  intros Hne obs; induction obs as [|o obs IH]; intros ts Hincl Hlen.
  - destruct ts; constructor.
  - destruct ts as [|t ts]; [cbn in Hlen; lia|].
    cbn [map combine fst snd]; constructor.
    + destruct (least_distance_is_minimum p t_all o Hne) as [_ Hle].
      apply Hle, in_map_iff; exists t.
      split; [apply euclid_sym | apply Hincl; now left].
    + apply IH; [intros u Hu; apply Hincl; now right | cbn in Hlen; lia].
Qed.

Lemma Forall_firstn {A : Type} (P : A -> Prop) (n : nat) (l : list A) :
  Forall P l -> Forall P (firstn n l).
Proof.
  intros H; revert n; induction H as [|a l Ha _ IH]; intros [|n];
    cbn [firstn]; constructor; auto.
Qed.

Lemma Forall_points_bound (xp : array) :
  forall yp xo yo : array,
  Forall (fun v => Rabs v <= 3 * 2 ^ 400) xp ->
  Forall (fun v => Rabs v <= 3 * 2 ^ 400) yp ->
  Forall (fun v => Rabs v <= 2 ^ 400) xo ->
  Forall (fun v => Rabs v <= 2 ^ 400) yo ->
  Forall (fun q => (Rabs (fst (fst q)) <= 3 * 2 ^ 400
                    /\ Rabs (snd (fst q)) <= 3 * 2 ^ 400)
                   /\ Rabs (fst (snd q)) <= 2 ^ 400
                   /\ Rabs (snd (snd q)) <= 2 ^ 400)
         (combine (combine xp yp) (combine xo yo)).
Proof.
  induction xp as [|a xp IH]; intros [|b yp] [|c xo] [|d yo] H1 H2 H3 H4;
    cbn [combine]; try constructor.
  - inversion H1; inversion H2; inversion H3; inversion H4; subst.
    cbn [fst snd]; auto.
  - inversion H1; inversion H2; inversion H3; inversion H4; subst.
    now apply IH.
Qed.

(** The residuals of bounded points, computed without overflow: the
    Euclidean distances, each between 0 and 2^806. *)
Lemma compute_residuals_within_range (x_pred y_pred x_obs y_obs : array) :
  length x_pred = length x_obs ->
  length y_pred = length y_obs ->
  length x_pred = length y_pred ->
  Forall (fun v => Rabs v <= 3 * 2 ^ 400) x_pred ->
  Forall (fun v => Rabs v <= 3 * 2 ^ 400) y_pred ->
  Forall (fun v => Rabs v <= 2 ^ 400) x_obs ->
  Forall (fun v => Rabs v <= 2 ^ 400) y_obs ->
  let rs := map (fun q => euclid (fst q) (snd q))
                (combine (combine x_pred y_pred) (combine x_obs y_obs)) in
  compute_residuals x_pred y_pred x_obs y_obs = Ok rs
  /\ Float64.compute_residuals (finite_array x_pred) (finite_array y_pred)
       (finite_array x_obs) (finite_array y_obs) = Ok (finite_array rs)
  /\ Forall (fun d => 0 <= d <= 2 ^ 806) rs.
Proof.
  intros H1 H2 H3 Hxp Hyp Hxo Hyo; cbv zeta.
  pose proof (Forall_points_bound _ _ _ _ Hxp Hyp Hxo Hyo) as Hq.
  split; [now apply compute_residuals_value|].
  rewrite float_compute_residuals_value
    by (unfold finite_array; rewrite !length_map; assumption).
  rewrite combine_finite_points; unfold finite_array; rewrite !map_map.
  split.
  - apply f_equal, map_ext_in; intros [[x y] [xo yo]] Hin; cbn [fst snd].
    rewrite Forall_forall in Hq.
    destruct (Hq _ Hin) as [[Hx Hy] [Hxo' Hyo']]; cbn [fst snd] in *.
    destruct (distance_within_range x y xo yo Hx Hy Hxo' Hyo') as [Hd _].
    unfold Float64.distance; cbn [fst snd].
    rewrite Hd, euclid_products; reflexivity.
  - apply Forall_map; eapply Forall_impl; [|exact Hq].
    intros [[x y] [xo yo]] [[Hx Hy] [Hxo' Hyo']]; cbn [fst snd] in *.
    destruct (distance_within_range x y xo yo Hx Hy Hxo' Hyo') as [_ Hb].
    now rewrite <- euclid_products.
Qed.

(** The residuals of [plot_residuals] for parameters within the validation
    bounds and bounded observations, computed without overflow. *)
Lemma plot_residuals_data_within_range (xy_df : DataFrame R) (fit : FitResult)
    (n_samples : Z) (x_col y_col : array) :
  validate_bounds (fit_theta_deg fit) (fit_M fit) (fit_X fit) = true ->
  Forall (fun v => Rabs v <= 2 ^ 400) x_col ->
  Forall (fun v => Rabs v <= 2 ^ 400) y_col ->
  (0 <= n_samples)%Z ->
  df_get xy_df "x" = Ok x_col ->
  df_get xy_df "y" = Ok y_col ->
  length x_col = length y_col ->
  exists rs,
    plot_residuals_data xy_df fit n_samples = Ok rs
    /\ Float64.plot_residuals_data xy_df fit n_samples = Ok (finite_array rs)
    /\ Forall (fun d => 0 <= d <= 2 ^ 806) rs.
Proof.
  intros Hv Hxc Hyc Hn Hx Hy Hlen.
  apply validate_bounds_true_iff in Hv as (Hth & HM & HX).
  destruct (linspace_grid n_samples 6 60 Hn) as [ts [Hts [Hl _]]].
  pose proof (uniform_t_values_range _ _ Hts) as Hrange.
  assert (Hfin : isfinite (fit_theta_deg fit))
    by (apply isfinite_small; rewrite Rabs_pos_eq; lra).
  assert (H8 : (8 <= 400)%nat) by lia.
  assert (HXb : Rabs (fit_X fit) <= 2 ^ 400)
    by (apply small_le_pow2; [exact H8 | rewrite Rabs_pos_eq; lra]).
  assert (Hsafe : Forall (fun t => Rabs t <= 2 ^ 400
                                   /\ Rabs (fit_M fit * Rabs t) <= 200) ts).
  { eapply Forall_impl; [|exact Hrange].
    intros t Ht; split.
    - apply small_le_pow2; [exact H8 | rewrite Rabs_pos_eq; lra].
    - rewrite (Rabs_pos_eq t) by lra; apply Rabs_le; nra. }
  unfold plot_residuals_data, Float64.plot_residuals_data.
  rewrite Hts; cbn [rbind].
  change (map Float64.fin ts) with (finite_array ts).
  rewrite predict_map, predict_within_range by assumption.
  rewrite Hx, Hy; cbn [rbind].
  change (map Float64.fin x_col) with (finite_array x_col).
  change (map Float64.fin y_col) with (finite_array y_col).
  unfold finite_array; rewrite !firstn_map, !length_map.
  set (xo := firstn (Z.to_nat n_samples) x_col).
  set (yo := firstn (Z.to_nat n_samples) y_col).
  assert (Hxo : length xo = Nat.min (Z.to_nat n_samples) (length x_col))
    by (subst xo; apply length_firstn).
  assert (Hyo : length yo = length xo)
    by (subst xo yo; rewrite !length_firstn, Hlen; reflexivity).
  assert (Hcb : forall k,
            Forall (fun v => Rabs v <= 3 * 2 ^ 400)
                   (map (curve_x (fit_theta_deg fit) (fit_M fit) (fit_X fit))
                        (firstn k ts))
            /\ Forall (fun v => Rabs v <= 3 * 2 ^ 400)
                      (map (curve_y (fit_theta_deg fit) (fit_M fit) (fit_X fit))
                           (firstn k ts))).
  { intros k; split; apply Forall_map, Forall_firstn;
      (eapply Forall_impl; [|exact Hsafe]); intros t [Ht1 Ht2];
      now destruct (curve_point_within_range _ (fit_M fit) (fit_X fit) t
                      Hfin HXb Ht1 Ht2) as (_ & _ & Hbx & Hby). }
  destruct (compute_residuals_within_range
              (map (curve_x (fit_theta_deg fit) (fit_M fit) (fit_X fit))
                   (firstn (length xo) ts))
              (map (curve_y (fit_theta_deg fit) (fit_M fit) (fit_X fit))
                   (firstn (length yo) ts))
              xo yo)
    as (Hr & Hf & Hb).
  - rewrite length_map, length_firstn, Hl, Hxo; lia.
  - rewrite length_map, length_firstn, Hl, Hyo, Hxo; lia.
  - rewrite !length_map, !length_firstn, Hyo; reflexivity.
  - apply Hcb.
  - apply Hcb.
  - subst xo; now apply Forall_firstn.
  - subst yo; now apply Forall_firstn.
  - eexists; split; [exact Hr|]; split; [exact Hf | exact Hb].
Qed.

(** Over the reals: the mean residual is never below the loss of the same
    parameters on the same grid. *)
Lemma residual_mean_at_least_loss (xy_df : DataFrame R) (fit : FitResult)
    (n_samples : Z) (x_col y_col : array) :
  df_get xy_df "x" = Ok x_col ->
  df_get xy_df "y" = Ok y_col ->
  length x_col = length y_col ->
  (1 <= length x_col)%nat ->
  (Z.of_nat (length x_col) <= n_samples)%Z ->
  exists t_samples rs v m,
    get_uniform_t_values n_samples 6 60 = Ok t_samples
    /\ plot_residuals_data xy_df fit n_samples = Ok rs
    /\ length rs = length x_col
    /\ np_mean rs = Fin m
    /\ l1_loss (fit_theta_deg fit, fit_M fit, fit_X fit) t_samples x_col y_col
       = Ok (Fin v)
    /\ v <= m.
Proof.
  intros Hx Hy Hlen Hrows Hn.
  destruct (plot_residuals_data_value xy_df fit n_samples x_col y_col
              ltac:(lia) Hx Hy Hlen) as [ts [Hts [Hrs Hl]]].
  destruct (linspace_grid n_samples 6 60 ltac:(lia)) as [ts' [Hts' [Hl' _]]].
  rewrite Hts in Hts'; injection Hts' as <-.
  assert (Hne : ts <> []) by (intros ->; cbn in Hl'; lia).
  assert (Hobs : combine x_col y_col <> []).
  { destruct x_col, y_col; cbn in *; try lia; discriminate. }
  set (p := (fit_theta_deg fit, fit_M fit, fit_X fit)) in *.
  set (rs := map (fun q => euclid (curve_point p (fst q)) (snd q))
                 (combine ts (combine x_col y_col))) in *.
  assert (Hle : Forall2 Rle (map (least_distance p ts) (combine x_col y_col)) rs).
  { apply least_le_positional; [exact Hne | apply incl_refl|].
    rewrite length_combine, <- Hlen, Nat.min_id; lia. }
  assert (Hmne : map (least_distance p ts) (combine x_col y_col) <> [])
    by (intros H; apply map_eq_nil in H; contradiction).
  assert (Hrne : rs <> []).
  { intros H; rewrite H in Hle; inversion Hle; congruence. }
  exists ts, rs, (arithmetic_mean (map (least_distance p ts) (combine x_col y_col))),
         (arithmetic_mean rs).
  split; [exact Hts|]; split; [exact Hrs|].
  split; [subst rs; rewrite length_map, Hl; lia|].
  split; [now apply np_mean_nonempty|].
  split; [rewrite l1_loss_value, np_mean_nonempty by assumption; reflexivity|].
  now apply arithmetic_mean_le.
Qed.

(** When the fitted parameters pass [validate_bounds], the observed
    coordinates have magnitude at most 2^400 and the sample count is at
    least the number of observed points (of which there are at most 2^64),
    the mean of the residuals that [plot_residuals] computes is never below
    the loss of the same parameters on the same grid. *)
Theorem plot_residuals_mean_at_least_loss (xy_df : DataFrame R) (fit : FitResult)
    (n_samples : Z) (x_col y_col : array) :
  validate_bounds (fit_theta_deg fit) (fit_M fit) (fit_X fit) = true ->
  Forall (fun v => Rabs v <= 2 ^ 400) x_col ->
  Forall (fun v => Rabs v <= 2 ^ 400) y_col ->
  INR (length x_col) <= 2 ^ 64 ->
  df_get xy_df "x" = Ok x_col ->
  df_get xy_df "y" = Ok y_col ->
  length x_col = length y_col ->
  (1 <= length x_col)%nat ->
  (Z.of_nat (length x_col) <= n_samples)%Z ->
  exists t_samples rs v m,
    get_uniform_t_values n_samples 6 60 = Ok t_samples
    /\ Float64.plot_residuals_data xy_df fit n_samples = Ok rs
    /\ Float64.np_mean rs = Float64.fin m
    /\ Float64.l1_loss
         (finite_params (fit_theta_deg fit, fit_M fit, fit_X fit))
         (finite_array t_samples) (finite_array x_col) (finite_array y_col)
       = Ok (Float64.fin v)
    /\ v <= m.
Proof.
  intros Hv Hxb Hyb Hcount Hx Hy Hlen Hrows Hn.
  destruct (residual_mean_at_least_loss xy_df fit n_samples x_col y_col
              Hx Hy Hlen Hrows Hn)
    as (ts & rs & v & m & Hts & Hrs & Hlrs & Hm & Hloss & Hle).
  destruct (plot_residuals_data_within_range xy_df fit n_samples x_col y_col
              Hv Hxb Hyb ltac:(lia) Hx Hy Hlen)
    as (rs' & Hrs' & Hf & Hb).
  rewrite Hrs in Hrs'; injection Hrs' as <-.
  exists ts, (finite_array rs), v, m.
  split; [exact Hts|]; split; [exact Hf|].
  split.
  { rewrite np_mean_within_range, Hm; [reflexivity | exact Hb|].
    now rewrite Hlrs. }
  split; [|exact Hle].
  rewrite l1_loss_within_range, Hloss; [reflexivity|].
  apply validate_bounds_true_iff in Hv as (Hth & HM & HX).
  apply validated_within_range; try assumption.
  - apply isfinite_small; rewrite Rabs_pos_eq; lra.
  - now apply uniform_t_values_range in Hts.
  - now rewrite length_combine, <- Hlen, Nat.min_id.
Qed.

Lemma plot_residuals_mean_at_least_loss_witness :
  exists t_samples rs v m,
    get_uniform_t_values 3 6 60 = Ok t_samples
    /\ Float64.plot_residuals_data example_frame
         (mkFitResult 25 (deg_to_rad 25) (1 / 100) 50 (Fin 1)) 3 = Ok rs
    /\ Float64.np_mean rs = Float64.fin m
    /\ Float64.l1_loss (finite_params (25, 1 / 100, 50)) (finite_array t_samples)
         (finite_array [60; 70]) (finite_array [45; 50])
       = Ok (Float64.fin v)
    /\ v <= m.
Proof.
  destruct example_observations as (Hxb & Hyb & Hcount).
  apply (plot_residuals_mean_at_least_loss example_frame
           (mkFitResult 25 (deg_to_rad 25) (1 / 100) 50 (Fin 1)) 3
           [60; 70] [45; 50]);
    first
      [ reflexivity
      | assumption
      | (cbn; lia)
      | apply validate_bounds_true_iff; cbn [fit_theta_deg fit_M fit_X]; lra ].
Defined.
